(** * node-ical: time-zone utilities, date keys and recurrence expansion

    A shallow embedding of [tz-utils.js] and [lib/date-utils.js], together
    with the recurrence expansion contract those modules serve.

    Conventions of the embedding.
    - A JavaScript string is a [string]; every [ascii] stands for one code
      unit below 256 (code units above 255 are outside the model).
    - A JavaScript number that the code only ever uses as an integer
      (epoch milliseconds, minutes, calendar fields) is a [Z].  The value
      [NaN] of an invalid [Date] is [None].  Negative zero is identified with
      zero: the code only compares, adds and formats these numbers.
    - [undefined] / [null] results are [None].
    - Module-level mutable state ([aliasMap], [validIanaCache]) and the
      console are threaded explicitly through a small state-and-exception
      monad. *)

From Stdlib Require Import ZArith Lia Bool Ascii String List Sorted.
From stdpp Require Import base option list gmap strings.

Local Open Scope string_scope.
Local Open Scope Z_scope.

(** ** Code units and elementary string operations *)

Module Chars.

Definition code (c : ascii) : Z := Z.of_N (N_of_ascii c).

Definition is_digit (c : ascii) : bool := (48 <=? code c) && (code c <=? 57).

(** [\s] of a JavaScript regular expression, restricted to code units < 256:
    TAB, LF, VT, FF, CR, SPACE and NBSP.  [String.prototype.trim] strips the
    same set. *)
Definition is_space (c : ascii) : bool :=
  ((9 <=? code c) && (code c <=? 13)) || (code c =? 32) || (code c =? 160).

(** Line terminators below 256 (the dot of a regular expression does not
    match them). *)
Definition is_line_terminator (c : ascii) : bool :=
  (code c =? 10) || (code c =? 13).

Definition chr (c : ascii) : ascii -> bool := fun x => Ascii.eqb x c.

Definition of_code (n : Z) : ascii := ascii_of_N (Z.to_N n).

(** [String.prototype.toLowerCase] on one code unit below 256: A-Z and the
    Latin-1 capitals (C0-D6, D8-DE) move up by 32. *)
Definition lower (c : ascii) : ascii :=
  let n := code c in
  if ((65 <=? n) && (n <=? 90)) || ((192 <=? n) && (n <=? 214))
     || ((216 <=? n) && (n <=? 222))
  then of_code (n + 32) else c.

(** Case-insensitive comparison of a (non-unicode) regular expression with an
    ASCII letter [l], given in lower case: only the two ASCII spellings
    match. *)
Definition chr_i (l : ascii) : ascii -> bool :=
  fun x => Ascii.eqb x l || Ascii.eqb x (of_code (code l - 32)).

Definition digit_val (c : ascii) : Z := code c - 48.

Definition digit_char (n : Z) : ascii := of_code (48 + n).

End Chars.

Module Str.

Fixpoint map (f : ascii -> ascii) (s : string) : string :=
  match s with
  | EmptyString => EmptyString
  | String c s' => String (f c) (map f s')
  end.

Fixpoint existsb (p : ascii -> bool) (s : string) : bool :=
  match s with
  | EmptyString => false
  | String c s' => p c || existsb p s'
  end.

Fixpoint drop_while (p : ascii -> bool) (s : string) : string :=
  match s with
  | EmptyString => EmptyString
  | String c s' => if p c then drop_while p s' else s
  end.

Definition trim_start (s : string) : string := drop_while Chars.is_space s.

Definition trim_end (s : string) : string :=
  String.rev (drop_while Chars.is_space (String.rev s)).

(** [String.prototype.trim] *)
Definition trim (s : string) : string := trim_end (trim_start s).

(** [String.prototype.toLowerCase] *)
Definition toLowerCase (s : string) : string := map Chars.lower s.

(** [s.includes(c)] for a one-character needle *)
Definition includes_char (c : ascii) (s : string) : bool :=
  existsb (Chars.chr c) s.

(** [s.startsWith(p)] *)
Definition startsWith (p s : string) : bool := String.prefix p s.

(** [s.split(c)] for a one-character separator: always at least one piece *)
Fixpoint split_go (c : ascii) (cur : string) (s : string) : list string :=
  match s with
  | EmptyString => [String.rev cur]
  | String x s' =>
      if Ascii.eqb x c then String.rev cur :: split_go c EmptyString s'
      else split_go c (String x cur) s'
  end.

Definition split (c : ascii) (s : string) : list string :=
  split_go c EmptyString s.

(** The first [n] code units. *)
Fixpoint take (n : nat) (s : string) : string :=
  match n, s with
  | S n', String c s' => String c (take n' s')
  | _, _ => EmptyString
  end.

(** [s.slice(0, n)] *)
Definition slice0 (n : nat) (s : string) : string := take n s.

(** JavaScript truthiness of a string. *)
Definition truthy (s : string) : bool :=
  match s with EmptyString => false | _ => true end.

(** [Number(s)] for a string of decimal digits (the empty string is 0). *)
Fixpoint number_go (acc : Z) (s : string) : Z :=
  match s with
  | EmptyString => acc
  | String c s' => number_go (10 * acc + Chars.digit_val c) s'
  end.

Definition number (s : string) : Z := number_go 0 s.

(** [String(n)] for an integer. *)
Fixpoint of_nonneg (fuel : nat) (n : Z) (acc : string) : string :=
  let acc' := String (Chars.digit_char (n mod 10)) acc in
  match fuel with
  | O => acc'
  | S fuel' => if n <? 10 then acc' else of_nonneg fuel' (n / 10) acc'
  end.

Definition of_Z (n : Z) : string :=
  if n <? 0
  then String "-" (of_nonneg (Z.to_nat (Z.log2 (- n))) (- n) EmptyString)
  else of_nonneg (Z.to_nat (Z.log2 n)) n EmptyString.

(** [s.padStart(w, '0')] *)
Definition padStart0 (w : nat) (s : string) : string :=
  String.app (string_of_list_ascii (repeat "0"%char (w - String.length s))) s.

(** Exactly [w] decimal digits of [n], most significant first. *)
Fixpoint fixed (w : nat) (n : Z) : string :=
  match w with
  | O => EmptyString
  | S w' => String.app (fixed w' (n / 10))
                       (String (Chars.digit_char (n mod 10)) EmptyString)
  end.

End Str.

(** ** Regular expressions

    The fragment of JavaScript regular expressions used by the two modules:
    character classes, sequencing, ordered alternation, the greedy [?], the
    greedy [*] over a character class, capture groups and the end anchor.
    The matcher is the usual backtracking one, written with a continuation:
    the first alternative is tried first and a greedy operator first tries to
    consume. *)

Module Regex.

Inductive regex : Type :=
| Eps
| Cls (p : ascii -> bool)
| Cat (r1 r2 : regex)
| Alt (r1 r2 : regex)
| Opt (r : regex)
| Star (p : ascii -> bool)
| Grp (i : nat) (r : regex)
| Eos.

(** Captures, most recent first. *)
Definition caps := list (nat * string).

Definition consumed (s s' : string) : string :=
  Str.take (String.length s - String.length s') s.

Section Matcher.
Context {A : Type}.

Fixpoint star (p : ascii -> bool) (s : string) (c : caps)
    (k : string -> caps -> option A) : option A :=
  match s with
  | String a s' =>
      if p a
      then match star p s' c k with
           | Some x => Some x
           | None => k s c
           end
      else k s c
  | EmptyString => k s c
  end.

Fixpoint rmatch (r : regex) (s : string) (c : caps)
    (k : string -> caps -> option A) : option A :=
  match r with
  | Eps => k s c
  | Cls p =>
      match s with
      | String a s' => if p a then k s' c else None
      | EmptyString => None
      end
  | Cat r1 r2 => rmatch r1 s c (fun s' c' => rmatch r2 s' c' k)
  | Alt r1 r2 =>
      match rmatch r1 s c k with
      | Some x => Some x
      | None => rmatch r2 s c k
      end
  | Opt r1 =>
      match rmatch r1 s c k with
      | Some x => Some x
      | None => k s c
      end
  | Star p => star p s c k
  | Grp i r1 => rmatch r1 s c (fun s' c' => k s' ((i, consumed s s') :: c'))
  | Eos =>
      match s with
      | EmptyString => k s c
      | String _ _ => None
      end
  end.
End Matcher.

(** A match: the captures and the text after the match. *)
Record rmatch_result := { m_caps : caps; m_rest : string }.

(** Matching at the start of the subject (a pattern that begins with [^]). *)
Definition exec_at (r : regex) (s : string) : option rmatch_result :=
  rmatch r s [] (fun s' c => Some {| m_caps := c; m_rest := s' |}).

(** Unanchored matching: the leftmost start position that matches.  The
    result also carries the text before the match. *)
Fixpoint search_go (r : regex) (pre : string) (s : string)
    : option (string * rmatch_result) :=
  match exec_at r s with
  | Some m => Some (String.rev pre, m)
  | None =>
      match s with
      | String a s' => search_go r (String a pre) s'
      | EmptyString => None
      end
  end.

Definition search (r : regex) (s : string) : option (string * rmatch_result) :=
  search_go r EmptyString s.

(** Capture [i] of a match ([undefined] when the group did not take part). *)
Fixpoint cap_lookup (i : nat) (c : caps) : option string :=
  match c with
  | [] => None
  | (j, v) :: c' => if Nat.eqb i j then Some v else cap_lookup i c'
  end.

Definition group (i : nat) (m : rmatch_result) : option string :=
  cap_lookup i (m_caps m).

(** [s.replace(/^r/, '')] *)
Definition strip_prefix (r : regex) (s : string) : string :=
  match exec_at r s with
  | Some m => m_rest m
  | None => s
  end.

(** [s.replace(/r/, '')] for an unanchored pattern: the first match is
    removed. *)
Definition strip_first (r : regex) (s : string) : string :=
  match search r s with
  | Some (pre, m) => String.app pre (m_rest m)
  | None => s
  end.

(** Pattern shorthands. *)
Definition digit : regex := Cls Chars.is_digit.
Definition lit (c : ascii) : regex := Cls (Chars.chr c).
Definition lit_i (c : ascii) : regex := Cls (Chars.chr_i c).
Fixpoint seq (rs : list regex) : regex :=
  match rs with
  | [] => Eps
  | [r] => r
  | r :: rs' => Cat r (seq rs')
  end.
Definition digits2 : regex := Cat digit digit.
Definition digits4 : regex := Cat digits2 digits2.

(** *** Declarative meaning of a pattern

    [matches r s c s' c']: starting on [s] with captures [c], the pattern
    can consume a prefix of [s], leaving [s'] and captures [c']. *)
Inductive matches : regex -> string -> caps -> string -> caps -> Prop :=
| M_eps s c : matches Eps s c s c
| M_cls p a s c : p a = true -> matches (Cls p) (String a s) c s c
| M_cat r1 r2 s c s1 c1 s2 c2 :
    matches r1 s c s1 c1 -> matches r2 s1 c1 s2 c2 ->
    matches (Cat r1 r2) s c s2 c2
| M_alt_l r1 r2 s c s' c' : matches r1 s c s' c' -> matches (Alt r1 r2) s c s' c'
| M_alt_r r1 r2 s c s' c' : matches r2 s c s' c' -> matches (Alt r1 r2) s c s' c'
| M_opt_some r s c s' c' : matches r s c s' c' -> matches (Opt r) s c s' c'
| M_opt_none r s c : matches (Opt r) s c s c
| M_star_nil p s c : matches (Star p) s c s c
| M_star_cons p a s c s' c' :
    p a = true -> matches (Star p) s c s' c' ->
    matches (Star p) (String a s) c s' c'
| M_grp i r s c s' c' :
    matches r s c s' c' -> matches (Grp i r) s c s' ((i, consumed s s') :: c')
| M_eos c : matches Eos EmptyString c EmptyString c.

End Regex.

(** ** Outcomes of a JavaScript computation *)

Inductive error : Type :=
| TypeError (msg : string)
| RangeError (msg : string).

Inductive res (A : Type) : Type :=
| Ret (a : A)
| Throw (e : error).
Arguments Ret {A} a.
Arguments Throw {A} e.

Definition res_bind {A B} (r : res A) (k : A -> res B) : res B :=
  match r with
  | Ret a => k a
  | Throw e => Throw e
  end.

(** ** The calendar of [Date] and of Temporal's ISO calendar

    Both count days from 1970-01-01 in the proleptic Gregorian calendar. *)

Module Time.

Definition msPerDay : Z := 86400000.
Definition msPerHour : Z := 3600000.
Definition msPerMinute : Z := 60000.
Definition msPerSecond : Z := 1000.

(** Number of days from 1970-01-01 to the civil date [y]-[m]-[d]
    ([m] in 1..12). *)
Definition days_from_civil (y m d : Z) : Z :=
  let y' := if m <=? 2 then y - 1 else y in
  let era := y' / 400 in
  let yoe := y' - era * 400 in
  let mp := (m + 9) mod 12 in
  let doy := (153 * mp + 2) / 5 + d - 1 in
  let doe := yoe * 365 + yoe / 4 - yoe / 100 + doy in
  era * 146097 + doe - 719468.

(** The civil date (year, month 1..12, day 1..31) of a day number. *)
Definition civil_from_days (z : Z) : Z * Z * Z :=
  let z' := z + 719468 in
  let era := z' / 146097 in
  let doe := z' - era * 146097 in
  let yoe := (doe - doe / 1460 + doe / 36524 - doe / 146096) / 365 in
  let doy := doe - (365 * yoe + yoe / 4 - yoe / 100) in
  let mp := (5 * doy + 2) / 153 in
  let d := doy - (153 * mp + 2) / 5 + 1 in
  let m := if mp <? 10 then mp + 3 else mp - 9 in
  let y := yoe + era * 400 in
  (if m <=? 2 then y + 1 else y, m, d).

(** [Day(t)] and [TimeWithinDay(t)] of ECMAScript. *)
Definition Day (t : Z) : Z := t / msPerDay.
Definition TimeWithinDay (t : Z) : Z := t mod msPerDay.

(** The calendar date of a time value read as UTC. *)
Definition ymd_of_time (t : Z) : Z * Z * Z := civil_from_days (Day t).

Definition is_leap (y : Z) : bool :=
  ((y mod 4 =? 0) && negb (y mod 100 =? 0)) || (y mod 400 =? 0).

Definition days_in_month (y m : Z) : Z :=
  if m =? 2 then (if is_leap y then 29 else 28)
  else if (m =? 4) || (m =? 6) || (m =? 9) || (m =? 11) then 30
  else 31.

(** [TimeClip]: a time value beyond 8.64e15 ms is [NaN]. *)
Definition TimeClip (t : Z) : option Z :=
  if Z.abs t <=? 8640000000000000 then Some t else None.

(** [MakeDay(year, month, date)], [month] counted from 0 and of any size. *)
Definition MakeDay (year month date : Z) : Z :=
  let ym := year + month / 12 in
  let mn := month mod 12 in
  days_from_civil ym (mn + 1) 1 + date - 1.

Definition MakeTime (h mi s ms : Z) : Z :=
  h * msPerHour + mi * msPerMinute + s * msPerSecond + ms.

Definition MakeDate (day time : Z) : Z := day * msPerDay + time.

(** [Date.UTC(year, month, date, hours, minutes, seconds)]: a year from 0 to
    99 means 1900 + year. *)
Definition Date_UTC (year month date h mi s : Z) : option Z :=
  let yr := if (0 <=? year) && (year <=? 99) then 1900 + year else year in
  TimeClip (MakeDate (MakeDay yr month date) (MakeTime h mi s 0)).

(** The year of an ISO 8601 string as [toISOString] and Temporal print it:
    four digits from 0 to 9999, otherwise a sign and six digits. *)
Definition iso_year (y : Z) : string :=
  if (0 <=? y) && (y <=? 9999) then Str.fixed 4 y
  else String (if y <? 0 then "-"%char else "+"%char) (Str.fixed 6 (Z.abs y)).

Definition iso_date (ymd : Z * Z * Z) : string :=
  let '(y, m, d) := ymd in
  String.app (iso_year y)
    (String.app "-" (String.app (Str.fixed 2 m) (String.app "-" (Str.fixed 2 d)))).

(** The time of day of [toISOString]: [THH:mm:ss.sssZ]. *)
Definition iso_time (t : Z) : string :=
  let w := TimeWithinDay t in
  String.app "T" (String.app (Str.fixed 2 (w / msPerHour))
  (String.app ":" (String.app (Str.fixed 2 (w / msPerMinute mod 60))
  (String.app ":" (String.app (Str.fixed 2 (w / msPerSecond mod 60))
  (String.app "." (String.app (Str.fixed 3 (w mod msPerSecond)) "Z"))))))).

(** The canonical date key of the specification: four-digit year, two-digit
    month and day. *)
Definition yyyy_mm_dd (ymd : Z * Z * Z) : string :=
  let '(y, m, d) := ymd in
  String.app (Str.fixed 4 y)
    (String.app "-" (String.app (Str.fixed 2 m) (String.app "-" (Str.fixed 2 d)))).

End Time.

(** ** Date objects

    A [Date] with the two extra properties the parser attaches: [tz] (with
    its enumerability, which [attachTz] inspects) and [dateOnly]. *)

Record tzprop := { tz_value : string; tz_enumerable : bool }.

Record JsDate := {
  time : option Z;
  tz : option tzprop;
  dateOnly : bool;
}.

(** [new Date(ms)] *)
Definition new_Date (ms : Z) : JsDate :=
  {| time := Time.TimeClip ms; tz := None; dateOnly := false |}.

(** [date.tz] as a value: [undefined] when the property is absent. *)
Definition date_tz (d : JsDate) : option string := tz_value <$> tz d.

(** [date.toISOString()]: a [RangeError] on an invalid date. *)
Definition toISOString (d : JsDate) : res string :=
  match time d with
  | None => Throw (RangeError "Invalid time value")
  | Some t => Ret (String.app (Time.iso_date (Time.ymd_of_time t)) (Time.iso_time t))
  end.

(** ** The part of Temporal that the two modules call

    Temporal is a dependency, not code of the repository: these definitions
    follow the Temporal specification for the calls made by
    [parseDateTimeInZone] and [getDateKey].  A time zone is its offset
    history; offsets and instants are in milliseconds. *)

Module Temporal.

(** The offset before the first transition, then the transitions in
    ascending order: (instant of the change, offset from then on). *)
Record zoneinfo := {
  zi_initial : Z;
  zi_transitions : list (Z * Z);
}.

Definition fixed_zone (offset_ms : Z) : zoneinfo :=
  {| zi_initial := offset_ms; zi_transitions := [] |}.

Fixpoint offset_in (trans : list (Z * Z)) (cur : Z) (t : Z) : Z :=
  match trans with
  | [] => cur
  | (at_, off) :: rest => if at_ <=? t then offset_in rest off t else cur
  end.

(** [GetOffsetNanosecondsFor], in milliseconds. *)
Definition offset_at (zi : zoneinfo) (t : Z) : Z :=
  offset_in (zi_transitions zi) (zi_initial zi) t.

Definition all_offsets (zi : zoneinfo) : list Z :=
  zi_initial zi :: List.map snd (zi_transitions zi).

Fixpoint insert_sorted (x : Z) (l : list Z) : list Z :=
  match l with
  | [] => [x]
  | y :: l' =>
      if x <? y then x :: l
      else if x =? y then l
      else y :: insert_sorted x l'
  end.

(** [GetPossibleEpochNanoseconds]: every instant whose wall-clock reading in
    the zone is [w], in ascending order. *)
Definition possible_instants (zi : zoneinfo) (w : Z) : list Z :=
  fold_right insert_sorted []
    (List.filter (fun t => t + offset_at zi t =? w)
       (List.map (fun o => w - o) (all_offsets zi))).

(** [DisambiguatePossibleEpochNanoseconds] with [disambiguation: 'later']. *)
Definition disambiguate_later (zi : zoneinfo) (w : Z) : res Z :=
  match possible_instants zi w with
  | [t] => Ret t
  | t :: l => Ret (List.last l t)
  | [] =>
      let offsetBefore := offset_at zi (w - Time.msPerDay) in
      let offsetAfter := offset_at zi (w + Time.msPerDay) in
      let later := w + (offsetAfter - offsetBefore) in
      match possible_instants zi later with
      | [] => Throw (RangeError "no instant for the shifted wall time")
      | t :: l => Ret (List.last l t)
      end
  end.

(** Wall-clock fields. *)
Record fields := {
  year : Z; month : Z; day : Z; hour : Z; minute : Z; second : Z;
}.

Definition clamp (lo hi x : Z) : Z := Z.max lo (Z.min hi x).

(** [Temporal.PlainDateTime.from(fields)] with the default
    [overflow: 'constrain'], for non-negative integer fields: a month or day
    of 0 is a [RangeError]; larger values are clamped.  The result is the
    wall-clock reading as milliseconds since 1970-01-01T00:00 on the same
    clock. *)
Definition PlainDateTime_from (f : fields) : res Z :=
  if (month f <=? 0) || (day f <=? 0)
  then Throw (RangeError "month and day must be positive")
  else
    let m := clamp 1 12 (month f) in
    let d := clamp 1 (Time.days_in_month (year f) m) (day f) in
    Ret (Time.MakeDate (Time.days_from_civil (year f) m d)
           (Time.MakeTime (clamp 0 23 (hour f)) (clamp 0 59 (minute f))
              (clamp 0 59 (second f)) 0)).

(** A time-zone identifier that is a UTC offset: [+HH], [+HH:MM] or [+HHMM]
    with HH up to 23 and MM up to 59. *)
Definition offset_id_re : Regex.regex :=
  Regex.seq [Regex.Grp 1 (Regex.Alt (Regex.lit "+") (Regex.lit "-"));
             Regex.Grp 2 Regex.digits2;
             Regex.Opt (Regex.Cat (Regex.Opt (Regex.lit ":")) (Regex.Grp 3 Regex.digits2));
             Regex.Eos].

Definition parse_offset_id (id : string) : option Z :=
  match Regex.exec_at offset_id_re id with
  | None => None
  | Some m =>
      let h := Str.number (default "" (Regex.group 2 m)) in
      let mi := Str.number (default "" (Regex.group 3 m)) in
      if (h <=? 23) && (mi <=? 59)
      then
        let total := (h * 60 + mi) * Time.msPerMinute in
        Some (if String.eqb (default "" (Regex.group 1 m)) "-" then - total else total)
      else None
  end.

(** The zone named by an identifier: an offset identifier, or a name of the
    time-zone database [tzdb]. *)
Definition zone_of_id (tzdb : string -> option zoneinfo) (id : string)
    : res zoneinfo :=
  match parse_offset_id id with
  | Some off => Ret (fixed_zone off)
  | None =>
      match tzdb id with
      | Some zi => Ret zi
      | None => Throw (RangeError (String.app "Invalid time zone: " id))
      end
  end.

(** [PlainDateTime.from(f).toZonedDateTime(id, {disambiguation: 'later'})
    .epochMilliseconds] *)
Definition toZonedDateTime_later (tzdb : string -> option zoneinfo)
    (f : fields) (id : string) : res Z :=
  res_bind (PlainDateTime_from f) (fun w =>
  res_bind (zone_of_id tzdb id) (fun zi =>
  disambiguate_later zi w)).

(** [Temporal.Instant.fromEpochMilliseconds(t).toZonedDateTimeISO(id)
    .toPlainDate().toString()] *)
Definition zoned_date_string (tzdb : string -> option zoneinfo)
    (t : option Z) (id : string) : res string :=
  match t with
  | None => Throw (RangeError "epoch milliseconds must be an integer")
  | Some ms =>
      res_bind (zone_of_id tzdb id) (fun zi =>
      Ret (Time.iso_date (Time.ymd_of_time (ms + offset_at zi ms))))
  end.

End Temporal.

(** ** tz-utils.js *)

(** What the module takes from its runtime: the table [windowsZones.json]
    (each Windows label with its list of IANA names, in file order), the
    zones [Intl.DateTimeFormat] accepts, the zone database Temporal reads,
    the host's zone name and the host's local offset (in milliseconds, as a
    function of the UTC time value). *)
Record host := {
  windowsZones : list (string * list string);
  intl_supports : string -> bool;
  tzdb : string -> option Temporal.zoneinfo;
  hostZone : string;
  localTZA : Z -> Z;
}.

Inductive warning : Type :=
| WarnUnresolved (tzid : string)
| WarnFailed (tzid : string) (msg : string).

(** The module-level state: [aliasMap], [validIanaCache] and the console. *)
Record tzstate := {
  aliasMap : gmap string string;
  validIanaCache : gmap string bool;
  console : list warning;
}.

Definition M (A : Type) : Type := tzstate -> res A * tzstate.

Definition ret {A} (a : A) : M A := fun st => (Ret a, st).
Definition throw {A} (e : error) : M A := fun st => (Throw e, st).
Definition bind {A B} (m : M A) (k : A -> M B) : M B :=
  fun st =>
    match m st with
    | (Ret a, st') => k a st'
    | (Throw e, st') => (Throw e, st')
    end.
Definition lift {A} (r : res A) : M A := fun st => (r, st).
Definition try_catch {A} (m : M A) (handler : error -> M A) : M A :=
  fun st =>
    match m st with
    | (Ret a, st') => (Ret a, st')
    | (Throw e, st') => handler e st'
    end.
Definition get_state : M tzstate := fun st => (Ret st, st).
Definition cache_set (k : string) (v : bool) : M unit :=
  fun st => (Ret tt, {| aliasMap := aliasMap st;
                        validIanaCache := <[k := v]> (validIanaCache st);
                        console := console st |}).
Definition alias_set (k v : string) : M unit :=
  fun st => (Ret tt, {| aliasMap := <[k := v]> (aliasMap st);
                        validIanaCache := validIanaCache st;
                        console := console st |}).
Definition console_warn (w : warning) : M unit :=
  fun st => (Ret tt, {| aliasMap := aliasMap st;
                        validIanaCache := validIanaCache st;
                        console := console st ++ [w] |}).

Notation "'let!' x ':=' m 'in' k" := (bind m (fun x => k))
  (at level 10, x pattern, m at level 100, k at level 200).

Definition error_message (e : error) : string :=
  match e with TypeError m => m | RangeError m => m end.

(** A JavaScript value, as far as [typeof] tells values apart. *)
Inductive jsval : Type :=
| JUndefined
| JNull
| JBoolean (b : bool)
| JNumber (n : Z)
| JString (s : string)
| JObject.

Module TzUtils.

Definition dquote : ascii := Chars.of_code 34.

(** [label.replaceAll(/\s+/g, ' ')] *)
Fixpoint collapse_spaces (in_run : bool) (s : string) : string :=
  match s with
  | EmptyString => EmptyString
  | String c s' =>
      if Chars.is_space c
      then (if in_run then collapse_spaces true s'
            else String " " (collapse_spaces true s'))
      else String c (collapse_spaces false s')
  end.

Definition normalizeWindowsLabel (label : string) : string :=
  Str.toLowerCase (Str.trim (collapse_spaces false label)).

(** [/^\(utc[^)]*\)\s*/i] and [/^\(gmt[^)]*\)\s*/i] *)
Definition paren_label_re (a b c : ascii) : Regex.regex :=
  Regex.seq [Regex.lit "("; Regex.lit_i a; Regex.lit_i b; Regex.lit_i c;
             Regex.Star (fun x => negb (Chars.chr ")" x)); Regex.lit ")";
             Regex.Star Chars.is_space].

Definition addVariant (label : string) (data : list string)
    (index : gmap string (list string)) : gmap string (list string) :=
  let normalized := normalizeWindowsLabel label in
  if negb (Str.truthy normalized) || bool_decide (is_Some (index !! normalized))
  then index
  else <[normalized := data]> index.

Definition buildWindowsLabelIndex (source : list (string * list string))
    : gmap string (list string) :=
  fold_left (fun index entry =>
    let '(label, data) := entry in
    let index := addVariant label data index in
    let withoutOffset :=
      Regex.strip_prefix (paren_label_re "g" "m" "t")
        (Regex.strip_prefix (paren_label_re "u" "t" "c") label) in
    if negb (String.eqb withoutOffset label)
    then
      let index := addVariant withoutOffset data index in
      if Str.includes_char "," withoutOffset
      then fold_left (fun index segment => addVariant segment data index)
             (Str.split "," withoutOffset) index
      else index
    else index) source ∅.

(** [windowsZones[label]] *)
Fixpoint table_lookup (label : string) (t : list (string * list string))
    : option (list string) :=
  match t with
  | [] => None
  | (k, v) :: t' => if String.eqb k label then Some v else table_lookup label t'
  end.

(** [entry && Array.isArray(entry.iana) && entry.iana.length > 0 ?
    entry.iana[0] : nothing] *)
Definition first_iana (entry : option (list string)) : option string :=
  match entry with
  | Some (z :: _) => Some z
  | _ => None
  end.

Fixpoint first_segment_hit (index : gmap string (list string))
    (segments : list string) : option string :=
  match segments with
  | [] => None
  | segment :: rest =>
      match first_iana (index !! normalizeWindowsLabel segment) with
      | Some z => Some z
      | None => first_segment_hit index rest
      end
  end.

Definition mapWindowsZone (h : host) (label : string) : option string :=
  match first_iana (table_lookup label (windowsZones h)) with
  | Some z => Some z
  | None =>
      let windowsLabelIndex := buildWindowsLabelIndex (windowsZones h) in
      match first_iana (windowsLabelIndex !! normalizeWindowsLabel label) with
      | Some z => Some z
      | None =>
          if Str.includes_char "," label
          then first_segment_hit windowsLabelIndex (Str.split "," label)
          else None
      end
  end.

Definition pad2 (value : Z) : string := Str.padStart0 2 (Str.of_Z value).

(** [/^\(?(?:utc|gmt)\)?\s*/i] *)
Definition utc_prefix_re : Regex.regex :=
  Regex.seq [Regex.Opt (Regex.lit "(");
             Regex.Alt (Regex.seq [Regex.lit_i "u"; Regex.lit_i "t"; Regex.lit_i "c"])
                       (Regex.seq [Regex.lit_i "g"; Regex.lit_i "m"; Regex.lit_i "t"]);
             Regex.Opt (Regex.lit ")");
             Regex.Star Chars.is_space].

(** [/\)$/] *)
Definition close_paren_end_re : Regex.regex :=
  Regex.Cat (Regex.lit ")") Regex.Eos.

(** [/^([+-])(\d{1,2})(?::?(\d{2}))?$/] *)
Definition offset_re : Regex.regex :=
  Regex.seq [Regex.Grp 1 (Regex.Alt (Regex.lit "+") (Regex.lit "-"));
             Regex.Grp 2 (Regex.Cat Regex.digit (Regex.Opt Regex.digit));
             Regex.Opt (Regex.Cat (Regex.Opt (Regex.lit ":")) (Regex.Grp 3 Regex.digits2));
             Regex.Eos].

(** The text the offset pattern is applied to: [trimmed] in the source. *)
Definition offset_trimmed (offset : string) : string :=
  Str.trim (Regex.strip_first close_paren_end_re
             (Regex.strip_prefix utc_prefix_re (Str.trim offset))).

Definition offsetLabelToMinutes (offset : string) : option Z :=
  if negb (Str.truthy offset) then None
  else
    match Regex.exec_at offset_re (offset_trimmed offset) with
    | None => None
    | Some m =>
        let sign := default "" (Regex.group 1 m) in
        let hours := Str.number (default "" (Regex.group 2 m)) in
        let minutes :=
          match Regex.group 3 m with
          | Some minutesPart =>
              if Str.truthy minutesPart then Str.number minutesPart else 0
          | None => 0
          end in
        if 60 <=? minutes then None
        else if (14 <? hours) || ((hours =? 14) && negb (minutes =? 0)) then None
        else
          let total := hours * 60 + minutes in
          Some (if String.eqb sign "-" then - total else total)
    end.

Definition minutesToOffset (totalMinutes : option Z) : option string :=
  match totalMinutes with
  | None => None
  | Some totalMinutes =>
      let sign := if totalMinutes <? 0 then "-" else "+" in
      let absolute := Z.abs totalMinutes in
      let hours := absolute / 60 in
      let minutes := absolute mod 60 in
      Some (String.app sign (String.app (pad2 hours) (String.app ":" (pad2 minutes))))
  end.

Definition minutesToEtcZone (totalMinutes : option Z) : option string :=
  match totalMinutes with
  | None => None
  | Some totalMinutes =>
      if totalMinutes =? 0 then Some "Etc/GMT"
      else if negb (Z.rem totalMinutes 60 =? 0) then None
      else
        let hours := Z.abs totalMinutes / 60 in
        let sign := if 0 <? totalMinutes then "-" else "+" in
        Some (String.app "Etc/GMT" (String.app sign (Str.of_Z hours)))
  end.


Definition resolveZone (zone : string) : M string :=
  if negb (Str.truthy zone) then ret zone
  else
    let! st := get_state in
    match aliasMap st !! zone with
    | Some a => if Str.truthy a then ret a else ret zone
    | None => ret zone
    end.

Definition guessLocalZone (h : host) : string := hostZone h.

(** [new Intl.DateTimeFormat('en-US', {timeZone: tz}).format(new Date(0))]:
    a [RangeError] for a zone the runtime does not know. *)
Definition intl_format (h : host) (tz : string) : M unit :=
  if intl_supports h tz then ret tt
  else throw (RangeError (String.app "Invalid time zone specified: " tz)).

Definition isValidIana (h : host) (zone : string) : M bool :=
  if negb (Str.truthy zone) then ret false
  else
    let! tz := resolveZone zone in
    if negb (Str.truthy tz) then ret false
    else
      let! st := get_state in
      match validIanaCache st !! tz with
      | Some known => ret known
      | None =>
          try_catch
            (let! _ := intl_format h tz in
             let! _ := cache_set tz true in
             ret true)
            (fun _ =>
             let! _ := cache_set tz false in
             ret false)
      end.

Definition findExactZoneMatch (h : host) (tz : option string)
    : M (option string) :=
  match tz with
  | None => ret None
  | Some tz =>
      if negb (Str.truthy tz) then ret None
      else
        let! z := resolveZone tz in
        let! ok := isValidIana h z in
        ret (if ok then Some z else None)
  end.

(** The structured result of [resolveTZID]. *)
Record tzinfo := {
  original : option string;
  iana : option string;
  offset : option string;
  offsetMinutes : option Z;
  etc : option string;
}.

(** The pattern of [resolveTZID] for a TZID in double quotes: a quote at the
    start, a greedy run of characters other than line terminators (group 1),
    a quote, the end. *)
Definition quoted_re : Regex.regex :=
  Regex.seq [Regex.lit dquote;
             Regex.Grp 1 (Regex.Star (fun x => negb (Chars.is_line_terminator x)));
             Regex.lit dquote; Regex.Eos].

(** [tz.replace(quoted, '$1')]: the text between the surrounding quotes. *)
Definition unquote (tz : string) : string :=
  match Regex.exec_at quoted_re tz with
  | Some m => default "" (Regex.group 1 m)
  | None => tz
  end.

(** [/([+-]\d{1,2}:\d{2})/] *)
Definition embedded_offset_re : Regex.regex :=
  Regex.Grp 1 (Regex.seq [Regex.Alt (Regex.lit "+") (Regex.lit "-");
                          Regex.digit; Regex.Opt Regex.digit;
                          Regex.lit ":"; Regex.digits2]).

(** [s && string] as an option: the empty string and [null] are falsy. *)
Definition truthy_opt (s : option string) : option string :=
  match s with
  | Some x => if Str.truthy x then Some x else None
  | None => None
  end.

Definition resolveTZID (h : host) (value : jsval) : M tzinfo :=
  match value with
  | JString value =>
      if negb (Str.truthy value)
      then ret {| original := None; iana := None; offset := None;
                  offsetMinutes := None; etc := None |}
      else
        let tz := value in
        let tz :=
          if String.eqb tz "tzone://Microsoft/Custom"
             || Str.startsWith "Customized Time Zone" tz
             || Str.startsWith "tzone://Microsoft/" tz
          then guessLocalZone h else tz in
        let tz := unquote tz in
        let original := tz in
        let tz :=
          if Str.truthy tz && (Str.includes_char " " tz || Str.includes_char "," tz)
          then match truthy_opt (mapWindowsZone h tz) with
               | Some mapped => mapped
               | None => tz
               end
          else tz in
        let '(offsetMinutes, tz) :=
          if Str.truthy tz && Str.startsWith "(" tz
          then (match Regex.search embedded_offset_re tz with
                | Some (_, offsetMatch) =>
                    offsetLabelToMinutes (default "" (Regex.group 1 offsetMatch))
                | None => None
                end, None)
          else (None, Some tz) in
        let '(offsetMinutes, tz) :=
          match offsetMinutes, truthy_opt tz with
          | None, Some tz' =>
              match offsetLabelToMinutes tz' with
              | Some mins => (Some mins, None)
              | None => (offsetMinutes, tz)
              end
          | _, _ => (offsetMinutes, tz)
          end in
        let! exact := findExactZoneMatch h tz in
        let! iana :=
          match exact with
          | Some z => ret (Some z)
          | None =>
              match truthy_opt tz with
              | Some tz' =>
                  let! ok := isValidIana h tz' in
                  ret (if ok then Some tz' else None)
              | None => ret None
              end
          end in
        let offset := minutesToOffset offsetMinutes in
        let etc := minutesToEtcZone offsetMinutes in
        ret {| original := Some original; iana := iana; offset := offset;
               offsetMinutes := offsetMinutes; etc := etc |}
  | _ =>
      ret {| original := None; iana := None; offset := None;
             offsetMinutes := None; etc := None |}
  end.

Definition attachTz (date : JsDate) (tzid : option string) : JsDate :=
  match truthy_opt tzid with
  | None => date
  | Some tzid =>
      let hasSameValue := bool_decide (date_tz date = Some tzid) in
      let isEnumerable :=
        match tz date with Some p => tz_enumerable p | None => false end in
      if negb hasSameValue || isEnumerable
      then {| time := time date;
              tz := Some {| tz_value := tzid; tz_enumerable := false |};
              dateOnly := dateOnly date |}
      else date
  end.

(** [/^(\d{4})-(\d{2})-(\d{2})[ T](\d{2}):(\d{2})(?::(\d{2}))?$/] *)
Definition extended_re : Regex.regex :=
  Regex.seq [Regex.Grp 1 Regex.digits4; Regex.lit "-"; Regex.Grp 2 Regex.digits2;
             Regex.lit "-"; Regex.Grp 3 Regex.digits2;
             Regex.Cls (fun x => Chars.chr " " x || Chars.chr "T" x);
             Regex.Grp 4 Regex.digits2; Regex.lit ":"; Regex.Grp 5 Regex.digits2;
             Regex.Opt (Regex.Cat (Regex.lit ":") (Regex.Grp 6 Regex.digits2));
             Regex.Eos].

(** [/^(\d{4})(\d{2})(\d{2})T(\d{2})(\d{2})(\d{2})?$/] *)
Definition basic_re : Regex.regex :=
  Regex.seq [Regex.Grp 1 Regex.digits4; Regex.Grp 2 Regex.digits2;
             Regex.Grp 3 Regex.digits2; Regex.lit "T";
             Regex.Grp 4 Regex.digits2; Regex.Grp 5 Regex.digits2;
             Regex.Opt (Regex.Grp 6 Regex.digits2);
             Regex.Eos].

(** [Number(m[i])], and [Number(m[6] || 0)] for the optional seconds. *)
Definition num_group (i : nat) (m : Regex.rmatch_result) : Z :=
  match truthy_opt (Regex.group i m) with
  | Some s => Str.number s
  | None => 0
  end.

Definition fields_of_match (m : Regex.rmatch_result) : Temporal.fields :=
  {| Temporal.year := num_group 1 m; Temporal.month := num_group 2 m;
     Temporal.day := num_group 3 m; Temporal.hour := num_group 4 m;
     Temporal.minute := num_group 5 m; Temporal.second := num_group 6 m |}.

Definition parseDateTimeInZone (h : host) (yyyymmddThhmmss : string)
    (zone : string) : M (option JsDate) :=
  let s := yyyymmddThhmmss in
  let fields :=
    match Regex.exec_at extended_re s with
    | Some m => Some (fields_of_match m)
    | None =>
        match Regex.exec_at basic_re s with
        | Some m => Some (fields_of_match m)
        | None => None
        end
    end in
  match fields with
  | None => ret None
  | Some fields =>
      let! tz := resolveZone zone in
      let! ok := isValidIana h tz in
      if negb ok then ret None
      else
        let! epochMs := lift (Temporal.toZonedDateTime_later (tzdb h) fields tz) in
        ret (Some (attachTz (new_Date epochMs) (Some zone)))
  end.

Definition parseWithOffset (yyyymmddThhmmss : string) (offset : string)
    : M (option JsDate) :=
  let s := yyyymmddThhmmss in
  let m :=
    match Regex.exec_at basic_re s with
    | Some m => Some m
    | None => Regex.exec_at extended_re s
    end in
  match m with
  | None => ret None
  | Some m =>
      let f := fields_of_match m in
      match offsetLabelToMinutes offset with
      | None => throw (TypeError (String.app "Invalid offset string: " offset))
      | Some totalMinutes =>
          let utcMs :=
            u ← Time.Date_UTC (Temporal.year f) (Temporal.month f - 1)
                  (Temporal.day f) (Temporal.hour f) (Temporal.minute f)
                  (Temporal.second f);
            Some (u - totalMinutes * 60000) in
          let normalizedOffset := minutesToOffset (Some totalMinutes) in
          ret (Some (attachTz
                       {| time := utcMs ≫= Time.TimeClip; tz := None;
                          dateOnly := false |}
                       normalizedOffset))
      end
  end.

(** [linkAlias(arg1, arg2)] with both arguments, and [linkAlias('a|b')]. *)
Definition linkAlias2 (arg1 arg2 : string) : M unit := alias_set arg1 arg2.

Definition linkAlias1 (arg1 : string) : M unit :=
  match Str.split "|" arg1 with
  | a :: b :: _ =>
      if Str.truthy a && Str.truthy b then alias_set a b else ret tt
  | _ => ret tt
  end.

End TzUtils.

(** ** lib/date-utils.js *)

Module DateUtils.

(** [getFullYear()], [getMonth() + 1] and [getDate()]: the calendar fields of
    the host's local time; [NaN] on an invalid date. *)
Definition local_ymd (h : host) (d : JsDate) : option (Z * Z * Z) :=
  t ← time d; Some (Time.ymd_of_time (t + localTZA h t)).

(** [String(n)] for a number that may be [NaN]. *)
Definition string_of_num (n : option Z) : string :=
  match n with
  | Some n => Str.of_Z n
  | None => "NaN"
  end.

Definition getDateKey (h : host) (dateValue : JsDate) : M string :=
  if dateOnly dateValue
  then
    let f := local_ymd h dateValue in
    ret (String.app (string_of_num ((fun '(y, _, _) => y) <$> f))
        (String.app "-"
        (String.app (Str.padStart0 2 (string_of_num ((fun '(_, m, _) => m) <$> f)))
        (String.app "-"
                    (Str.padStart0 2 (string_of_num ((fun '(_, _, d) => d) <$> f)))))))
  else
    let! zoned :=
      match TzUtils.truthy_opt (date_tz dateValue) with
      | Some tzid =>
          try_catch
            (let! resolved := TzUtils.resolveTZID h (JString tzid) in
             let tzId :=
               match TzUtils.truthy_opt (TzUtils.iana resolved) with
               | Some z => Some z
               | None => TzUtils.truthy_opt (TzUtils.offset resolved)
               end in
             let! _ :=
               match tzId with
               | None => console_warn (WarnUnresolved tzid)
               | Some _ => ret tt
               end in
             match tzId with
             | Some tzId =>
                 let! key := lift (Temporal.zoned_date_string (tzdb h)
                                     (time dateValue) tzId) in
                 ret (Some key)
             | None => ret None
             end)
            (fun error =>
             let! _ := console_warn (WarnFailed tzid (error_message error)) in
             ret None)
      | None => ret None
      end in
    match zoned with
    | Some key => ret key
    | None =>
        let! iso := lift (toISOString dateValue) in
        ret (Str.slice0 10 iso)
    end.

End DateUtils.

(** ** tz-utils.js: the remaining exports *)

Module TzUtilsMore.
Import TzUtils.

(** A value that may or may not be a [Date]: what [instanceof Date] tells
    apart. *)
Inductive datelike : Type :=
| NotADate (v : jsval)
| ADate (d : JsDate).

(** [Temporal.Instant.fromEpochMilliseconds(t).toZonedDateTimeISO(id)]: the
    wall-clock fields of the instant in the zone (from the Temporal
    specification, as the definitions of [Temporal] above). *)
Definition zoned_fields (tzdb : string -> option Temporal.zoneinfo)
    (t : option Z) (id : string) : res Temporal.fields :=
  match t with
  | None => Throw (RangeError "epoch milliseconds must be an integer")
  | Some ms =>
      res_bind (Temporal.zone_of_id tzdb id) (fun zi =>
      let wall := ms + Temporal.offset_at zi ms in
      let '(y, m, d) := Time.ymd_of_time wall in
      let w := Time.TimeWithinDay wall in
      Ret {| Temporal.year := y; Temporal.month := m; Temporal.day := d;
             Temporal.hour := w / Time.msPerHour;
             Temporal.minute := w / Time.msPerMinute mod 60;
             Temporal.second := w / Time.msPerSecond mod 60 |})
  end.

(** The second argument is read through its [iana] and [offsetMinutes]
    properties only; the descriptor of [resolveTZID] is the intended
    argument. *)
Definition formatDateForRrule (h : host) (date : datelike) (tzInfo : tzinfo)
    : M (option string) :=
  match date with
  | NotADate _ => ret None
  | ADate date =>
      match time date with
      | None => ret None
      | Some _ =>
          let fromMinutes :=
            match offsetMinutes tzInfo with
            | Some m => minutesToOffset (Some m)
            | None => None
            end in
          let! tzId :=
            match truthy_opt (iana tzInfo) with
            | Some z =>
                let! ok := isValidIana h z in
                ret (if ok then Some z else fromMinutes)
            | None => ret fromMinutes
            end in
          match truthy_opt tzId with
          | None => ret None
          | Some tzId =>
              let! f := lift (zoned_fields (tzdb h) (time date) tzId) in
              ret (Some
                (String.app (Str.of_Z (Temporal.year f))
                (String.app (pad2 (Temporal.month f))
                (String.app (pad2 (Temporal.day f))
                (String.app "T"
                (String.app (pad2 (Temporal.hour f))
                (String.app (pad2 (Temporal.minute f))
                            (pad2 (Temporal.second f)))))))))
          end
      end
  end.

(** The outcome of a function that throws a plain [Error]. *)
Inductive outcome (A : Type) : Type :=
| Returned (a : A)
| ThrownError (msg : string).
Arguments Returned {A} a.
Arguments ThrownError {A} msg.

(** The property names every object inherits from [Object.prototype]. *)
Definition object_prototype_keys : list string :=
  ["constructor"; "__defineGetter__"; "__defineSetter__"; "hasOwnProperty";
   "__lookupGetter__"; "__lookupSetter__"; "isPrototypeOf";
   "propertyIsEnumerable"; "toString"; "valueOf"; "__proto__";
   "toLocaleString"].

(** [msPer[unit]]: the number of milliseconds of one of the five units; for
    an inherited property name a function or object ([Some None]: truthy,
    and not a number in the product); otherwise [undefined]. *)
Definition msPer (unit : string) : option (option Z) :=
  if String.eqb unit "weeks" then Some (Some (7 * 24 * 60 * 60 * 1000))
  else if String.eqb unit "days" then Some (Some (24 * 60 * 60 * 1000))
  else if String.eqb unit "hours" then Some (Some (60 * 60 * 1000))
  else if String.eqb unit "minutes" then Some (Some (60 * 1000))
  else if String.eqb unit "seconds" then Some (Some 1000)
  else if bool_decide (unit ∈ object_prototype_keys) then Some None
  else None.

Definition utcAdd (date : datelike) (amount : Z) (unit : string)
    : outcome (option JsDate) :=
  match date with
  | NotADate _ => Returned None
  | ADate date =>
      match msPer unit with
      | None => ThrownError (String.app "Unsupported unit: " unit)
      | Some factor =>
          Returned (Some
            {| time := t ← time date; f ← factor; Time.TimeClip (t + amount * f);
               tz := None; dateOnly := false |})
      end
  end.

Definition isUtcTimezone (tz : option string) : bool :=
  match truthy_opt tz with
  | None => false
  | Some tz =>
      let tzLower := Str.toLowerCase tz in
      String.eqb tzLower "etc/utc" || String.eqb tzLower "utc"
      || String.eqb tzLower "etc/gmt"
  end.

End TzUtilsMore.

(** ** The expansion engine

    Modelled from the spec: [expandRecurringEvent] lives in [node-ical.js],
    which is not among the sources; only its tests are.  The definitions
    below follow section 4.5 of the specification step by step (input
    validation, candidates, EXDATE test, override substitution, end time,
    window filter, stable sort), with [getDateKey] and [toISOString] taken
    from the code above; [exdate] and [recurrences] are both probed by date
    key and by full ISO timestamp, as section 4.3 requires.  The whole-day normalisation paragraph of the
    specification gives no algorithm and is not part of the model: whole-day
    candidates are taken as the rule iterator delivers them. *)

Module Expand.

Inductive datetype : Type := DateType | DateTimeType.

(** The fields shared by an event and by an override event. *)
Record EventBody := {
  uid : string;
  summary : string;
  start : JsDate;
  end_ : option JsDate;
  duration : option Z;
  datetype_ : option datetype;
}.

(** The recurrence rule iterator: [between(from, to)]. *)
Record Rule := { between : Z -> Z -> list JsDate }.

Record Event := {
  base : EventBody;
  rrule : option Rule;
  exdate : gmap string unit;
  recurrences : gmap string EventBody;
}.

(** An argument that should be a [Date]. *)
Inductive datearg : Type :=
| ArgOther (v : jsval)
| ArgDate (d : JsDate).

Record Request := {
  from : datearg;
  to : datearg;
  excludeExdates : option bool;
  includeOverrides : option bool;
  expandOngoing : option bool;
}.

Record Instance := {
  i_start : JsDate;
  i_end : JsDate;
  i_summary : string;
  isFullDay : bool;
  isRecurring : bool;
  isOverride : bool;
  i_event : EventBody;
}.

Definition opt_excludeExdates (r : Request) : bool := default true (excludeExdates r).
Definition opt_includeOverrides (r : Request) : bool := default true (includeOverrides r).
Definition opt_expandOngoing (r : Request) : bool := default false (expandOngoing r).

(** A valid instant: a [Date] whose time value is not [NaN]. *)
Definition valid_instant (a : datearg) : option Z :=
  match a with
  | ArgDate d => time d
  | ArgOther _ => None
  end.

(** Modelled from the spec: input validation of [expandRecurringEvent]
    (section 4.5 and the error table of section 7); the window as two time
    values. *)
Definition validate (r : Request) : res (Z * Z) :=
  match valid_instant (from r), valid_instant (to r) with
  | Some f, Some t =>
      if t <? f
      then Throw (RangeError "options.from must be before or equal to options.to")
      else Ret (f, t)
  | None, _ => Throw (TypeError "options.from must be a valid Date object")
  | _, None => Throw (TypeError "options.to must be a valid Date object")
  end.

Definition whole_day (ev : Event) : bool :=
  match datetype_ (base ev) with
  | Some DateType => true
  | _ => dateOnly (start (base ev))
  end.

(** Comparison of time values; anything compared with [NaN] is false. *)
Definition time_le (a b : option Z) : bool :=
  match a, b with
  | Some x, Some y => x <=? y
  | _, _ => false
  end.

Definition time_add (a : option Z) (ms : option Z) : option Z :=
  x ← a; y ← ms; Time.TimeClip (x + y).

Definition time_sub (a b : option Z) : option Z :=
  x ← a; y ← b; Some (x - y).

(** Modelled from the spec: step 1 of [expandRecurringEvent], the widening of
    [from] by the base duration. *)
Definition widening (ev : Event) : Z :=
  if whole_day ev then Time.msPerDay
  else
    match end_ (base ev) with
    | Some e => default 0 (time_sub (time e) (time (start (base ev))))
    | None => 0
    end.

(** Modelled from the spec: step 1 of [expandRecurringEvent], the candidate
    instants: the rule iterator over the widened window, or the event's own
    start. *)
Definition candidates (ev : Event) (f t : Z) : list JsDate :=
  match rrule ev with
  | Some rule => between rule (f - widening ev) t
  | None => [start (base ev)]
  end.

(** Modelled from the spec: step 2b of [expandRecurringEvent], the EXDATE
    test on a candidate, by date key or by full ISO timestamp. *)
Definition excluded (ev : Event) (key iso : string) : bool :=
  bool_decide (is_Some (exdate ev !! key))
  || bool_decide (is_Some (exdate ev !! iso)).

(** Modelled from the spec: step 2c of [expandRecurringEvent] for a candidate
    without override: the candidate with the metadata of the event's
    start. *)
Definition inherit_metadata (ev : Event) (c : JsDate) : JsDate :=
  {| time := time c; tz := tz (start (base ev));
     dateOnly := dateOnly (start (base ev)) |}.

(** Modelled from the spec: step 2d of [expandRecurringEvent], the end
    computed from the start. *)
Definition computed_end (ev : Event) (st : JsDate) : JsDate :=
  let meta := default st (end_ (base ev)) in
  let span :=
    match duration (base ev) with
    | Some d => Some d
    | None =>
        match end_ (base ev) with
        | Some e => time_sub (time e) (time (start (base ev)))
        | None => if dateOnly st then Some Time.msPerDay else Some 0
        end
    end in
  {| time := time_add (time st) span; tz := tz meta; dateOnly := dateOnly meta |}.

(** Modelled from the spec: step 2e of [expandRecurringEvent], the window
    filter. *)
Definition in_window (ongoing : bool) (f t : Z) (st en : JsDate) : bool :=
  if ongoing
  then time_le (time st) (Some t) && time_le (Some f) (time en)
  else time_le (Some f) (time st) && time_le (time st) (Some t).

(** Modelled from the spec: the probe of [recurrences] for a candidate
    (section 4.3, additional recognition on lookup, and step 2c of
    [expandRecurringEvent]): a match by date key, or else by full ISO
    timestamp, as for [exdate]. *)
Definition override_for (ev : Event) (key iso : string) : option EventBody :=
  match recurrences ev !! key with
  | Some ov => Some ov
  | None => recurrences ev !! iso
  end.

(** Modelled from the spec: steps 2c and 2d of [expandRecurringEvent], the
    instance of a candidate with date key [key] and ISO timestamp [iso],
    before the window filter. *)
Definition build_instance (ev : Event) (r : Request) (key iso : string)
    (c : JsDate) : Instance :=
  let override :=
    if opt_includeOverrides r then override_for ev key iso else None in
  match override with
  | Some ov =>
      {| i_start := start ov;
         i_end := default (computed_end ev (start ov)) (end_ ov);
         i_summary := summary ov;
         isFullDay := whole_day ev;
         isRecurring := bool_decide (is_Some (rrule ev));
         isOverride := true;
         i_event := ov |}
  | None =>
      let st := inherit_metadata ev c in
      {| i_start := st;
         i_end := computed_end ev st;
         i_summary := summary (base ev);
         isFullDay := whole_day ev;
         isRecurring := bool_decide (is_Some (rrule ev));
         isOverride := false;
         i_event := base ev |}
  end.

(** Modelled from the spec: steps 2a to 2f of [expandRecurringEvent] for one
    candidate: the instance it yields, if any. *)
Definition process_candidate (h : host) (ev : Event) (r : Request)
    (f t : Z) (c : JsDate) : M (option Instance) :=
  let! key := DateUtils.getDateKey h c in
  let! iso := lift (toISOString c) in
  if opt_excludeExdates r && excluded ev key iso then ret None
  else
    let inst := build_instance ev r key iso c in
    if in_window (opt_expandOngoing r) f t (i_start inst) (i_end inst)
    then ret (Some inst)
    else ret None.

(** Modelled from the spec: the loop of step 2 of [expandRecurringEvent]; the
    candidates in order, each with what it yields. *)
Fixpoint process_all (h : host) (ev : Event) (r : Request) (f t : Z)
    (cs : list JsDate) : M (list (JsDate * option Instance)) :=
  match cs with
  | [] => ret []
  | c :: cs' =>
      let! i := process_candidate h ev r f t c in
      let! rest := process_all h ev r f t cs' in
      ret ((c, i) :: rest)
  end.

(** Modelled from the spec: step 3 of [expandRecurringEvent], a stable sort by
    start (an instance goes before the first one that does not start
    earlier, and the list is built from its end). *)
Fixpoint insert_by_start (x : Instance) (l : list Instance) : list Instance :=
  match l with
  | [] => [x]
  | y :: l' =>
      if time_le (time (i_start x)) (time (i_start y))
      then x :: l
      else y :: insert_by_start x l'
  end.

Definition sort_by_start (l : list Instance) : list Instance :=
  fold_right insert_by_start [] l.

Definition emitted (l : list (JsDate * option Instance)) : list Instance :=
  omap snd l.

(** Modelled from the spec: steps 1 to 3 of [expandRecurringEvent] over a
    validated window. *)
Definition expand_window (h : host) (ev : Event) (r : Request) (f t : Z)
    : M (list Instance) :=
  let! l := process_all h ev r f t (candidates ev f t) in
  ret (sort_by_start (emitted l)).

(** Modelled from the spec: [expandRecurringEvent(event, options)] of
    [node-ical.js], which is not among the sources. *)
Definition expand (h : host) (ev : Event) (r : Request) : M (list Instance) :=
  let! window := lift (validate r) in
  expand_window h ev r (fst window) (snd window).

End Expand.

(** ** Vocabulary of the statements *)

Module Shapes.

Fixpoint all_digits (s : string) : bool :=
  match s with
  | EmptyString => true
  | String c s' => Chars.is_digit c && all_digits s'
  end.

(** A run of exactly [n] decimal digits. *)
Definition digits (n : nat) (s : string) : Prop :=
  String.length s = n ∧ all_digits s = true.

Definition is_sign (c : ascii) : bool := Chars.chr "+" c || Chars.chr "-" c.

Definition sign_of (c : ascii) : Z := if Chars.chr "-" c then -1 else 1.

Definition str1 (a : ascii) : string := String a EmptyString.
Definition str2 (a b : ascii) : string := String a (String b EmptyString).

(** The offset labels [offsetLabelToMinutes] reads, once the prefix and the
    parentheses are gone: a sign, one or two hour digits and, optionally, two
    minute digits with or without a colon.  [OffsetShape t sg h m]: the text
    [t] is such a label with sign [sg] (1 or -1), hours [h], minutes [m]. *)
Inductive OffsetShape : string -> Z -> Z -> Z -> Prop :=
| Shape_hours sg hs :
    is_sign sg = true -> (digits 1 hs ∨ digits 2 hs) ->
    OffsetShape (String sg hs) (sign_of sg) (Str.number hs) 0
| Shape_hours_minutes sg hs colon ms :
    is_sign sg = true -> (digits 1 hs ∨ digits 2 hs) ->
    (colon = "" ∨ colon = ":") -> digits 2 ms ->
    OffsetShape (String sg (String.app hs (String.app colon ms)))
      (sign_of sg) (Str.number hs) (Str.number ms).

(** The four forms listed in section 4.1 of the specification:
    [+H], [+HH], [+HH:MM] and [+HHMM]. *)
Inductive ListedShape : string -> Z -> Z -> Z -> Prop :=
| Listed_H sg hs :
    is_sign sg = true -> digits 1 hs ->
    ListedShape (String sg hs) (sign_of sg) (Str.number hs) 0
| Listed_HH sg hs :
    is_sign sg = true -> digits 2 hs ->
    ListedShape (String sg hs) (sign_of sg) (Str.number hs) 0
| Listed_HH_MM sg hs ms :
    is_sign sg = true -> digits 2 hs -> digits 2 ms ->
    ListedShape (String sg (String.app hs (String.app ":" ms)))
      (sign_of sg) (Str.number hs) (Str.number ms)
| Listed_HHMM sg hs ms :
    is_sign sg = true -> digits 2 hs -> digits 2 ms ->
    ListedShape (String sg (String.app hs ms))
      (sign_of sg) (Str.number hs) (Str.number ms).

(** The offset is in range: at most 14:00, minutes below 60. *)
Definition offset_in_range (h m : Z) : Prop :=
  h <= 14 ∧ (h = 14 -> m = 0) ∧ m < 60.

(** A normalised offset label: a sign, two digits, a colon, two digits. *)
Definition normalized_offset_label (s : string) : Prop :=
  ∃ sg hs ms, is_sign sg = true ∧ digits 2 hs ∧ digits 2 ms
              ∧ s = String sg (String.app hs (String.app ":" ms)).

(** The compact wall-time form [YYYYMMDDTHHmm] with optional seconds. *)
Definition BasicForm (s : string) : Prop :=
  ∃ Y M D h m sec,
    digits 4 Y ∧ digits 2 M ∧ digits 2 D ∧ digits 2 h ∧ digits 2 m
    ∧ (sec = "" ∨ digits 2 sec)
    ∧ s = String.app Y (String.app M (String.app D (String.app "T"
            (String.app h (String.app m sec))))).

(** The extended wall-time form [YYYY-MM-DD], a [T] or a space, [HH:mm] and
    optional [:ss]. *)
Definition ExtendedForm (s : string) : Prop :=
  ∃ Y M D sep h m sec,
    digits 4 Y ∧ digits 2 M ∧ digits 2 D ∧ (sep = " " ∨ sep = "T")
    ∧ digits 2 h ∧ digits 2 m
    ∧ (sec = "" ∨ ∃ ss, digits 2 ss ∧ sec = String.app ":" ss)
    ∧ s = String.app Y (String.app "-" (String.app M (String.app "-"
            (String.app D (String.app sep (String.app h (String.app ":"
            (String.app m sec)))))))).

Definition WallTimeForm (s : string) : Prop := BasicForm s ∨ ExtendedForm s.

End Shapes.

(** The state of the module seen as a function: alias resolution, and what
    [isValidIana] answers. *)
Module Pure.

Definition alias_of (st : tzstate) (zone : string) : string :=
  if negb (Str.truthy zone) then zone
  else match aliasMap st !! zone with
       | Some a => if Str.truthy a then a else zone
       | None => zone
       end.

Definition valid_zone (h : host) (st : tzstate) (zone : string) : bool :=
  Str.truthy zone &&
  let tz := alias_of st zone in
  Str.truthy tz &&
  match validIanaCache st !! tz with
  | Some known => known
  | None => intl_supports h tz
  end.

(** The cache only holds answers [Intl] gave. *)
Definition coherent (h : host) (st : tzstate) : Prop :=
  ∀ z b, validIanaCache st !! z = Some b -> b = intl_supports h z.

(** The state after a validity check of [zone]. *)
Definition remember (h : host) (st : tzstate) (zone : string) : tzstate :=
  if Str.truthy zone && Str.truthy (alias_of st zone)
  then match validIanaCache st !! alias_of st zone with
       | Some _ => st
       | None =>
           {| aliasMap := aliasMap st;
              validIanaCache :=
                <[alias_of st zone := intl_supports h (alias_of st zone)]>
                  (validIanaCache st);
              console := console st |}
       end
  else st.

(** The zone identifier [getDateKey] hands to Temporal. *)
Definition zone_id (info : TzUtils.tzinfo) : option string :=
  match TzUtils.truthy_opt (TzUtils.iana info) with
  | Some z => Some z
  | None => TzUtils.truthy_opt (TzUtils.offset info)
  end.

(** Two states that answer every question alike, apart from the cache being
    filled. *)
Definition same_view (h : host) (st st' : tzstate) : Prop :=
  aliasMap st' = aliasMap st ∧ console st' = console st
  ∧ (∀ z, valid_zone h st' z = valid_zone h st z)
  ∧ (coherent h st -> coherent h st').

(** The minutes the code reads off a match of the offset pattern, and the
    value it computes from the match. *)
Definition minutes_of (m : Regex.rmatch_result) : Z :=
  match Regex.group 3 m with
  | Some minutesPart => if Str.truthy minutesPart then Str.number minutesPart else 0
  | None => 0
  end.

Definition decode (mres : Regex.rmatch_result) : option Z :=
  let sign := default "" (Regex.group 1 mres) in
  let hours := Str.number (default "" (Regex.group 2 mres)) in
  let minutes := minutes_of mres in
  if 60 <=? minutes then None
  else if (14 <? hours) || ((hours =? 14) && negb (minutes =? 0)) then None
  else
    let total := hours * 60 + minutes in
    Some (if String.eqb sign "-" then - total else total).

(** The alias-resolved zone when it is valid: what [findExactZoneMatch]
    answers. *)
Definition exact_match (h : host) (st : tzstate) (tz : option string)
    : option string :=
  match TzUtils.truthy_opt tz with
  | Some tz => if valid_zone h st (alias_of st tz) then Some (alias_of st tz) else None
  | None => None
  end.

(** The [iana] field: the exact match, else the zone itself when valid. *)
Definition iana_of (h : host) (st : tzstate) (tz : option string) : option string :=
  match exact_match h st tz with
  | Some z => Some z
  | None =>
      match TzUtils.truthy_opt tz with
      | Some tz' => if valid_zone h st tz' then Some tz' else None
      | None => None
      end
  end.

(** The TZID after the host substitution and the removal of quotes. *)
Definition cleaned (h : host) (value : string) : string :=
  TzUtils.unquote
    (if String.eqb value "tzone://Microsoft/Custom"
        || Str.startsWith "Customized Time Zone" value
        || Str.startsWith "tzone://Microsoft/" value
     then TzUtils.guessLocalZone h else value).

(** The offset minutes and the zone text [resolveTZID] arrives at before it
    validates the zone. *)
Definition classify (h : host) (value : string) : option Z * option string :=
  let tz := cleaned h value in
  let tz :=
    if Str.truthy tz && (Str.includes_char " " tz || Str.includes_char "," tz)
    then match TzUtils.truthy_opt (TzUtils.mapWindowsZone h tz) with
         | Some mapped => mapped
         | None => tz
         end
    else tz in
  let '(offsetMinutes, tz) :=
    if Str.truthy tz && Str.startsWith "(" tz
    then (match Regex.search TzUtils.embedded_offset_re tz with
          | Some (_, offsetMatch) =>
              TzUtils.offsetLabelToMinutes (default "" (Regex.group 1 offsetMatch))
          | None => None
          end, None)
    else (None, Some tz) in
  match offsetMinutes, TzUtils.truthy_opt tz with
  | None, Some tz' =>
      match TzUtils.offsetLabelToMinutes tz' with
      | Some mins => (Some mins, None)
      | None => (offsetMinutes, tz)
      end
  | _, _ => (offsetMinutes, tz)
  end.

Definition empty_info : TzUtils.tzinfo :=
  {| TzUtils.original := None; TzUtils.iana := None; TzUtils.offset := None;
     TzUtils.offsetMinutes := None; TzUtils.etc := None |}.

(** The descriptor [resolveTZID] returns for a non-empty string, as a
    function of the state it starts in. *)
Definition resolved (h : host) (st : tzstate) (value : string) : TzUtils.tzinfo :=
  let c := classify h value in
  {| TzUtils.original := Some (cleaned h value);
     TzUtils.iana := iana_of h st (snd c);
     TzUtils.offset := TzUtils.minutesToOffset (fst c);
     TzUtils.offsetMinutes := fst c;
     TzUtils.etc := TzUtils.minutesToEtcZone (fst c) |}.

(** The wall-clock fields [parseDateTimeInZone] reads from its first
    argument: the extended form is tried first. *)
Definition wall_fields (s : string) : option Temporal.fields :=
  match Regex.exec_at TzUtils.extended_re s with
  | Some m => Some (TzUtils.fields_of_match m)
  | None =>
      match Regex.exec_at TzUtils.basic_re s with
      | Some m => Some (TzUtils.fields_of_match m)
      | None => None
      end
  end.

(** A zone with one transition: offset [off1] before the instant [T],
    [off2] from [T] on. *)
Definition single_transition (T off1 off2 : Z) : Temporal.zoneinfo :=
  {| Temporal.zi_initial := off1; Temporal.zi_transitions := [(T, off2)] |}.

(** The zone has one transition near the instant [T]: offset [off1] during
    the four days before [T], [off2] from [T] on for four days, and no offset
    of the zone exceeds a day. *)
Definition quiet_around (zi : Temporal.zoneinfo) (T off1 off2 : Z) : Prop :=
  (∀ t, T - 4 * Time.msPerDay <= t < T -> Temporal.offset_at zi t = off1)
  ∧ (∀ t, T <= t <= T + 4 * Time.msPerDay -> Temporal.offset_at zi t = off2)
  ∧ Forall (fun o => - Time.msPerDay <= o <= Time.msPerDay)
      (Temporal.all_offsets zi).

(** The integers from [lo], [n] of them. *)
Fixpoint Z_range (lo : Z) (n : nat) : list Z :=
  match n with
  | O => []
  | S n' => lo :: Z_range (lo + 1) n'
  end.

(** A boolean reading of [Shapes.normalized_offset_label]. *)
Definition is_normalized_offset_label (s : string) : bool :=
  match s with
  | String sg (String h1 (String h2 (String c (String m1 (String m2 EmptyString))))) =>
      Shapes.is_sign sg && Chars.is_digit h1 && Chars.is_digit h2
      && Chars.chr ":" c && Chars.is_digit m1 && Chars.is_digit m2
  | _ => false
  end.

(** The month and day of [civil_from_days] as functions of the day within
    the 400-year era. *)
Definition month_day_of_doe (doe : Z) : Z * Z :=
  let yoe := (doe - doe / 1460 + doe / 36524 - doe / 146096) / 365 in
  let doy := doe - (365 * yoe + yoe / 4 - yoe / 100) in
  let mp := (5 * doy + 2) / 153 in
  let d := doy - (153 * mp + 2) / 5 + 1 in
  let m := if mp <? 10 then mp + 3 else mp - 9 in
  (m, d).

(** The two keys of [getDateKey] that do not involve a zone: the template of
    the date-only branch, and the first ten characters of [toISOString]. *)
Definition local_key (h : host) (d : JsDate) : string :=
  let f := DateUtils.local_ymd h d in
  String.app (DateUtils.string_of_num ((fun '(y, _, _) => y) <$> f))
  (String.app "-"
  (String.app (Str.padStart0 2 (DateUtils.string_of_num ((fun '(_, m, _) => m) <$> f)))
  (String.app "-"
              (Str.padStart0 2 (DateUtils.string_of_num ((fun '(_, _, d) => d) <$> f)))))).

Definition utc_key (d : JsDate) : res string :=
  res_bind (toISOString d) (fun iso => Ret (Str.slice0 10 iso)).

(** The year of a calendar date lies between two bounds. *)
Definition year_between (lo hi : Z) (ymd : Z * Z * Z) : Prop :=
  let '(y, _, _) := ymd in lo <= y <= hi.

(** A state with one more line on the console. *)
Definition warned (st : tzstate) (w : warning) : tzstate :=
  {| aliasMap := aliasMap st; validIanaCache := validIanaCache st;
     console := console st ++ [w] |}.

(** Two states with the same aliases and the same validity answers. *)
Definition same_zones (h : host) (st st' : tzstate) : Prop :=
  aliasMap st' = aliasMap st ∧ ∀ z, valid_zone h st' z = valid_zone h st z.

(** The date key of a candidate, and what a candidate yields, as seen from a
    state. *)
Definition key_of (h : host) (st : tzstate) (c : JsDate) : res string :=
  fst (DateUtils.getDateKey h c st).

Definition yield (h : host) (ev : Expand.Event) (r : Expand.Request)
    (f t : Z) (st : tzstate) (c : JsDate) : res (option Expand.Instance) :=
  fst (Expand.process_candidate h ev r f t c st).

(** What a candidate with date key [key] and ISO timestamp [iso] yields: the
    EXDATE test, then the window filter. *)
Definition decide_candidate (ev : Expand.Event) (r : Expand.Request) (f t : Z)
    (c : JsDate) (key iso : string) : option Expand.Instance :=
  if Expand.opt_excludeExdates r && Expand.excluded ev key iso then None
  else
    let inst := Expand.build_instance ev r key iso c in
    if Expand.in_window (Expand.opt_expandOngoing r) f t
         (Expand.i_start inst) (Expand.i_end inst)
    then Some inst else None.


(** The instance is not an override and its start has the date key [k] and
    the ISO timestamp [iso]. *)
Definition plain_on (h : host) (st : tzstate) (k iso : string)
    (i : Expand.Instance) : bool :=
  negb (Expand.isOverride i)
  && match key_of h st (Expand.i_start i), toISOString (Expand.i_start i) with
     | Ret k', Ret iso' => String.eqb k' k && String.eqb iso' iso
     | _, _ => false
     end.

(** The window condition of the specification, on time values. *)
Definition window_condition (ongoing : bool) (f t : Z)
    (i : Expand.Instance) : Prop :=
  if ongoing
  then ∃ s e, time (Expand.i_start i) = Some s ∧ time (Expand.i_end i) = Some e
              ∧ s <= t ∧ f <= e
  else ∃ s, time (Expand.i_start i) = Some s ∧ f <= s <= t.

End Pure.

(** ** Fixtures of the end-to-end scenarios *)

Module Scenario.

Definition LosAngeles : Temporal.zoneinfo :=
  {| Temporal.zi_initial := -28800000;
     Temporal.zi_transitions :=
       [(1678615200000, -25200000); (1699174800000, -28800000)] |}.

(** A host on UTC whose zone database knows Los Angeles (2023 rules) and
    Etc/GMT. *)
Definition utc_host : host :=
  {| windowsZones := [("W. Europe Standard Time", ["Europe/Berlin"])];
     intl_supports := fun z =>
       String.eqb z "America/Los_Angeles" || String.eqb z "Etc/GMT";
     tzdb := fun z =>
       if String.eqb z "America/Los_Angeles" then Some LosAngeles
       else if String.eqb z "Etc/GMT" then Some (Temporal.fixed_zone 0)
       else None;
     hostZone := "Etc/GMT";
     localTZA := fun _ => 0 |}.

Definition fresh : tzstate :=
  {| aliasMap := ∅; validIanaCache := ∅; console := [] |}.

(** The state after [linkAlias('Etc/Unknown', 'Etc/GMT')]. *)
Definition aliased : tzstate :=
  snd (TzUtils.linkAlias2 "Etc/Unknown" "Etc/GMT" fresh).

Definition plain_date (ms : Z) : JsDate :=
  {| time := Some ms; tz := None; dateOnly := false |}.

Definition zoned_date (ms : Z) (zone : string) : JsDate :=
  {| time := Some ms;
     tz := Some {| tz_value := zone; tz_enumerable := false |};
     dateOnly := false |}.

Definition whole_day_date (ms : Z) : JsDate :=
  {| time := Some ms; tz := None; dateOnly := true |}.

(** A rule iterator over a given list of instants: those within the bounds,
    in order. *)
Definition rule_of (instants : list Z) : Expand.Rule :=
  {| Expand.between := fun f t =>
       List.map plain_date
         (List.filter (fun x => (f <=? x) && (x <=? t)) instants) |}.

Definition request (f t : Z) (ongoing : option bool) : Expand.Request :=
  {| Expand.from := Expand.ArgDate (plain_date f);
     Expand.to := Expand.ArgDate (plain_date t);
     Expand.excludeExdates := None;
     Expand.includeOverrides := None;
     Expand.expandOngoing := ongoing |}.

(** Whole-day daily event from 2025-01-01 (forty days of it). *)
Definition jan1_2025 : Z := 1735689600000.

Definition daily_event : Expand.Event :=
  {| Expand.base :=
       {| Expand.uid := "daily"; Expand.summary := "Daily";
          Expand.start := whole_day_date jan1_2025;
          Expand.end_ := Some (whole_day_date (jan1_2025 + Time.msPerDay));
          Expand.duration := None;
          Expand.datetype_ := Some Expand.DateType |};
     Expand.rrule :=
       Some (rule_of (List.map (fun k => jan1_2025 + k * Time.msPerDay)
                        (Pure.Z_range 0 40)));
     Expand.exdate := ∅;
     Expand.recurrences := ∅ |}.

(** Weekly 16:00 America/Los_Angeles from 2023-10-25, with
    EXDATE 2023-11-08T16:00 local, stored under its date key and under its
    full ISO timestamp. *)
Definition weekly_la_event : Expand.Event :=
  {| Expand.base :=
       {| Expand.uid := "exdate-dst-timed-crossing"; Expand.summary := "Weekly 4pm LA";
          Expand.start := zoned_date 1698274800000 "America/Los_Angeles";
          Expand.end_ := Some (zoned_date 1698278400000 "America/Los_Angeles");
          Expand.duration := None;
          Expand.datetype_ := Some Expand.DateTimeType |};
     Expand.rrule :=
       Some (rule_of [1698274800000; 1698879600000; 1699488000000;
                      1700092800000; 1700697600000]);
     Expand.exdate :=
       <["2023-11-08" := tt]> (<["2023-11-09T00:00:00.000Z" := tt]> ∅);
     Expand.recurrences := ∅ |}.

(** The same weekly event with the EXDATE stored under its date key only. *)
Definition weekly_la_date_key_only : Expand.Event :=
  {| Expand.base := Expand.base weekly_la_event;
     Expand.rrule := Expand.rrule weekly_la_event;
     Expand.exdate := <["2023-11-08" := tt]> ∅;
     Expand.recurrences := ∅ |}.




(** The override that moves an occurrence to 14:00Z of 2025-01-07. *)
Definition moved_override : Expand.EventBody :=
  {| Expand.uid := "moved"; Expand.summary := "Daily Meeting (Moved)";
     Expand.start := plain_date 1736258400000;
     Expand.end_ := Some (plain_date 1736262000000);
     Expand.duration := None;
     Expand.datetype_ := Some Expand.DateTimeType |}.

(** Daily 10:00Z from 2025-01-06 with the occurrence of 2025-01-08 moved
    to 14:00Z of 2025-01-07, a day that is itself excluded. *)
Definition moved_onto_exdate_event : Expand.Event :=
  {| Expand.base :=
       {| Expand.uid := "moved"; Expand.summary := "Daily Meeting";
          Expand.start := plain_date 1736157600000;
          Expand.end_ := Some (plain_date 1736161200000);
          Expand.duration := None;
          Expand.datetype_ := Some Expand.DateTimeType |};
     Expand.rrule :=
       Some (rule_of [1736157600000; 1736244000000; 1736330400000]);
     Expand.exdate := <["2025-01-07" := tt]> ∅;
     Expand.recurrences := <["2025-01-08" := moved_override]> ∅ |}.


(** The instances of a run that returned, and the ISO timestamps of their
    starts. *)
Definition instances_of (x : res (list Expand.Instance) * tzstate)
    : list Expand.Instance :=
  match fst x with
  | Ret l => l
  | Throw _ => []
  end.

Definition start_stamps (l : list Expand.Instance) : list (res string) :=
  List.map (fun i => toISOString (Expand.i_start i)) l.

(** The windows of the scenarios, as local midnights of the UTC host. *)
Definition oct20_2023 : Z := 1697760000000.
Definition nov20_2023 : Z := 1700438400000.
Definition jan5_2025 : Z := 1736035200000.
Definition jan6_2025 : Z := 1736121600000.
Definition jan10_2025 : Z := 1736467200000.

End Scenario.

(** ** Vocabulary of the further properties *)

Module Views.

(** The wall-clock fields of a wall-clock reading in milliseconds: what
    [toZonedDateTimeISO] exposes as year, month, day, hour, minute and
    second. *)
Definition wall_clock (wall : Z) : Temporal.fields :=
  let '(y, m, d) := Time.ymd_of_time wall in
  let w := Time.TimeWithinDay wall in
  {| Temporal.year := y; Temporal.month := m; Temporal.day := d;
     Temporal.hour := w / Time.msPerHour;
     Temporal.minute := w / Time.msPerMinute mod 60;
     Temporal.second := w / Time.msPerSecond mod 60 |}.

(** The template of [formatDateForRrule]: the year as it prints, the other
    fields padded to two digits. *)
Definition stamp (f : Temporal.fields) : string :=
  String.app (Str.of_Z (Temporal.year f))
  (String.app (TzUtils.pad2 (Temporal.month f))
  (String.app (TzUtils.pad2 (Temporal.day f))
  (String.app "T"
  (String.app (TzUtils.pad2 (Temporal.hour f))
  (String.app (TzUtils.pad2 (Temporal.minute f))
              (TzUtils.pad2 (Temporal.second f))))))).

(** A date that carries [tzid] as its hidden [tz]. *)
Definition tagged (t : option Z) (tzid : string) : JsDate :=
  {| time := t; tz := Some {| tz_value := tzid; tz_enumerable := false |};
     dateOnly := false |}.

(** A descriptor that only holds offset minutes, or only a zone name. *)
Definition offset_info (m : Z) : TzUtils.tzinfo :=
  {| TzUtils.original := None; TzUtils.iana := None;
     TzUtils.offset := TzUtils.minutesToOffset (Some m);
     TzUtils.offsetMinutes := Some m;
     TzUtils.etc := TzUtils.minutesToEtcZone (Some m) |}.

Definition zone_info (z : string) : TzUtils.tzinfo :=
  {| TzUtils.original := Some z; TzUtils.iana := Some z;
     TzUtils.offset := None; TzUtils.offsetMinutes := None;
     TzUtils.etc := None |}.

(** The two wall-time notations, from their digit groups: compact
    YYYYMMDDTHHmm[ss], and extended YYYY-MM-DD, a separator, HH:mm[:ss].
    The seconds [ss] may be empty. *)
Definition compact (Y M D h m ss : string) : string :=
  String.app Y (String.app M (String.app D (String.app "T"
    (String.app h (String.app m ss))))).

Definition extended (Y M D sep h m ss : string) : string :=
  String.app Y (String.app "-" (String.app M (String.app "-"
    (String.app D (String.app sep (String.app h (String.app ":"
    (String.app m (if Str.truthy ss then String.app ":" ss else ""))))))))).

(** The fields the digit groups denote (no seconds: 0). *)
Definition fields_of (Y M D h m ss : string) : Temporal.fields :=
  {| Temporal.year := Str.number Y; Temporal.month := Str.number M;
     Temporal.day := Str.number D; Temporal.hour := Str.number h;
     Temporal.minute := Str.number m; Temporal.second := Str.number ss |}.

(** [s] is a wall-time string made of the digit groups [Y], [M], [D], [h],
    [m] and [ss], in either notation. *)
Definition wall_string (s Y M D h m ss : string) : Prop :=
  Shapes.digits 4 Y ∧ Shapes.digits 2 M ∧ Shapes.digits 2 D
  ∧ Shapes.digits 2 h ∧ Shapes.digits 2 m
  ∧ (ss = "" ∨ Shapes.digits 2 ss)
  ∧ (s = compact Y M D h m ss
     ∨ ∃ sep, (sep = "T" ∨ sep = " ") ∧ s = extended Y M D sep h m ss).

(** Fields that name a date of the calendar and a time of day. *)
Definition calendar_fields (f : Temporal.fields) : Prop :=
  1 <= Temporal.month f <= 12
  ∧ 1 <= Temporal.day f <= Time.days_in_month (Temporal.year f) (Temporal.month f)
  ∧ 0 <= Temporal.hour f <= 23 ∧ 0 <= Temporal.minute f <= 59
  ∧ 0 <= Temporal.second f <= 59.

(** The wall-clock reading of calendar fields, in milliseconds. *)
Definition wall_of (f : Temporal.fields) : Z :=
  Time.MakeDate
    (Time.days_from_civil (Temporal.year f) (Temporal.month f) (Temporal.day f))
    (Time.MakeTime (Temporal.hour f) (Temporal.minute f) (Temporal.second f) 0).

(** The year [Date.UTC] takes a year number for, and the fields as
    [Date.UTC] reads them. *)
Definition utc_year (y : Z) : Z :=
  if (0 <=? y) && (y <=? 99) then 1900 + y else y.

Definition utc_fields (f : Temporal.fields) : Temporal.fields :=
  {| Temporal.year := utc_year (Temporal.year f);
     Temporal.month := Temporal.month f; Temporal.day := Temporal.day f;
     Temporal.hour := Temporal.hour f; Temporal.minute := Temporal.minute f;
     Temporal.second := Temporal.second f |}.

(** The date of fields in the notation of the date keys. *)
Definition date_of (f : Temporal.fields) : string :=
  Time.yyyy_mm_dd (Temporal.year f, Temporal.month f, Temporal.day f).

(** All offsets of a zone are within a day. *)
Definition offsets_within_a_day (zi : Temporal.zoneinfo) : Prop :=
  Forall (fun o => - Time.msPerDay <= o <= Time.msPerDay)
    (Temporal.all_offsets zi).

(** One step of [buildWindowsLabelIndex]: the variants of one entry of the
    table are added to the index. *)
Definition index_step (index : gmap string (list string))
    (entry : string * list string) : gmap string (list string) :=
  let '(label, data) := entry in
  let index := TzUtils.addVariant label data index in
  let withoutOffset :=
    Regex.strip_prefix (TzUtils.paren_label_re "g" "m" "t")
      (Regex.strip_prefix (TzUtils.paren_label_re "u" "t" "c") label) in
  if negb (String.eqb withoutOffset label)
  then
    let index := TzUtils.addVariant withoutOffset data index in
    if Str.includes_char "," withoutOffset
    then fold_left (fun index segment => TzUtils.addVariant segment data index)
           (Str.split "," withoutOffset) index
    else index
  else index.

(** White space is squeezed: every white-space character is a space and no
    two are adjacent ([after_space]: the character before was one). *)
Fixpoint squeezed (after_space : bool) (s : string) : bool :=
  match s with
  | EmptyString => true
  | String c s' =>
      if Chars.is_space c
      then Ascii.eqb c " " && negb after_space && squeezed true s'
      else squeezed false s'
  end.

(** The text without the characters at its end that satisfy [p]. *)
Fixpoint drop_end (p : ascii -> bool) (s : string) : string :=
  match s with
  | EmptyString => EmptyString
  | String c s' =>
      match drop_end p s' with
      | EmptyString => if p c then EmptyString else String c EmptyString
      | r => String c r
      end
  end.

(** A text of white space only (possibly empty). *)
Definition blank (s : string) : bool :=
  negb (Str.existsb (fun c => negb (Chars.is_space c)) s).

End Views.

(** * Properties *)

Module RegexFacts.
Import Regex.

Lemma star_sound {A} p s c (k : string -> caps -> option A) x :
  star p s c k = Some x ->
  ∃ s' c', matches (Star p) s c s' c' ∧ k s' c' = Some x.
Proof.
  revert x. induction s as [|a s IH]; intros x; simpl.
  - intros H. exists EmptyString, c. split; [constructor | exact H].
  - destruct (p a) eqn:Hp.
    + destruct (star p s c k) as [y|] eqn:Hs.
      * intros [= <-]. destruct (IH y eq_refl) as (s' & c' & Hm & Hk).
        exists s', c'. split; [by apply M_star_cons | exact Hk].
      * intros H. exists (String a s), c. split; [constructor | exact H].
    + intros H. exists (String a s), c. split; [constructor | exact H].
Qed.

Lemma rmatch_sound {A} r : ∀ s c (k : string -> caps -> option A) x,
  rmatch r s c k = Some x ->
  ∃ s' c', matches r s c s' c' ∧ k s' c' = Some x.
Proof.
  induction r as [|p|r1 IH1 r2 IH2|r1 IH1 r2 IH2|r IH|p|i r IH|]; intros s c k x; simpl.
  - intros H. exists s, c. split; [constructor | exact H].
  - destruct s as [|a s]; [done|]. destruct (p a) eqn:Hp; [|done].
    intros H. exists s, c. split; [by constructor | exact H].
  - intros H. apply IH1 in H as (s1 & c1 & Hm1 & H).
    apply IH2 in H as (s2 & c2 & Hm2 & H).
    exists s2, c2. split; [by econstructor | exact H].
  - destruct (rmatch r1 s c k) as [y|] eqn:H1.
    + intros [= <-]. apply IH1 in H1 as (s' & c' & Hm & H).
      exists s', c'. split; [by apply M_alt_l | exact H].
    + intros H. apply IH2 in H as (s' & c' & Hm & H).
      exists s', c'. split; [by apply M_alt_r | exact H].
  - destruct (rmatch r s c k) as [y|] eqn:H1.
    + intros [= <-]. apply IH in H1 as (s' & c' & Hm & H).
      exists s', c'. split; [by apply M_opt_some | exact H].
    + intros H. exists s, c. split; [apply M_opt_none | exact H].
  - apply star_sound.
  - intros H. apply IH in H as (s' & c' & Hm & H).
    eexists _, _. split; [by apply M_grp | exact H].
  - destruct s; [|done]. intros H. exists EmptyString, c. split; [constructor | exact H].
Qed.

Lemma rmatch_complete {A} r s c s' c' :
  matches r s c s' c' ->
  ∀ (k : string -> caps -> option A), is_Some (k s' c') -> is_Some (rmatch r s c k).
Proof.
  induction 1 as [s c|p a s c Hp|r1 r2 s c s1 c1 s2 c2 H1 IH1 H2 IH2
                 |r1 r2 s c s' c' H IH|r1 r2 s c s' c' H IH
                 |r s c s' c' H IH|r s c|p s c|p a s c s' c' Hp H IH
                 |i r s c s' c' H IH|c]; intros k Hk; simpl.
  - exact Hk.
  - by rewrite Hp.
  - apply IH1. by apply IH2.
  - destruct (rmatch r1 s c k) eqn:E; [done|].
    destruct (IH k Hk) as [y Hy]. congruence.
  - destruct (rmatch r1 s c k) eqn:E; [done|]. by apply IH.
  - destruct (rmatch r s c k) eqn:E; [done|].
    destruct (IH k Hk) as [y Hy]. congruence.
  - destruct (rmatch r s c k) eqn:E; [done|]. exact Hk.
  - destruct s as [|a s]; simpl; [exact Hk|].
    destruct (p a); [|exact Hk]. destruct (star p s c k); [done | exact Hk].
  - rewrite Hp. specialize (IH k Hk). simpl in IH.
    destruct (star p s c k) eqn:E; [eauto|]. by destruct IH.
  - apply IH. exact Hk.
  - exact Hk.
Qed.

Lemma exec_at_Some r s m :
  exec_at r s = Some m -> matches r s [] (m_rest m) (m_caps m).
Proof.
  unfold exec_at. intros H. apply rmatch_sound in H as (s' & c' & Hm & [= <-]).
  exact Hm.
Qed.

Lemma exec_at_None r s :
  exec_at r s = None ↔ ∀ s' c', ¬ matches r s [] s' c'.
Proof.
  split.
  - intros H s' c' Hm. unfold exec_at in H.
    destruct (rmatch_complete _ _ _ _ _ Hm
      (fun s' c => Some {| m_caps := c; m_rest := s' |})) as [y Hy]; [eauto|].
    rewrite H in Hy. discriminate.
  - intros H. destruct (exec_at r s) as [m|] eqn:E; [|done].
    apply exec_at_Some in E. by apply H in E.
Qed.

End RegexFacts.


Module CharFacts.
Import Chars.

Lemma chr_true c x : chr c x = true ↔ x = c.
Proof. unfold chr. by rewrite Ascii.eqb_eq. Qed.

Lemma digit_not c x :
  is_digit c = false -> is_digit x = true -> chr c x = false.
Proof.
  intros Hc Hx. destruct (chr c x) eqn:E; [|done].
  apply chr_true in E. congruence.
Qed.

Lemma digit_not_space x : is_digit x = true -> is_space x = false.
Proof.
  unfold is_digit, is_space. intros H.
  apply andb_true_iff in H as [H1 H2]. apply Z.leb_le in H1, H2.
  repeat (apply orb_false_iff; split);
    try apply andb_false_iff; try (right; apply Z.leb_gt; lia);
    apply Z.eqb_neq; lia.
Qed.

Lemma digit_val_range x : is_digit x = true -> 0 <= digit_val x <= 9.
Proof.
  unfold is_digit, digit_val. intros H.
  apply andb_true_iff in H as [H1 H2]. apply Z.leb_le in H1, H2. lia.
Qed.

End CharFacts.

Module ShapeFacts.
Import Regex Shapes RegexFacts Pure.

Lemma is_sign_cases sg : is_sign sg = true ↔ sg = "+"%char ∨ sg = "-"%char.
Proof.
  unfold is_sign. rewrite orb_true_iff, !CharFacts.chr_true. tauto.
Qed.

Lemma digits1 a : Chars.is_digit a = true -> digits 1 (str1 a).
Proof. intros H. split; [done|]. simpl. by rewrite H. Qed.

Lemma digits2_intro a b :
  Chars.is_digit a = true -> Chars.is_digit b = true -> digits 2 (str2 a b).
Proof. intros Ha Hb. split; [done|]. simpl. by rewrite Ha, Hb. Qed.

Lemma digits1_inv s : digits 1 s -> ∃ a, s = str1 a ∧ Chars.is_digit a = true.
Proof.
  intros [Hl Hd]. destruct s as [|a [|b s]]; try done.
  exists a. split; [done|]. simpl in Hd. by apply andb_true_iff in Hd as [-> _].
Qed.

Lemma digits2_inv s :
  digits 2 s -> ∃ a b, s = str2 a b ∧ Chars.is_digit a = true ∧ Chars.is_digit b = true.
Proof.
  intros [Hl Hd]. destruct s as [|a [|b [|c s]]]; try done.
  exists a, b. split; [done|]. simpl in Hd.
  apply andb_true_iff in Hd as [-> Hd]. by apply andb_true_iff in Hd as [-> _].
Qed.

Lemma digits4_inv s :
  digits 4 s -> ∃ a b c d, s = String a (String b (str2 c d))
    ∧ Chars.is_digit a = true ∧ Chars.is_digit b = true
    ∧ Chars.is_digit c = true ∧ Chars.is_digit d = true.
Proof.
  intros [Hl Hd]. destruct s as [|a [|b [|c [|d [|e s]]]]]; try done.
  exists a, b, c, d. split; [done|]. simpl in Hd.
  repeat (apply andb_true_iff in Hd as [? Hd]). done.
Qed.

Lemma digits4_intro a b c d :
  Chars.is_digit a = true -> Chars.is_digit b = true ->
  Chars.is_digit c = true -> Chars.is_digit d = true ->
  digits 4 (String a (String b (str2 c d))).
Proof. intros Ha Hb Hc Hd. split; [done|]. simpl. by rewrite Ha, Hb, Hc, Hd. Qed.

(** Inversion of a derivation for a pattern given by its constructors. *)
Ltac minv1 :=
  match goal with
  | H : matches Eps _ _ _ _ |- _ => inversion H; clear H; subst
  | H : matches (Cls _) _ _ _ _ |- _ => inversion H; clear H; subst
  | H : matches (Cat _ _) _ _ _ _ |- _ => inversion H; clear H; subst
  | H : matches (Alt _ _) _ _ _ _ |- _ => inversion H; clear H; subst
  | H : matches (Opt _) _ _ _ _ |- _ => inversion H; clear H; subst
  | H : matches (Grp _ _) _ _ _ _ |- _ => inversion H; clear H; subst
  | H : matches Eos _ _ _ _ |- _ => inversion H; clear H; subst
  end.
Ltac minv := repeat minv1.

(** What a match of the offset pattern looks like. *)
Lemma offset_re_inv t m :
  exec_at TzUtils.offset_re t = Some m ->
  ∃ sg hs, is_sign sg = true ∧ (digits 1 hs ∨ digits 2 hs)
    ∧ group 1 m = Some (str1 sg) ∧ group 2 m = Some hs
    ∧ ((t = String sg hs ∧ group 3 m = None)
       ∨ ∃ colon ms, (colon = "" ∨ colon = ":") ∧ digits 2 ms
           ∧ t = String sg (hs +:+ colon +:+ ms) ∧ group 3 m = Some ms).
Proof.
  intros H. apply exec_at_Some in H. destruct m as [c rest]. simpl in H.
  unfold TzUtils.offset_re, seq, digits2, digit, lit in H.
  minv.
  all: repeat match goal with
              | H : Chars.chr _ _ = true |- _ => apply CharFacts.chr_true in H; subst
              end.
  all: unfold group; cbn.
  all: refine (ex_intro _ _ (ex_intro _ _
                 (conj _ (conj _ (conj eq_refl (conj eq_refl _)))))).
  all: try reflexivity.
  all: try (first [left; by apply digits1 | right; by apply digits2_intro]).
  all: match goal with
       | |- _ ∨ (∃ colon ms, _ ∧ _ ∧ _ ∧ Some ?x = Some ms) =>
           first [ right; exists "", x; cbn;
                   split; [by left|]; split; [by apply digits2_intro|]; done
                 | right; exists ":", x; cbn;
                   split; [by right|]; split; [by apply digits2_intro|]; done ]
       | |- _ => left; done
       end.
Qed.

Ltac know_chars :=
  assert (Chars.chr "+" "+" = true) by reflexivity;
  assert (Chars.chr "+" "-" = false) by reflexivity;
  assert (Chars.chr "-" "-" = true) by reflexivity;
  repeat match goal with
         | H : Chars.is_digit ?a = true |- _ =>
             lazymatch goal with
             | _ : Chars.chr ":" a = false |- _ => fail
             | _ => assert (Chars.chr ":" a = false)
                      by (by apply CharFacts.digit_not)
             end
         end.

Ltac run_match :=
  repeat (cbn -[Chars.is_digit Chars.chr Chars.is_space Str.number Z.mul Z.add];
          repeat match goal with
                 | H : ?p = true |- context [?p] => rewrite H
                 | H : ?p = false |- context [?p] => rewrite H
                 end).

Lemma offset_re_exec t sg h m :
  OffsetShape t sg h m ->
  ∃ mres, exec_at TzUtils.offset_re t = Some mres
    ∧ (if String.eqb (default "" (group 1 mres)) "-" then -1 else 1) = sg
    ∧ Str.number (default "" (group 2 mres)) = h
    ∧ minutes_of mres = m.
Proof.
  intros Hs. unfold minutes_of.
  destruct Hs as [sg hs Hsg Hh | sg hs colon ms Hsg Hh Hc Hm].
  - apply is_sign_cases in Hsg.
    destruct Hh as [Hh|Hh];
      [apply digits1_inv in Hh as (a & -> & Ha)
      |apply digits2_inv in Hh as (a & b & -> & Ha & Hb)];
      destruct Hsg as [-> | ->]; know_chars;
      unfold str1, str2; cbv [String.append];
      eexists; (split; [unfold exec_at, TzUtils.offset_re; run_match; reflexivity|]);
      done.
  - apply is_sign_cases in Hsg.
    apply digits2_inv in Hm as (m1 & m2 & -> & Hm1 & Hm2).
    destruct Hh as [Hh|Hh];
      [apply digits1_inv in Hh as (a & -> & Ha)
      |apply digits2_inv in Hh as (a & b & -> & Ha & Hb)];
      destruct Hsg as [-> | ->]; destruct Hc as [-> | ->]; know_chars;
      unfold str1, str2; cbv [String.append];
      eexists; (split; [unfold exec_at, TzUtils.offset_re; run_match; reflexivity|]);
      done.
Qed.

End ShapeFacts.


Module OffsetFacts.
Import Regex Shapes RegexFacts ShapeFacts TzUtils Pure.

Lemma shape_nonempty sg h m : ¬ OffsetShape "" sg h m.
Proof. inversion 1. Qed.

Lemma offset_trimmed_empty : offset_trimmed "" = "".
Proof. reflexivity. Qed.

Lemma number_digits_nonneg s : all_digits s = true -> ∀ acc, 0 <= acc -> 0 <= Str.number_go acc s.
Proof.
  induction s as [|a s IH]; simpl; intros Hd acc Hacc; [done|].
  apply andb_true_iff in Hd as [Ha Hd]. apply IH; [done|].
  pose proof (CharFacts.digit_val_range a Ha). lia.
Qed.

Lemma offsetLabelToMinutes_unfold s :
  offsetLabelToMinutes s =
    if negb (Str.truthy s) then None
    else match exec_at offset_re (offset_trimmed s) with
         | None => None
         | Some m => decode m
         end.
Proof. reflexivity. Qed.

Lemma decode_Some mres v :
  decode mres = Some v ↔
  offset_in_range (Str.number (default "" (group 2 mres))) (minutes_of mres)
  ∧ v = (if String.eqb (default "" (group 1 mres)) "-" then -1 else 1)
        * (Str.number (default "" (group 2 mres)) * 60 + minutes_of mres).
Proof.
  unfold decode, offset_in_range.
  set (h := Str.number _). set (m := minutes_of _).
  destruct (60 <=? m) eqn:E1.
  { apply Z.leb_le in E1. split; [intros; discriminate | intros [(? & ? & ?) _]; lia]. }
  apply Z.leb_gt in E1.
  destruct ((14 <? h) || ((h =? 14) && negb (m =? 0))) eqn:E2.
  { split; [intros; discriminate|]. intros [(H1 & H2 & _) _].
    apply orb_true_iff in E2 as [E2|E2]; [apply Z.ltb_lt in E2; lia|].
    apply andb_true_iff in E2 as [E2 E3]. apply Z.eqb_eq in E2.
    apply negb_true_iff, Z.eqb_neq in E3. exfalso. apply E3, H2, E2. }
  apply orb_false_iff in E2 as [E2 E3]. apply Z.ltb_ge in E2.
  split.
  - intros [= <-]. split.
    + split; [lia|]. split; [|lia]. intros ->.
      rewrite Z.eqb_refl in E3. simpl in E3.
      apply negb_false_iff, Z.eqb_eq in E3. done.
    + destruct (String.eqb _ _); lia.
  - intros [_ ->]. f_equal. destruct (String.eqb _ _); lia.
Qed.

Lemma sign_of_str1 sg :
  is_sign sg = true ->
  (if String.eqb (default "" (Some (str1 sg))) "-" then -1 else 1) = sign_of sg.
Proof.
  intros H. apply is_sign_cases in H as [-> | ->]; reflexivity.
Qed.

(** A match of the offset pattern is a label of the accepted shape, with the
    sign, hours and minutes the code then reads. *)
Lemma offset_re_shape t mres :
  exec_at offset_re t = Some mres ->
  OffsetShape t
    (if String.eqb (default "" (group 1 mres)) "-" then -1 else 1)
    (Str.number (default "" (group 2 mres))) (minutes_of mres).
Proof.
  intros H. apply offset_re_inv in H
    as (sg & hs & Hsg & Hh & -> & -> & [[-> H3] | (colon & ms & Hc & Hm & -> & H3)]).
  - unfold minutes_of. rewrite H3, sign_of_str1 by done. simpl. by constructor.
  - unfold minutes_of. rewrite H3, sign_of_str1 by done. simpl.
    replace (Str.truthy ms) with true
      by (destruct Hm as [Hl _]; by destruct ms).
    by constructor.
Qed.

Lemma shape_unique t sg h m sg' h' m' :
  OffsetShape t sg h m -> OffsetShape t sg' h' m' -> sg = sg' ∧ h = h' ∧ m = m'.
Proof.
  intros H1 H2.
  apply offset_re_exec in H1 as (r1 & E1 & <- & <- & <-).
  apply offset_re_exec in H2 as (r2 & E2 & <- & <- & <-).
  rewrite E1 in E2. by injection E2 as ->.
Qed.

Lemma offsetLabelToMinutes_Some s v :
  offsetLabelToMinutes s = Some v ↔
  ∃ sg h m, OffsetShape (offset_trimmed s) sg h m ∧ offset_in_range h m
            ∧ v = sg * (h * 60 + m).
Proof.
  rewrite offsetLabelToMinutes_unfold. split.
  - destruct (Str.truthy s); [|done]. simpl.
    destruct (exec_at offset_re (offset_trimmed s)) as [mres|] eqn:E; [|done].
    intros Hd. apply decode_Some in Hd as [Hr ->].
    eexists _, _, _. split; [by apply offset_re_shape|]. done.
  - intros (sg & h & m & Hs & Hr & ->).
    destruct s as [|c s]; [by apply shape_nonempty in Hs|]. simpl negb. cbv iota.
    apply offset_re_exec in Hs as (mres & -> & <- & <- & <-).
    by apply decode_Some.
Qed.

Lemma offsetLabelToMinutes_None s :
  offsetLabelToMinutes s = None ↔
  (∀ sg h m, ¬ OffsetShape (offset_trimmed s) sg h m)
  ∨ (∃ sg h m, OffsetShape (offset_trimmed s) sg h m ∧ ¬ offset_in_range h m).
Proof.
  split.
  - intros HN. rewrite offsetLabelToMinutes_unfold in HN.
    destruct (exec_at offset_re (offset_trimmed s)) as [mres|] eqn:E.
    + right. eexists _, _, _. split; [by apply offset_re_shape|].
      intros Hr. destruct (Str.truthy s) eqn:Et.
      * simpl in HN.
        assert (is_Some (decode mres)) as [v Hv]; [|congruence].
        eexists. by apply decode_Some.
      * destruct s; [|done]. by rewrite offset_trimmed_empty in E.
    + left. intros sg h m Hs. apply offset_re_exec in Hs as (mres & E' & _).
      congruence.
  - intros H. destruct (offsetLabelToMinutes s) as [v|] eqn:E; [|done].
    apply offsetLabelToMinutes_Some in E as (sg & h & m & Hs & Hr & _).
    destruct H as [H | (sg' & h' & m' & Hs' & Hr')]; [by apply H in Hs|].
    destruct (shape_unique _ _ _ _ _ _ _ Hs Hs') as (_ & <- & <-). done.
Qed.

Lemma offsetLabelToMinutes_bound s v :
  offsetLabelToMinutes s = Some v -> -840 <= v <= 840.
Proof.
  intros H. apply offsetLabelToMinutes_Some in H
    as (sg & h & m & Hs & (H1 & H2 & H3) & ->).
  assert (0 <= h ∧ 0 <= m ∧ (sg = 1 ∨ sg = -1)) as (Hh & Hm & Hsg).
  { destruct Hs as [sg hs Hsg Hh | sg hs colon ms Hsg Hh Hc Hm].
    - split; [|split; [done|]].
      + apply number_digits_nonneg; [|done]. destruct Hh as [[_ ?]|[_ ?]]; done.
      + unfold sign_of. destruct (Chars.chr "-" sg); auto.
    - split; [|split].
      + apply number_digits_nonneg; [|done]. destruct Hh as [[_ ?]|[_ ?]]; done.
      + apply number_digits_nonneg; [|done]. by destruct Hm.
      + unfold sign_of. destruct (Chars.chr "-" sg); auto. }
  destruct (Z.eq_dec h 14) as [->|]; [rewrite H2 by done|]; destruct Hsg as [-> | ->]; lia.
Qed.

End OffsetFacts.


Module FormFacts.
Import Regex Shapes RegexFacts ShapeFacts TzUtils.

Ltac split_digits :=
  repeat match goal with
         | H : digits 4 _ |- _ =>
             apply digits4_inv in H as (? & ? & ? & ? & -> & ? & ? & ? & ?)
         | H : digits 2 _ |- _ => apply digits2_inv in H as (? & ? & -> & ? & ?)
         end.

Ltac know_separators :=
  assert (Chars.chr "T" "T" = true) by reflexivity;
  assert (Chars.chr "-" "-" = true) by reflexivity;
  assert (Chars.chr ":" ":" = true) by reflexivity;
  assert (Chars.chr " " " " = true) by reflexivity;
  assert (Chars.chr " " "T" = false) by reflexivity;
  assert (Chars.is_digit "T" = false) by reflexivity;
  assert (Chars.is_digit ":" = false) by reflexivity.

Lemma basic_re_matches s : BasicForm s -> is_Some (exec_at basic_re s).
Proof.
  intros (Y & M & D & h & m & sec & HY & HM & HD & Hh & Hm & Hsec & ->).
  destruct Hsec as [-> | Hsec]; split_digits; know_separators;
    unfold str2, exec_at, basic_re; cbv [String.append]; run_match; eauto.
Qed.

Lemma BasicForm_intro y1 y2 y3 y4 m1 m2 d1 d2 h1 h2 i1 i2 sec :
  Chars.is_digit y1 = true -> Chars.is_digit y2 = true ->
  Chars.is_digit y3 = true -> Chars.is_digit y4 = true ->
  Chars.is_digit m1 = true -> Chars.is_digit m2 = true ->
  Chars.is_digit d1 = true -> Chars.is_digit d2 = true ->
  Chars.is_digit h1 = true -> Chars.is_digit h2 = true ->
  Chars.is_digit i1 = true -> Chars.is_digit i2 = true ->
  (sec = "" ∨ digits 2 sec) ->
  BasicForm (String y1 (String y2 (String y3 (String y4 (String m1 (String m2
    (String d1 (String d2 (String "T" (String h1 (String h2 (String i1
    (String i2 sec))))))))))))).
Proof.
  intros. exists (String y1 (String y2 (str2 y3 y4))), (str2 m1 m2), (str2 d1 d2),
    (str2 h1 h2), (str2 i1 i2), sec.
  split; [by apply digits4_intro|]. repeat (split; [by apply digits2_intro|]).
  done.
Qed.

Lemma basic_re_form s : is_Some (exec_at basic_re s) -> BasicForm s.
Proof.
  intros [m H]. apply exec_at_Some in H. destruct m as [c rest]. simpl in H.
  unfold basic_re, seq, digits4, digits2, digit, lit in H.
  minv;
    repeat match goal with
           | H : Chars.chr _ _ = true |- _ => apply CharFacts.chr_true in H; subst
           end;
    apply BasicForm_intro; try done;
    first [by left | right; by apply digits2_intro].
Qed.

Lemma extended_re_matches s : ExtendedForm s -> is_Some (exec_at extended_re s).
Proof.
  intros (Y & M & D & sep & h & m & sec & HY & HM & HD & Hsep & Hh & Hm & Hsec & ->).
  destruct Hsec as [-> | (ss & Hss & ->)]; destruct Hsep as [-> | ->];
    split_digits; know_separators;
    unfold str2, exec_at, extended_re; cbv [String.append]; run_match; eauto.
Qed.

Lemma ExtendedForm_intro y1 y2 y3 y4 m1 m2 d1 d2 sep h1 h2 i1 i2 sec :
  Chars.is_digit y1 = true -> Chars.is_digit y2 = true ->
  Chars.is_digit y3 = true -> Chars.is_digit y4 = true ->
  Chars.is_digit m1 = true -> Chars.is_digit m2 = true ->
  Chars.is_digit d1 = true -> Chars.is_digit d2 = true ->
  Chars.chr " " sep || Chars.chr "T" sep = true ->
  Chars.is_digit h1 = true -> Chars.is_digit h2 = true ->
  Chars.is_digit i1 = true -> Chars.is_digit i2 = true ->
  (sec = "" ∨ ∃ ss, digits 2 ss ∧ sec = ":" +:+ ss) ->
  ExtendedForm (String y1 (String y2 (String y3 (String y4 (String "-"
    (String m1 (String m2 (String "-" (String d1 (String d2 (String sep
    (String h1 (String h2 (String ":" (String i1 (String i2 sec)))))))))))))))).
Proof.
  intros ? ? ? ? ? ? ? ? Hsep ? ? ? ? ?.
  exists (String y1 (String y2 (str2 y3 y4))), (str2 m1 m2), (str2 d1 d2),
    (str1 sep), (str2 h1 h2), (str2 i1 i2), sec.
  split; [by apply digits4_intro|]. repeat (split; [by apply digits2_intro|]).
  split.
  { apply orb_true_iff in Hsep as [Hsep|Hsep];
      apply CharFacts.chr_true in Hsep; subst; auto. }
  repeat (split; [by apply digits2_intro|]). done.
Qed.

Lemma extended_re_form s : is_Some (exec_at extended_re s) -> ExtendedForm s.
Proof.
  intros [m H]. apply exec_at_Some in H. destruct m as [c rest]. simpl in H.
  unfold extended_re, seq, digits4, digits2, digit, lit in H.
  minv;
    repeat match goal with
           | H : Chars.chr _ _ = true |- _ => apply CharFacts.chr_true in H; subst
           end;
    apply ExtendedForm_intro; try done;
    lazymatch goal with
    | |- String ":" ?x = "" ∨ _ =>
        right; exists x; split; [by apply digits2_intro | reflexivity]
    | |- _ => by left
    end.
Qed.

Lemma wall_time_form_iff s :
  WallTimeForm s ↔
  is_Some (exec_at basic_re s) ∨ is_Some (exec_at extended_re s).
Proof.
  unfold WallTimeForm. split.
  - intros [H|H]; [left; by apply basic_re_matches | right; by apply extended_re_matches].
  - intros [H|H]; [left; by apply basic_re_form | right; by apply extended_re_form].
Qed.

End FormFacts.


(** ** The module state: alias resolution and the validity cache *)

Module StateFacts.
Import TzUtils Pure.

Lemma same_view_refl h st : same_view h st st.
Proof. by repeat split. Qed.

Lemma same_view_trans h st1 st2 st3 :
  same_view h st1 st2 -> same_view h st2 st3 -> same_view h st1 st3.
Proof.
  intros (Ha & Hc & Hv & Hk) (Ha' & Hc' & Hv' & Hk').
  split; [congruence|]. split; [congruence|].
  split; [intros z; by rewrite Hv', Hv | tauto].
Qed.

Lemma alias_of_same h st st' z :
  same_view h st st' -> alias_of st' z = alias_of st z.
Proof. intros (Ha & _). unfold alias_of. by rewrite Ha. Qed.

Lemma resolveZone_run zone st :
  resolveZone zone st = (Ret (alias_of st zone), st).
Proof.
  unfold resolveZone, alias_of. destruct (Str.truthy zone); [|done]. simpl.
  unfold bind, get_state, ret. destruct (aliasMap st !! zone) as [a|]; [|done].
  by destruct (Str.truthy a).
Qed.

Lemma isValidIana_run h zone st :
  isValidIana h zone st = (Ret (valid_zone h st zone), remember h st zone).
Proof.
  unfold isValidIana, valid_zone, remember.
  destruct (Str.truthy zone); [|done]. simpl.
  unfold bind. rewrite resolveZone_run.
  destruct (Str.truthy (alias_of st zone)); [|done]. simpl.
  unfold get_state. destruct (validIanaCache st !! alias_of st zone) as [known|]; [done|].
  unfold try_catch, bind, intl_format, cache_set, ret, throw.
  by destruct (intl_supports h (alias_of st zone)).
Qed.

Lemma remember_same_view h st zone : same_view h st (remember h st zone).
Proof.
  unfold remember.
  destruct (Str.truthy zone && Str.truthy (alias_of st zone)); [|apply same_view_refl].
  destruct (validIanaCache st !! alias_of st zone) as [known|] eqn:E;
    [apply same_view_refl|].
  repeat split; simpl.
  - intros z. unfold valid_zone.
    change (alias_of {| aliasMap := aliasMap st;
                        validIanaCache := _; console := console st |} z)
      with (alias_of st z).
    destruct (Str.truthy z); [|done].
    destruct (Str.truthy (alias_of st z)); [|done]. simpl.
    destruct (decide (alias_of st zone = alias_of st z)) as [Heq|Hne].
    + rewrite Heq, lookup_insert_eq. rewrite <- Heq, E. done.
    + by rewrite lookup_insert_ne.
  - intros Hc z b. simpl. intros Hl.
    destruct (decide (alias_of st zone = z)) as [<-|Hne].
    + rewrite lookup_insert_eq in Hl. congruence.
    + rewrite lookup_insert_ne in Hl by done. by apply Hc.
Qed.

Lemma findExactZoneMatch_run h tz st :
  ∃ st', findExactZoneMatch h tz st = (Ret (exact_match h st tz), st')
         ∧ same_view h st st'.
Proof.
  unfold findExactZoneMatch, exact_match, truthy_opt.
  destruct tz as [tz|]; [|exists st; split; [done | apply same_view_refl]].
  destruct (Str.truthy tz); simpl; [|exists st; split; [done | apply same_view_refl]].
  unfold bind. rewrite resolveZone_run, isValidIana_run.
  eexists. split; [reflexivity | apply remember_same_view].
Qed.

Lemma resolveTZID_string h value st :
  Str.truthy value = true ->
  ∃ st', resolveTZID h (JString value) st = (Ret (resolved h st value), st')
         ∧ same_view h st st'.
Proof.
  intros Hv. unfold resolveTZID, resolved, classify, cleaned. rewrite Hv. simpl negb. cbv iota.
  set (tz0 := unquote _).
  set (tz1 := if Str.truthy tz0 && _ then _ else tz0).
  set (p1 := if Str.truthy tz1 && _ then _ else _).
  destruct p1 as [om1 t1].
  set (p2 := match om1, truthy_opt t1 with | None, Some _ => _ | _, _ => _ end).
  destruct p2 as [om2 t2]. simpl fst. simpl snd. cbn [negb].
  unfold bind. cbv beta iota.
  destruct (findExactZoneMatch_run h t2 st) as (st1 & -> & Hs1).
  unfold iana_of. destruct (exact_match h st t2) as [z|] eqn:Ez.
  - exists st1. split; [reflexivity | done].
  - destruct (truthy_opt t2) as [tz'|] eqn:Et.
    + rewrite isValidIana_run. unfold ret.
      destruct Hs1 as (Ha & Hc & Hvz & Hk). rewrite Hvz.
      eexists. split; [reflexivity|].
      eapply same_view_trans; [|apply remember_same_view]. by repeat split.
    + exists st1. split; [reflexivity | done].
Qed.

Lemma resolveTZID_other h v st :
  (∀ s, v = JString s -> Str.truthy s = false) ->
  resolveTZID h v st = (Ret empty_info, st).
Proof.
  intros H. destruct v as [| | | |s|]; try reflexivity.
  unfold resolveTZID. by rewrite (H s eq_refl).
Qed.

End StateFacts.


(** ** The two parsers of wall-clock strings *)

Module ParserFacts.
Import TzUtils Pure Shapes StateFacts.

Lemma Z_range_elem lo n x :
  lo <= x < lo + Z.of_nat n -> In x (Z_range lo n).
Proof.
  revert lo. induction n as [|n IH]; intros lo H; [lia|].
  simpl. destruct (Z.eq_dec lo x) as [->|Hne]; [by left|].
  right. apply IH. lia.
Qed.

Lemma is_normalized_offset_label_spec s :
  is_normalized_offset_label s = true -> normalized_offset_label s.
Proof.
  destruct s as [|sg [|h1 [|h2 [|c [|m1 [|m2 [|x s]]]]]]]; try done. simpl.
  intros H. repeat (apply andb_true_iff in H as [H ?]).
  match goal with Hc : Chars.chr ":" c = true |- _ =>
    apply CharFacts.chr_true in Hc; subst c end.
  exists sg, (str2 h1 h2), (str2 m1 m2).
  split; [done|]. split; [by apply ShapeFacts.digits2_intro|].
  split; [by apply ShapeFacts.digits2_intro|]. reflexivity.
Qed.

Lemma minutesToOffset_range_check :
  forallb (fun m => match minutesToOffset (Some m) with
                    | Some s => is_normalized_offset_label s
                    | None => false
                    end) (Z_range (-840) 1681) = true.
Proof. vm_compute. reflexivity. Qed.

(** Within 14 hours either way, [minutesToOffset] yields a label of the form
    sign, two digits, colon, two digits. *)
Lemma minutesToOffset_normalized m :
  -840 <= m <= 840 ->
  ∃ label, minutesToOffset (Some m) = Some label ∧ normalized_offset_label label
           ∧ Str.truthy label = true.
Proof.
  intros Hm. pose proof minutesToOffset_range_check as H.
  rewrite forallb_forall in H.
  assert (In m (Z_range (-840) 1681)) as Hin
    by (apply Z_range_elem; change (Z.of_nat 1681) with 1681; lia).
  specialize (H m Hin). cbv beta in H.
  destruct (minutesToOffset (Some m)) as [s|]; [|done].
  exists s. split; [done|]. split; [by apply is_normalized_offset_label_spec|].
  by destruct s.
Qed.

Lemma attachTz_fresh t tzid :
  Str.truthy tzid = true ->
  attachTz {| time := t; tz := None; dateOnly := false |} (Some tzid)
  = {| time := t; tz := Some {| tz_value := tzid; tz_enumerable := false |};
       dateOnly := false |}.
Proof. intros H. unfold attachTz, truthy_opt. rewrite H. reflexivity. Qed.

Lemma parseWithOffset_unfold s off :
  parseWithOffset s off =
  match (match Regex.exec_at basic_re s with
         | Some m => Some m
         | None => Regex.exec_at extended_re s
         end) with
  | None => ret None
  | Some m =>
      let f := fields_of_match m in
      match offsetLabelToMinutes off with
      | None => throw (TypeError ("Invalid offset string: " +:+ off))
      | Some totalMinutes =>
          ret (Some (attachTz
            {| time :=
                 (u ← Time.Date_UTC (Temporal.year f) (Temporal.month f - 1)
                        (Temporal.day f) (Temporal.hour f) (Temporal.minute f)
                        (Temporal.second f);
                  Some (u - totalMinutes * 60000)) ≫= Time.TimeClip;
               tz := None; dateOnly := false |}
            (minutesToOffset (Some totalMinutes))))
      end
  end.
Proof. reflexivity. Qed.

Lemma is_Some_None_inv {A} : ¬ is_Some (@None A).
Proof. by intros [? ?]. Qed.

Lemma wall_match_form s :
  is_Some (match Regex.exec_at basic_re s with
           | Some m => Some m
           | None => Regex.exec_at extended_re s
           end) ↔ WallTimeForm s.
Proof.
  rewrite FormFacts.wall_time_form_iff.
  destruct (Regex.exec_at basic_re s) as [m|].
  - split; eauto.
  - split; [by right|]. intros [H|H]; [by apply is_Some_None_inv in H | exact H].
Qed.

Lemma wall_fields_form s : is_Some (wall_fields s) ↔ WallTimeForm s.
Proof.
  rewrite FormFacts.wall_time_form_iff. unfold wall_fields.
  destruct (Regex.exec_at extended_re s) as [m|];
    destruct (Regex.exec_at basic_re s) as [m'|].
  - split; eauto.
  - split; eauto.
  - split; eauto.
  - split; [intros H | intros [H|H]]; by apply is_Some_None_inv in H.
Qed.

Lemma parseDateTimeInZone_unfold h s zone :
  parseDateTimeInZone h s zone =
  match wall_fields s with
  | None => ret None
  | Some fields =>
      let! tz := resolveZone zone in
      let! ok := isValidIana h tz in
      if negb ok then ret None
      else
        let! epochMs := lift (Temporal.toZonedDateTime_later (tzdb h) fields tz) in
        ret (Some (attachTz (new_Date epochMs) (Some zone)))
  end.
Proof. reflexivity. Qed.

(** What [parseDateTimeInZone] does, step by step. *)
Lemma parseDateTimeInZone_run h s zone st :
  parseDateTimeInZone h s zone st =
  match wall_fields s with
  | None => (Ret None, st)
  | Some fields =>
      let tz := alias_of st zone in
      if valid_zone h st tz
      then match Temporal.toZonedDateTime_later (tzdb h) fields tz with
           | Ret epochMs =>
               (Ret (Some (attachTz (new_Date epochMs) (Some zone))),
                remember h st tz)
           | Throw e => (Throw e, remember h st tz)
           end
      else (Ret None, remember h st tz)
  end.
Proof.
  rewrite parseDateTimeInZone_unfold. destruct (wall_fields s) as [f|]; [|done].
  unfold bind. rewrite resolveZone_run, isValidIana_run. cbv zeta.
  destruct (valid_zone h st (alias_of st zone)); [|done]. cbn [negb].
  unfold lift, ret. by destruct (Temporal.toZonedDateTime_later _ _ _).
Qed.

Lemma valid_zone_truthy h st z : valid_zone h st z = true -> Str.truthy z = true.
Proof.
  unfold valid_zone. intros H. apply andb_true_iff in H as [H _]. exact H.
Qed.

Lemma alias_of_truthy st zone :
  Str.truthy (alias_of st zone) = true -> Str.truthy zone = true.
Proof.
  unfold alias_of. destruct (Str.truthy zone) eqn:E; [done|]. simpl. congruence.
Qed.

End ParserFacts.


(** ** Wall-clock times around a transition *)

Module TemporalFacts.
Import Temporal Pure.

Ltac zbool :=
  repeat match goal with
         | |- context [?a <=? ?b] => destruct (Z.leb_spec a b); try lia
         | |- context [?a <? ?b] => destruct (Z.ltb_spec a b); try lia
         | |- context [?a =? ?b] => destruct (Z.eqb_spec a b); try lia
         end.

Lemma offset_in_elem trans : ∀ cur t, In (offset_in trans cur t) (cur :: List.map snd trans).
Proof.
  induction trans as [|[at_ off] trans IH]; intros cur t; simpl; [by left|].
  destruct (at_ <=? t); [|by left]. right. apply IH.
Qed.

Lemma offset_at_elem zi t : In (offset_at zi t) (all_offsets zi).
Proof. apply offset_in_elem. Qed.

(** *** Sorted lists without repetition *)

Lemma insert_sorted_In x l y : In y (insert_sorted x l) ↔ y = x ∨ In y l.
Proof.
  induction l as [|z l IH]; simpl; [intuition|].
  destruct (Z.ltb_spec x z); [simpl; intuition|].
  destruct (Z.eqb_spec x z) as [->|Hne]; simpl; [intuition|].
  rewrite IH. intuition.
Qed.

Lemma insert_sorted_sorted x l :
  StronglySorted Z.lt l -> StronglySorted Z.lt (insert_sorted x l).
Proof.
  induction 1 as [|z l Hs IH Hz]; simpl; [repeat constructor|].
  destruct (Z.ltb_spec x z) as [Hlt|Hge].
  - constructor; [by constructor|]. constructor; [done|].
    rewrite List.Forall_forall in Hz |- *. intros y Hy. specialize (Hz y Hy). lia.
  - destruct (Z.eqb_spec x z) as [->|Hne]; [by constructor|].
    constructor; [done|]. rewrite List.Forall_forall in Hz |- *.
    intros y Hy. apply insert_sorted_In in Hy as [->|Hy]; [lia | by apply Hz].
Qed.

Lemma sorted_dedupe_In l y : In y (fold_right insert_sorted [] l) ↔ In y l.
Proof.
  induction l as [|x l IH]; simpl; [done|].
  rewrite insert_sorted_In, IH. intuition.
Qed.

Lemma sorted_dedupe_sorted l : StronglySorted Z.lt (fold_right insert_sorted [] l).
Proof.
  induction l as [|x l IH]; simpl; [constructor | by apply insert_sorted_sorted].
Qed.

(** Two strictly increasing lists with the same elements are equal. *)
Lemma sorted_unique l1 : ∀ l2,
  StronglySorted Z.lt l1 -> StronglySorted Z.lt l2 ->
  (∀ x, In x l1 ↔ In x l2) -> l1 = l2.
Proof.
  induction l1 as [|a l1 IH]; intros l2 H1 H2 He.
  - destruct l2 as [|b l2]; [done|]. destruct (proj2 (He b)). by left.
  - destruct l2 as [|b l2]; [destruct (proj1 (He a)); by left|].
    apply StronglySorted_inv in H1 as [H1 Ha], H2 as [H2 Hb].
    rewrite List.Forall_forall in Ha, Hb.
    assert (a = b) as ->.
    { destruct (proj1 (He a) (or_introl eq_refl)) as [->|Hin]; [done|].
      destruct (proj2 (He b) (or_introl eq_refl)) as [->|Hin']; [done|].
      specialize (Ha b Hin'). specialize (Hb a Hin). lia. }
    f_equal. apply IH; [done|done|]. intros x. split; intros Hx.
    + destruct (proj1 (He x) (or_intror Hx)) as [<-|Hin]; [|done].
      specialize (Ha b Hx). lia.
    + destruct (proj2 (He x) (or_intror Hx)) as [<-|Hin]; [|done].
      specialize (Hb b Hx). lia.
Qed.

(** [possible_instants] lists exactly the instants that read [w] in the
    zone, in increasing order. *)
Lemma possible_instants_In zi w t :
  In t (possible_instants zi w) ↔ t + offset_at zi t = w.
Proof.
  unfold possible_instants. rewrite sorted_dedupe_In, filter_In, in_map_iff.
  rewrite Z.eqb_eq. split; [tauto|]. intros H. split; [|done].
  exists (offset_at zi t). split; [lia | apply offset_at_elem].
Qed.

Lemma possible_instants_sorted zi w :
  StronglySorted Z.lt (possible_instants zi w).
Proof. apply sorted_dedupe_sorted. Qed.

Lemma possible_instants_eq zi w l :
  StronglySorted Z.lt l -> (∀ t, In t l ↔ t + offset_at zi t = w) ->
  possible_instants zi w = l.
Proof.
  intros Hs He. apply sorted_unique; [apply possible_instants_sorted | done|].
  intros t. by rewrite possible_instants_In, He.
Qed.

(** *** One transition, with quiet days around it *)

Section Around.
Context (zi : zoneinfo) (T off1 off2 : Z).
Context (Hquiet : quiet_around zi T off1 off2).

Lemma offset_bound t : - Time.msPerDay <= offset_at zi t <= Time.msPerDay.
Proof.
  destruct Hquiet as (_ & _ & Hb). rewrite List.Forall_forall in Hb.
  apply Hb, offset_at_elem.
Qed.

Lemma offset_before t : T - 4 * Time.msPerDay <= t < T -> offset_at zi t = off1.
Proof. by destruct Hquiet as (H & _ & _); apply H. Qed.

Lemma offset_after t : T <= t <= T + 4 * Time.msPerDay -> offset_at zi t = off2.
Proof. by destruct Hquiet as (_ & H & _); apply H. Qed.

Lemma bound_off1 : - Time.msPerDay <= off1 <= Time.msPerDay.
Proof.
  rewrite <- (offset_before (T - 1)); [apply offset_bound|].
  unfold Time.msPerDay. lia.
Qed.

Lemma bound_off2 : - Time.msPerDay <= off2 <= Time.msPerDay.
Proof.
  rewrite <- (offset_after T); [apply offset_bound|].
  unfold Time.msPerDay. lia.
Qed.

(** An instant that reads a wall time within three days of [T] has one of
    the two offsets, according to its side of the transition. *)
Lemma reads_near t w :
  T - 3 * Time.msPerDay <= w <= T + 3 * Time.msPerDay ->
  t + offset_at zi t = w ->
  (t < T ∧ offset_at zi t = off1) ∨ (T <= t ∧ offset_at zi t = off2).
Proof.
  intros Hw Ht. pose proof (offset_bound t) as Hb.
  destruct (Z.lt_ge_cases t T) as [Hlt|Hge].
  - left. split; [done|]. apply offset_before. unfold Time.msPerDay in *. lia.
  - right. split; [done|]. apply offset_after. unfold Time.msPerDay in *. lia.
Qed.

(** In a gap no instant reads [w]. *)
Lemma gap_no_instant w :
  off1 < off2 -> T + off1 <= w < T + off2 -> possible_instants zi w = [].
Proof.
  intros Ho Hw. apply possible_instants_eq; [constructor|].
  intros t. split; [done|]. intros Ht.
  pose proof bound_off1. pose proof bound_off2.
  destruct (reads_near t w) as [[Hlt Hoff]|[Hge Hoff]];
    [unfold Time.msPerDay in *; lia | done | lia | lia].
Qed.

(** In a fold two instants read [w]: one before the transition, one from
    it on. *)
Lemma fold_two_instants w :
  off2 < off1 -> T + off2 <= w < T + off1 ->
  possible_instants zi w = [w - off1; w - off2].
Proof.
  intros Ho Hw. pose proof bound_off1. pose proof bound_off2.
  apply possible_instants_eq.
  - repeat constructor. lia.
  - intros t. simpl. split.
    + intros [<-|[<-|[]]].
      * rewrite offset_before; [lia|]. unfold Time.msPerDay in *. lia.
      * rewrite offset_after; [lia|]. unfold Time.msPerDay in *. lia.
    + intros Ht. destruct (reads_near t w) as [[Hlt Hoff]|[Hge Hoff]];
        [unfold Time.msPerDay in *; lia | done | left; lia | right; left; lia].
Qed.

Lemma later_in_gap w :
  off1 < off2 -> T + off1 <= w < T + off2 ->
  disambiguate_later zi w = Ret (w - off1).
Proof.
  intros Ho Hw. pose proof bound_off1. pose proof bound_off2.
  unfold disambiguate_later. rewrite gap_no_instant by done.
  rewrite (offset_before (w - Time.msPerDay))
    by (unfold Time.msPerDay in *; lia).
  rewrite (offset_after (w + Time.msPerDay))
    by (unfold Time.msPerDay in *; lia).
  rewrite (possible_instants_eq zi (w + (off2 - off1)) [w - off1]).
  - reflexivity.
  - repeat constructor.
  - intros t. simpl. split.
    + intros [<-|[]]. rewrite offset_after; [lia|].
      unfold Time.msPerDay in *. lia.
    + intros Ht. destruct (reads_near t (w + (off2 - off1)))
        as [[Hlt Hoff]|[Hge Hoff]];
        [unfold Time.msPerDay in *; lia | done | lia | left; lia].
Qed.

Lemma later_in_fold w :
  off2 < off1 -> T + off2 <= w < T + off1 ->
  disambiguate_later zi w = Ret (w - off2).
Proof.
  intros Ho Hw. unfold disambiguate_later.
  rewrite fold_two_instants by done. reflexivity.
Qed.

End Around.

Lemma single_transition_quiet T off1 off2 :
  - Time.msPerDay <= off1 <= Time.msPerDay ->
  - Time.msPerDay <= off2 <= Time.msPerDay ->
  quiet_around (single_transition T off1 off2) T off1 off2.
Proof.
  intros H1 H2. split; [|split].
  - intros t Ht. unfold offset_at. simpl. destruct (Z.leb_spec T t); [lia|done].
  - intros t Ht. unfold offset_at. simpl. destruct (Z.leb_spec T t); [done|lia].
  - unfold all_offsets. simpl. constructor; [done|]. constructor; [done|].
    constructor.
Qed.

End TemporalFacts.


(** ** Calendar fields and their decimal notation *)

Module FormatFacts.
Import Pure ParserFacts.

Lemma length_app s1 s2 :
  String.length (s1 +:+ s2) = (String.length s1 + String.length s2)%nat.
Proof.
  induction s1 as [|a s1 IH]; [done|].
  change (String a s1 +:+ s2) with (String a (s1 +:+ s2)). simpl. by rewrite IH.
Qed.

Lemma fixed_length w n : String.length (Str.fixed w n) = w.
Proof.
  revert n. induction w as [|w IH]; intros n; simpl; [done|].
  rewrite length_app, IH. simpl. lia.
Qed.

Lemma take_app s1 s2 : Str.take (String.length s1) (s1 +:+ s2) = s1.
Proof.
  induction s1 as [|a s1 IH]; [by destruct s2|].
  change (String a s1 +:+ s2) with (String a (s1 +:+ s2)). simpl. by rewrite IH.
Qed.

Lemma of_Z_four_digits_check :
  forallb (fun y => String.eqb (Str.of_Z y) (Str.fixed 4 y))
    (Z_range 1000 (Z.to_nat 9000)) = true.
Proof. vm_compute. reflexivity. Qed.

Lemma of_Z_four_digits y : 1000 <= y <= 9999 -> Str.of_Z y = Str.fixed 4 y.
Proof.
  intros Hy. pose proof of_Z_four_digits_check as H.
  rewrite forallb_forall in H. apply String.eqb_eq, H.
  apply Z_range_elem. rewrite Z2Nat.id; lia.
Qed.

Lemma pad_two_digits_check :
  forallb (fun n => String.eqb (Str.padStart0 2 (Str.of_Z n)) (Str.fixed 2 n))
    (Z_range 0 (Z.to_nat 100)) = true.
Proof. vm_compute. reflexivity. Qed.

Lemma pad_two_digits n :
  0 <= n <= 99 -> Str.padStart0 2 (Str.of_Z n) = Str.fixed 2 n.
Proof.
  intros Hn. pose proof pad_two_digits_check as H.
  rewrite forallb_forall in H. apply String.eqb_eq, H.
  apply Z_range_elem. rewrite Z2Nat.id; lia.
Qed.

Lemma month_day_check :
  forallb (fun doe =>
             let '(m, d) := month_day_of_doe doe in
             (1 <=? m) && (m <=? 12) && (1 <=? d) && (d <=? 31))
    (Z_range 0 (Z.to_nat 146097)) = true.
Proof. vm_compute. reflexivity. Qed.

Lemma civil_from_days_range z :
  let '(_, m, d) := Time.civil_from_days z in 1 <= m <= 12 ∧ 1 <= d <= 31.
Proof.
  pose proof month_day_check as H. rewrite forallb_forall in H.
  set (doe := (z + 719468) - (z + 719468) / 146097 * 146097).
  assert (0 <= doe < 146097) as Hdoe.
  { unfold doe. pose proof (Z.mod_pos_bound (z + 719468) 146097 eq_refl) as Hb.
    rewrite Z.mod_eq in Hb by done. lia. }
  assert (In doe (Z_range 0 (Z.to_nat 146097))) as Hin
    by (apply Z_range_elem; rewrite Z2Nat.id; lia).
  specialize (H doe Hin).
  unfold Time.civil_from_days. fold doe. cbv zeta.
  unfold month_day_of_doe in H. cbv zeta in H.
  repeat (apply andb_true_iff in H as [H ?]).
  repeat match goal with
         | H : (_ <=? _) = true |- _ => apply Z.leb_le in H
         end.
  lia.
Qed.

Lemma ymd_fields_range t :
  let '(_, m, d) := Time.ymd_of_time t in 0 <= m <= 99 ∧ 0 <= d <= 99.
Proof.
  unfold Time.ymd_of_time. pose proof (civil_from_days_range (Time.Day t)) as H.
  destruct (Time.civil_from_days (Time.Day t)) as [[y m] d]. lia.
Qed.

Lemma iso_date_four_digit_year y m d :
  0 <= y <= 9999 -> Time.iso_date (y, m, d) = Time.yyyy_mm_dd (y, m, d).
Proof.
  intros Hy. unfold Time.iso_date, Time.yyyy_mm_dd, Time.iso_year.
  by destruct (Z.leb_spec 0 y); [destruct (Z.leb_spec y 9999)|]; try lia.
Qed.

Lemma yyyy_mm_dd_length ymd : String.length (Time.yyyy_mm_dd ymd) = 10%nat.
Proof.
  destruct ymd as [[y m] d]. unfold Time.yyyy_mm_dd.
  rewrite !length_app, !fixed_length. reflexivity.
Qed.

Lemma slice_date_of_iso ymd rest :
  Str.slice0 10 (Time.yyyy_mm_dd ymd +:+ rest) = Time.yyyy_mm_dd ymd.
Proof.
  unfold Str.slice0. rewrite <- (yyyy_mm_dd_length ymd) at 1. apply take_app.
Qed.

End FormatFacts.


(** ** getDateKey *)

Module DateKeyFacts.
Import TzUtils Pure Shapes StateFacts ParserFacts FormatFacts DateUtils.

Local Arguments Time.ymd_of_time : simpl never.

Lemma getDateKey_dateOnly h d st :
  dateOnly d = true -> getDateKey h d st = (Ret (local_key h d), st).
Proof. intros H. unfold getDateKey. rewrite H. reflexivity. Qed.

Lemma getDateKey_no_tz h d st :
  dateOnly d = false -> truthy_opt (date_tz d) = None ->
  getDateKey h d st = (utc_key d, st).
Proof.
  intros H Ht. unfold getDateKey, utc_key. rewrite H, Ht.
  unfold bind, ret, lift. by destruct (toISOString d).
Qed.

Lemma truthy_opt_Some o s : truthy_opt o = Some s -> o = Some s ∧ Str.truthy s = true.
Proof.
  unfold truthy_opt. destruct o as [x|]; [|done].
  destruct (Str.truthy x) eqn:E; [|done]. by intros [= <-].
Qed.

(** With a [tz]: the zone comes from [resolveTZID]; the UTC key is the
    fallback when no zone results or Temporal rejects it. *)
Lemma getDateKey_tz_run h d st tzid info st1 :
  dateOnly d = false -> truthy_opt (date_tz d) = Some tzid ->
  resolveTZID h (JString tzid) st = (Ret info, st1) ->
  getDateKey h d st =
  match zone_id info with
  | None => (utc_key d, warned st1 (WarnUnresolved tzid))
  | Some id =>
      match Temporal.zoned_date_string (tzdb h) (time d) id with
      | Ret key => (Ret key, st1)
      | Throw e => (utc_key d, warned st1 (WarnFailed tzid (error_message e)))
      end
  end.
Proof.
  intros H Ht Hr. unfold getDateKey. rewrite H, Ht.
  unfold bind, try_catch. cbv beta. rewrite Hr. cbv beta iota.
  fold (zone_id info).
  destruct (zone_id info) as [id|].
  - unfold ret, lift. cbv beta iota.
    destruct (Temporal.zoned_date_string (tzdb h) (time d) id) as [key|e].
    + reflexivity.
    + unfold console_warn, utc_key. cbv beta iota.
      fold (warned st1 (WarnFailed tzid (error_message e))).
      by destruct (toISOString d).
  - unfold console_warn, ret, lift, utc_key. cbv beta iota.
    fold (warned st1 (WarnUnresolved tzid)).
    by destruct (toISOString d).
Qed.

Lemma getDateKey_tz h d st tzid :
  dateOnly d = false -> truthy_opt (date_tz d) = Some tzid ->
  ∃ st1, same_view h st st1 ∧
    getDateKey h d st =
    match zone_id (resolved h st tzid) with
    | None => (utc_key d, warned st1 (WarnUnresolved tzid))
    | Some id =>
        match Temporal.zoned_date_string (tzdb h) (time d) id with
        | Ret key => (Ret key, st1)
        | Throw e => (utc_key d, warned st1 (WarnFailed tzid (error_message e)))
        end
    end.
Proof.
  intros H Ht. destruct (truthy_opt_Some _ _ Ht) as [_ Hty].
  destruct (resolveTZID_string h tzid st Hty) as (st1 & Hr & Hs).
  exists st1. split; [done|]. by apply getDateKey_tz_run.
Qed.

Lemma local_key_four_digit_year h d t :
  time d = Some t ->
  year_between 1000 9999 (Time.ymd_of_time (t + localTZA h t)) ->
  local_key h d = Time.yyyy_mm_dd (Time.ymd_of_time (t + localTZA h t)).
Proof.
  intros Ht Hy. unfold local_key, local_ymd. rewrite Ht.
  cbn -[Time.ymd_of_time Str.of_Z Str.padStart0 String.append].
  pose proof (ymd_fields_range (t + localTZA h t)) as Hr.
  destruct (Time.ymd_of_time (t + localTZA h t)) as [[y m] dd].
  cbn -[Str.of_Z Str.padStart0 String.append Str.fixed].
  rewrite of_Z_four_digits by done.
  rewrite !pad_two_digits by lia. reflexivity.
Qed.

Lemma utc_key_four_digit_year d t :
  time d = Some t ->
  year_between 0 9999 (Time.ymd_of_time t) ->
  utc_key d = Ret (Time.yyyy_mm_dd (Time.ymd_of_time t)).
Proof.
  intros Ht Hy. unfold utc_key, toISOString. rewrite Ht. unfold res_bind.
  destruct (Time.ymd_of_time t) as [[y m] dd].
  rewrite iso_date_four_digit_year by done. by rewrite slice_date_of_iso.
Qed.

Lemma zoned_key_four_digit_year h t id zi :
  Temporal.zone_of_id (tzdb h) id = Ret zi ->
  year_between 0 9999 (Time.ymd_of_time (t + Temporal.offset_at zi t)) ->
  Temporal.zoned_date_string (tzdb h) (Some t) id
  = Ret (Time.yyyy_mm_dd (Time.ymd_of_time (t + Temporal.offset_at zi t))).
Proof.
  intros Hz Hy. unfold Temporal.zoned_date_string. rewrite Hz. unfold res_bind.
  destruct (Time.ymd_of_time _) as [[y m] dd].
  by rewrite iso_date_four_digit_year.
Qed.

(** The descriptor of a TZID: either a zone name or offset minutes, never
    both, and minutes within 14 hours. *)
Lemma classify_offset h v m :
  fst (classify h v) = Some m -> snd (classify h v) = None ∧ -840 <= m <= 840.
Proof.
  unfold classify.
  set (tz1 := if Str.truthy (cleaned h v) && _ then _ else _).
  destruct (Str.truthy tz1 && Str.startsWith "(" tz1).
  - destruct (Regex.search embedded_offset_re tz1) as [[pre om]|]; simpl.
    + destruct (offsetLabelToMinutes _) as [x|] eqn:E; simpl; [|done].
      intros [= ->]. split; [done|]. by eapply OffsetFacts.offsetLabelToMinutes_bound.
    + done.
  - simpl. destruct (Str.truthy tz1); [|done].
    destruct (offsetLabelToMinutes tz1) as [x|] eqn:E; simpl; [|done].
    intros [= ->]. split; [done|]. by eapply OffsetFacts.offsetLabelToMinutes_bound.
Qed.

Lemma iana_of_truthy h st tz z :
  iana_of h st tz = Some z -> Str.truthy z = true.
Proof.
  unfold iana_of, exact_match. destruct (truthy_opt tz) as [x|]; [|done].
  destruct (valid_zone h st (alias_of st x)) eqn:E1.
  - intros [= <-]. by eapply valid_zone_truthy.
  - destruct (valid_zone h st x) eqn:E2; [|done].
    intros [= <-]. by eapply valid_zone_truthy.
Qed.

Lemma zone_id_iana h st v z :
  iana (resolved h st v) = Some z -> zone_id (resolved h st v) = Some z.
Proof.
  intros H. unfold zone_id, truthy_opt. rewrite H.
  simpl in H. by rewrite (iana_of_truthy _ _ _ _ H).
Qed.

Lemma offset_zone_check :
  forallb (fun m => match minutesToOffset (Some m) with
                    | Some s =>
                        match Temporal.parse_offset_id s with
                        | Some off => off =? m * Time.msPerMinute
                        | None => false
                        end
                    | None => false
                    end) (Z_range (-840) 1681) = true.
Proof. vm_compute. reflexivity. Qed.

Lemma zone_id_offset h st v m :
  offsetMinutes (resolved h st v) = Some m ->
  ∃ label, zone_id (resolved h st v) = Some label
    ∧ offset (resolved h st v) = Some label
    ∧ normalized_offset_label label
    ∧ ∀ db, Temporal.zone_of_id db label
            = Ret (Temporal.fixed_zone (m * Time.msPerMinute)).
Proof.
  simpl. intros Hm. destruct (classify_offset _ _ _ Hm) as [Hs Hb].
  unfold zone_id. simpl. rewrite Hs, Hm.
  destruct (minutesToOffset_normalized m Hb) as (label & Hl & Hn & Ht).
  exists label. rewrite Hl. unfold iana_of, exact_match, truthy_opt. rewrite Ht.
  repeat split; try done.
  intros db. pose proof offset_zone_check as H. rewrite forallb_forall in H.
  assert (In m (Z_range (-840) 1681)) as Hin
    by (apply Z_range_elem; change (Z.of_nat 1681) with 1681; lia).
  specialize (H m Hin). cbv beta in H. rewrite Hl in H.
  unfold Temporal.zone_of_id.
  destruct (Temporal.parse_offset_id label) as [off|]; [|done].
  apply Z.eqb_eq in H. by subst.
Qed.

End DateKeyFacts.


(** ** The expansion engine *)

Module ExpandFacts.
Import TzUtils DateUtils Pure StateFacts DateKeyFacts Expand.

Lemma same_zones_refl h st : same_zones h st st.
Proof. by split. Qed.

Lemma same_zones_trans h st1 st2 st3 :
  same_zones h st1 st2 -> same_zones h st2 st3 -> same_zones h st1 st3.
Proof.
  intros [Ha Hv] [Ha' Hv']. split; [congruence|]. intros z. by rewrite Hv', Hv.
Qed.

Lemma same_zones_sym h st1 st2 : same_zones h st1 st2 -> same_zones h st2 st1.
Proof. intros [Ha Hv]. split; [done|]. intros z. by rewrite Hv. Qed.

Lemma same_view_zones h st st' : same_view h st st' -> same_zones h st st'.
Proof. intros (Ha & _ & Hv & _). by split. Qed.

Lemma warned_zones h st w : same_zones h st (warned st w).
Proof. by split. Qed.

Lemma alias_of_zones h st st' z :
  same_zones h st st' -> alias_of st' z = alias_of st z.
Proof. intros [Ha _]. unfold alias_of. by rewrite Ha. Qed.

Lemma resolved_zones h st st' v :
  same_zones h st st' -> resolved h st' v = resolved h st v.
Proof.
  intros Hs. unfold resolved. f_equal. unfold iana_of, exact_match.
  destruct (truthy_opt (snd (classify h v))) as [tz|]; [|done].
  rewrite (alias_of_zones _ _ _ _ Hs). destruct Hs as [_ Hv]. by rewrite !Hv.
Qed.

(** [getDateKey] only fills the cache and writes to the console. *)
Lemma getDateKey_zones h c st : same_zones h st (snd (getDateKey h c st)).
Proof.
  destruct (dateOnly c) eqn:Hd.
  { rewrite getDateKey_dateOnly by done. apply same_zones_refl. }
  destruct (truthy_opt (date_tz c)) as [tzid|] eqn:Ht.
  - destruct (getDateKey_tz h c st tzid Hd Ht) as (st1 & Hs & ->).
    apply same_view_zones in Hs.
    destruct (zone_id _) as [id|]; simpl.
    + destruct (Temporal.zoned_date_string _ _ _); simpl; [done|].
      eapply same_zones_trans; [done | apply warned_zones].
    + eapply same_zones_trans; [done | apply warned_zones].
  - rewrite getDateKey_no_tz by done. apply same_zones_refl.
Qed.

Lemma key_of_zones h st st' c :
  same_zones h st st' -> key_of h st' c = key_of h st c.
Proof.
  intros Hs. unfold key_of. destruct (dateOnly c) eqn:Hd.
  { by rewrite !getDateKey_dateOnly. }
  destruct (truthy_opt (date_tz c)) as [tzid|] eqn:Ht.
  - destruct (getDateKey_tz h c st tzid Hd Ht) as (st1 & _ & ->).
    destruct (getDateKey_tz h c st' tzid Hd Ht) as (st1' & _ & ->).
    rewrite (resolved_zones _ _ _ _ Hs).
    destruct (zone_id _) as [id|]; simpl; [|done].
    by destruct (Temporal.zoned_date_string _ _ _).
  - by rewrite !getDateKey_no_tz.
Qed.

Lemma process_candidate_run h ev r f t c st :
  process_candidate h ev r f t c st =
  (res_bind (key_of h st c) (fun key =>
   res_bind (toISOString c) (fun iso =>
   Ret (decide_candidate ev r f t c key iso))),
   snd (getDateKey h c st)).
Proof.
  unfold process_candidate, key_of, decide_candidate, bind.
  destruct (getDateKey h c st) as [[key|e] st1]; simpl; [|done].
  unfold lift. destruct (toISOString c) as [iso|e]; simpl; [|done].
  destruct (opt_excludeExdates r && excluded ev key iso); [done|].
  by destruct (in_window _ _ _ _ _).
Qed.

Lemma yield_run h ev r f t st c :
  yield h ev r f t st c =
  res_bind (key_of h st c) (fun key =>
  res_bind (toISOString c) (fun iso =>
  Ret (decide_candidate ev r f t c key iso))).
Proof. unfold yield. by rewrite process_candidate_run. Qed.

Lemma yield_zones h ev r f t st st' c :
  same_zones h st st' -> yield h ev r f t st' c = yield h ev r f t st c.
Proof. intros Hs. by rewrite !yield_run, (key_of_zones _ _ _ _ Hs). Qed.

Lemma process_candidate_zones h ev r f t c st :
  same_zones h st (snd (process_candidate h ev r f t c st)).
Proof. rewrite process_candidate_run. apply getDateKey_zones. Qed.

(** The list [process_all] returns pairs every candidate, in order, with
    what it yields. *)
Lemma process_all_Ret h ev r f t cs : ∀ st l st',
  process_all h ev r f t cs st = (Ret l, st') ->
  Forall2 (fun c p => fst p = c ∧ yield h ev r f t st c = Ret (snd p)) cs l.
Proof.
  induction cs as [|c cs IH]; intros st l st' H.
  - injection H as <- _. constructor.
  - cbn [process_all] in H. unfold bind in H.
    pose proof (process_candidate_zones h ev r f t c st) as Hz.
    unfold yield.
    destruct (process_candidate h ev r f t c st) as [[o|e] st1] eqn:Hc; [|done].
    destruct (process_all h ev r f t cs st1) as [[rest|e] st2] eqn:Hr; [|done].
    injection H as <- _. constructor.
    + by rewrite Hc.
    + apply IH in Hr. eapply Forall2_impl; [exact Hr|].
      intros c' p [Hp Hy]. split; [done|].
      simpl in Hz. fold (yield h ev r f t st c').
      by rewrite <- (yield_zones _ _ _ _ _ _ _ _ Hz).
Qed.

Lemma process_all_Throw h ev r f t cs : ∀ st e st',
  process_all h ev r f t cs st = (Throw e, st') ->
  ∃ c, c ∈ cs ∧ yield h ev r f t st c = Throw e.
Proof.
  induction cs as [|c cs IH]; intros st e st' H; [done|].
  cbn [process_all] in H. unfold bind in H.
  pose proof (process_candidate_zones h ev r f t c st) as Hz.
  destruct (process_candidate h ev r f t c st) as [[o|e1] st1] eqn:Hc.
  - destruct (process_all h ev r f t cs st1) as [[rest|e2] st2] eqn:Hr; [done|].
    injection H as -> _. apply IH in Hr as (c' & Hin & Hy).
    exists c'. split; [by right|]. simpl in Hz.
    by rewrite <- (yield_zones _ _ _ _ _ _ _ _ Hz).
  - injection H as -> _. exists c. split; [by left|]. unfold yield. by rewrite Hc.
Qed.

(** Sorting keeps the instances. *)
Lemma insert_by_start_Permutation x l : insert_by_start x l ≡ₚ x :: l.
Proof.
  induction l as [|y l IH]; simpl; [done|].
  destruct (time_le _ _); [done|]. rewrite IH. apply perm_swap.
Qed.

Lemma sort_by_start_Permutation l : sort_by_start l ≡ₚ l.
Proof.
  induction l as [|x l IH]; simpl; [done|].
  rewrite insert_by_start_Permutation. by constructor.
Qed.

(** The result of [expand_window]: a rearrangement of what the candidates
    yield. *)
Lemma expand_window_Ret h ev r f t st out st' :
  expand_window h ev r f t st = (Ret out, st') ->
  ∃ l, Forall2 (fun c p => fst p = c ∧ yield h ev r f t st c = Ret (snd p))
         (candidates ev f t) l
       ∧ out ≡ₚ emitted l.
Proof.
  unfold expand_window, bind.
  destruct (process_all h ev r f t (candidates ev f t) st) as [[l|e] st1] eqn:H;
    [|done].
  intros [= <- _]. exists l. split; [by eapply process_all_Ret|].
  apply sort_by_start_Permutation.
Qed.

Lemma emitted_elem i (l : list (JsDate * option Instance)) :
  i ∈ emitted l ↔ ∃ c, (c, Some i) ∈ l.
Proof.
  unfold emitted. rewrite list_elem_of_omap. split.
  - intros ([c o] & Hin & Ho). simpl in Ho. subst. by exists c.
  - intros [c Hin]. by exists (c, Some i).
Qed.

(** Every instance of the result comes from a candidate, and every instance
    a candidate yields is in the result. *)
Lemma expand_window_elem h ev r f t st out st' :
  expand_window h ev r f t st = (Ret out, st') ->
  ∀ i, i ∈ out ↔
       ∃ c, c ∈ candidates ev f t ∧ yield h ev r f t st c = Ret (Some i).
Proof.
  intros H i. apply expand_window_Ret in H as (l & Hl & Hp).
  rewrite Hp, emitted_elem. split.
  - intros [c Hin]. apply list_elem_of_lookup in Hin as [k Hk].
    destruct (Forall2_lookup_r _ _ _ _ _ Hl Hk) as (c' & Hc' & Hfst & Hy).
    simpl in Hfst, Hy. exists c'. split; [|done].
    apply list_elem_of_lookup. eauto.
  - intros (c & Hin & Hy). apply list_elem_of_lookup in Hin as [k Hk].
    destruct (Forall2_lookup_l _ _ _ _ _ Hl Hk) as ([c' o] & Hp' & Hfst & Hy').
    simpl in Hfst, Hy'. rewrite Hy in Hy'. injection Hy' as <-.
    exists c'. apply list_elem_of_lookup. eauto.
Qed.

Lemma time_le_Some a b x y :
  a = Some x -> b = Some y -> time_le a b = true ↔ x <= y.
Proof. intros -> ->. simpl. apply Z.leb_le. Qed.

Lemma time_le_true a b :
  time_le a b = true ↔ ∃ x y, a = Some x ∧ b = Some y ∧ x <= y.
Proof.
  destruct a as [x|], b as [y|]; simpl; split; try done.
  - intros H. exists x, y. by apply Z.leb_le in H.
  - intros (x' & y' & [= <-] & [= <-] & H). by apply Z.leb_le.
  - by intros (? & ? & ? & ? & ?).
  - by intros (? & ? & ? & ? & ?).
  - by intros (? & ? & ? & ? & ?).
Qed.

(** The window filter is the window condition. *)
Lemma in_window_condition ongoing f t i :
  in_window ongoing f t (i_start i) (i_end i) = true
  ↔ window_condition ongoing f t i.
Proof.
  unfold in_window, window_condition. destruct ongoing.
  - rewrite andb_true_iff, !time_le_true. split.
    + intros [(s & t' & Hs & [= <-] & Hst) (f' & e & [= <-] & He & Hfe)].
      by exists s, e.
    + intros (s & e & Hs & He & Hst & Hfe). split.
      * by exists s, t.
      * by exists f, e.
  - rewrite andb_true_iff, !time_le_true. split.
    + intros [(f' & s & [= <-] & Hs & Hfs) (s' & t' & Hs' & [= <-] & Hst)].
      exists s. split; [done|]. rewrite Hs in Hs'. injection Hs' as <-. lia.
    + intros (s & Hs & Hfs & Hst). split.
      * by exists f, s.
      * by exists s, t.
Qed.

End ExpandFacts.


(** ** Offset labels (section 4.1, step 5) *)

Section OffsetLabels.
Import TzUtils Pure Shapes ShapeFacts OffsetFacts.

Lemma listed_is_offset_shape t sg h m :
  ListedShape t sg h m -> OffsetShape t sg h m.
Proof.
  intros [sg' hs Hs Hh | sg' hs Hs Hh | sg' hs ms Hs Hh Hm | sg' hs ms Hs Hh Hm].
  - constructor; auto.
  - constructor; auto.
  - apply (Shape_hours_minutes sg' hs ":" ms); auto.
  - apply (Shape_hours_minutes sg' hs "" ms); auto.
Qed.

Lemma short_hour_with_colon_not_listed sg h m :
  ¬ ListedShape "+5:30" sg h m.
Proof.
  intros H. remember "+5:30" as t eqn:Et.
  destruct H as [sg' hs Hs Hh | sg' hs Hs Hh | sg' hs ms Hs Hh Hm | sg' hs ms Hs Hh Hm].
  - apply digits1_inv in Hh as (a & -> & _). discriminate.
  - apply digits2_inv in Hh as (a & b & -> & _). discriminate.
  - apply digits2_inv in Hh as (a & b & -> & _ & Hb).
    unfold str2 in Et. cbv [String.append] in Et.
    injection Et as _ _ Eb _. subst b. discriminate.
  - apply digits2_inv in Hh as (a & b & -> & _ & Hb).
    unfold str2 in Et. cbv [String.append] in Et.
    injection Et as _ _ Eb _. subst b. discriminate.
Qed.

(** C8, as stated, fails: ["+5:30"] is none of the four listed forms
    (+H, +HH, +HH:MM, +HHMM), its hours and minutes are in range, and yet
    the parser returns a value, 330 minutes. *)
Lemma offsetLabelToMinutes_unlisted_form :
  offsetLabelToMinutes "+5:30" = Some 330
  ∧ offset_trimmed "+5:30" = "+5:30"
  ∧ ∀ sg h m, ¬ ListedShape (offset_trimmed "+5:30") sg h m.
Proof.
  split; [reflexivity|]. split; [reflexivity|].
  intros sg h m. change (offset_trimmed "+5:30") with "+5:30".
  apply short_hour_with_colon_not_listed.
Qed.

(** The stripping at work: the prefix and the parentheses go together with
    UTC or GMT; a bare parenthesis in front is not stripped. *)
Example offsetLabelToMinutes_examples :
  List.map offsetLabelToMinutes
    ["+05:30"; "UTC-4"; "(UTC+02:00)"; "gmt +14"; "+0530"; "+530"; "-7";
     "(+02:00)"; "+14:01"; "+15"; "+05:60"; "05:30"; "+05:3"; ""]
  = [Some 330; Some (-240); Some 120; Some 840; Some 330; Some 330; Some (-420);
     None; None; None; None; None; None; None].
Proof. reflexivity. Qed.

(** C8, amended.  [offsetLabelToMinutes] strips the input (surrounding
    white space, a leading optional parenthesis + UTC or GMT in any case +
    optional closing parenthesis + white space, then one closing parenthesis
    at the end): this is [offset_trimmed].  It returns sign * (hours * 60 +
    minutes) exactly when the stripped text is a sign, one or two hour
    digits and optionally two minute digits with or without a colon, with
    hours at most 14, zero minutes at 14 hours and minutes below 60; it
    returns no value exactly when the stripped text has no such shape or has
    it with hours or minutes out of range.  The four listed forms are among
    the accepted shapes. *)
Theorem offsetLabelToMinutes_spec (s : string) :
  (∀ v, offsetLabelToMinutes s = Some v ↔
        ∃ sg h m, OffsetShape (offset_trimmed s) sg h m ∧ offset_in_range h m
                  ∧ v = sg * (h * 60 + m))
  ∧ (offsetLabelToMinutes s = None ↔
       (∀ sg h m, ¬ OffsetShape (offset_trimmed s) sg h m)
       ∨ (∃ sg h m, OffsetShape (offset_trimmed s) sg h m ∧ ¬ offset_in_range h m))
  ∧ (∀ sg h m, ListedShape (offset_trimmed s) sg h m ->
               OffsetShape (offset_trimmed s) sg h m).
Proof.
  split; [|split].
  - intros v. apply offsetLabelToMinutes_Some.
  - apply offsetLabelToMinutes_None.
  - intros sg h m. apply listed_is_offset_shape.
Qed.

Lemma offsetLabelToMinutes_spec_witness :
  ListedShape (offset_trimmed "(UTC+05:30)") 1 5 30
  ∧ OffsetShape (offset_trimmed "(UTC+05:30)") 1 5 30
  ∧ offsetLabelToMinutes "(UTC+05:30)" = Some 330.
Proof.
  assert (ListedShape (offset_trimmed "(UTC+05:30)") 1 5 30) as HL.
  { change (offset_trimmed "(UTC+05:30)") with (String "+" ("05" +:+ ":" +:+ "30")).
    apply (Listed_HH_MM "+" "05" "30"); [reflexivity | by split | by split]. }
  destruct (offsetLabelToMinutes_spec "(UTC+05:30)") as (HS & _ & HO).
  split; [exact HL|]. split; [exact (HO _ _ _ HL)|].
  apply HS. exists 1, 5, 30. split; [exact (HO _ _ _ HL)|].
  split; [unfold offset_in_range; lia | reflexivity].
Defined.

End OffsetLabels.

(** ** The zone resolver (section 4.1) *)

Section ZoneResolver.
Import TzUtils DateUtils Pure Shapes StateFacts DateKeyFacts.

Lemma unquote_plain s :
  Str.startsWith (String dquote "") s = false -> unquote s = s.
Proof.
  destruct s as [|a s]; [done|]. intros H.
  assert (Chars.chr dquote a = false) as Ha.
  { unfold Chars.chr. destruct (Ascii.eqb_spec a dquote) as [->|Hne]; [|done].
    by destruct s. }
  unfold unquote, Regex.exec_at, quoted_re.
  cbn -[Chars.chr dquote]. by rewrite Ha.
Qed.

Lemma cleaned_plain h s :
  (String.eqb s "tzone://Microsoft/Custom"
   || Str.startsWith "Customized Time Zone" s
   || Str.startsWith "tzone://Microsoft/" s) = false ->
  Str.startsWith (String dquote "") s = false ->
  cleaned h s = s.
Proof. intros H1 H2. unfold cleaned. rewrite H1. by apply unquote_plain. Qed.

(** C9.  [resolveTZID] returns a descriptor for every value and every state
    of the module: it never throws (the [RangeError] of [Intl] is caught
    inside [isValidIana]) and it only fills the validity cache.  A value that
    is not a non-empty string gives the descriptor with all five fields
    undefined.  For a non-empty string the descriptor is [resolved]: its
    [original] field is the TZID after the host-zone substitution and the
    removal of surrounding quotes (the TZID itself when neither applies), and
    when the TZID maps neither to offset minutes nor to a valid zone name,
    [iana], [offset], [offsetMinutes] and [etc] are all undefined.  The caller
    in this repository, [getDateKey], then uses the UTC key and logs one
    warning. *)
Theorem resolveTZID_total (h : host) (v : jsval) (st : tzstate) :
  ∃ info st',
    resolveTZID h v st = (Ret info, st') ∧ same_view h st st'
    ∧ ((∀ s, v = JString s -> Str.truthy s = false) -> info = empty_info)
    ∧ (∀ s, v = JString s -> Str.truthy s = true ->
         info = resolved h st s
         ∧ original info = Some (cleaned h s)
         ∧ ((String.eqb s "tzone://Microsoft/Custom"
             || Str.startsWith "Customized Time Zone" s
             || Str.startsWith "tzone://Microsoft/" s) = false ->
            Str.startsWith (String dquote "") s = false ->
            original info = Some s)
         ∧ (fst (classify h s) = None ->
            iana_of h st (snd (classify h s)) = None ->
            iana info = None ∧ offset info = None ∧ offsetMinutes info = None
            ∧ etc info = None
            ∧ ∀ d, dateOnly d = false -> truthy_opt (date_tz d) = Some s ->
                   getDateKey h d st
                   = (utc_key d, warned st' (WarnUnresolved s)))).
Proof.
  destruct v as [| | | |s|];
    try (exists empty_info, st; split; [reflexivity|];
         split; [apply same_view_refl|]; split; [done|]; intros s [=]).
  destruct (Str.truthy s) eqn:Ht.
  - destruct (resolveTZID_string h s st Ht) as (st' & Hr & Hs).
    exists (resolved h st s), st'. split; [done|]. split; [done|].
    split; [intros H; specialize (H s eq_refl); congruence|].
    intros s' [= <-] _. split; [done|]. split; [done|]. split.
    + intros H1 H2. simpl. by rewrite cleaned_plain.
    + intros Hc Hi. simpl. rewrite Hc, Hi. repeat (split; [done|]).
      intros d Hd Htz. rewrite (getDateKey_tz_run h d st s _ _ Hd Htz Hr).
      unfold zone_id. simpl. by rewrite Hc, Hi.
  - exists empty_info, st. split; [by apply resolveTZID_other; intros ? [= <-]|].
    split; [apply same_view_refl|]. split; [done|].
    intros s' [= <-] Ht'. congruence.
Qed.

Lemma resolveTZID_total_witness :
  ∃ st',
    resolveTZID Scenario.utc_host (JString "Nowhere/Land") Scenario.fresh
    = (Ret {| original := Some "Nowhere/Land"; iana := None; offset := None;
              offsetMinutes := None; etc := None |}, st')
    ∧ getDateKey Scenario.utc_host
        (Scenario.zoned_date 1699488000000 "Nowhere/Land") Scenario.fresh
      = (Ret "2023-11-09", warned st' (WarnUnresolved "Nowhere/Land")).
Proof.
  destruct (resolveTZID_total Scenario.utc_host (JString "Nowhere/Land")
              Scenario.fresh) as (info & st' & Hr & _ & _ & H).
  destruct (H "Nowhere/Land" eq_refl eq_refl) as (Hi & _ & _ & Hu).
  destruct (Hu eq_refl eq_refl) as (_ & _ & _ & _ & Hk).
  exists st'. split.
  - rewrite Hr, Hi. reflexivity.
  - exact (Hk (Scenario.zoned_date 1699488000000 "Nowhere/Land") eq_refl eq_refl).
Defined.

End ZoneResolver.


(** ** The wall-time converter (section 4.2) *)

Section WallTimeConverter.
Import TzUtils Pure Shapes StateFacts ParserFacts TemporalFacts OffsetFacts.

(** C10.  [parseWithOffset] looks at the date-time string first: a string
    that has neither the compact form (YYYYMMDDTHHmm with optional seconds)
    nor the extended form (YYYY-MM-DD, T or space, HH:mm with optional :ss)
    gives no instant, whatever the offset is.  A string that has one of the
    forms with an offset [offsetLabelToMinutes] cannot convert throws a
    [TypeError] with the message 'Invalid offset string: ' followed by the
    offset; with a convertible offset an instant is returned.  The module
    state is untouched in all three cases. *)
Theorem parseWithOffset_outcomes (s off : string) (st : tzstate) :
  (¬ WallTimeForm s -> parseWithOffset s off st = (Ret None, st))
  ∧ (WallTimeForm s -> offsetLabelToMinutes off = None ->
     parseWithOffset s off st
     = (Throw (TypeError ("Invalid offset string: " +:+ off)), st))
  ∧ (WallTimeForm s -> ∀ m, offsetLabelToMinutes off = Some m ->
     ∃ d, parseWithOffset s off st = (Ret (Some d), st)).
Proof.
  rewrite parseWithOffset_unfold. rewrite <- wall_match_form.
  destruct (match Regex.exec_at basic_re s with
            | Some m => Some m
            | None => Regex.exec_at extended_re s
            end) as [m|].
  - split; [intros H; exfalso; apply H; eauto|].
    split.
    + intros _ ->. reflexivity.
    + intros _ mins ->. eexists. reflexivity.
  - split; [done|]. split; intros H; by apply is_Some_None_inv in H.
Qed.

Lemma compact_example_form : WallTimeForm "20231108T160000".
Proof.
  left. exists "2023", "11", "08", "16", "00", "00".
  repeat split; auto. right. by split.
Qed.

Lemma parseWithOffset_outcomes_witness :
  ¬ WallTimeForm "2023-11-08"
  ∧ parseWithOffset "2023-11-08" "bogus" Scenario.fresh = (Ret None, Scenario.fresh)
  ∧ WallTimeForm "20231108T160000"
  ∧ offsetLabelToMinutes "bogus" = None
  ∧ parseWithOffset "20231108T160000" "bogus" Scenario.fresh
    = (Throw (TypeError "Invalid offset string: bogus"), Scenario.fresh)
  ∧ offsetLabelToMinutes "-08:00" = Some (-480)
  ∧ ∃ d, parseWithOffset "20231108T160000" "-08:00" Scenario.fresh
         = (Ret (Some d), Scenario.fresh).
Proof.
  assert (¬ WallTimeForm "2023-11-08") as Hn.
  { rewrite <- wall_match_form. vm_compute. apply is_Some_None_inv. }
  destruct (parseWithOffset_outcomes "2023-11-08" "bogus" Scenario.fresh)
    as (H1 & _ & _).
  destruct (parseWithOffset_outcomes "20231108T160000" "bogus" Scenario.fresh)
    as (_ & H2 & _).
  destruct (parseWithOffset_outcomes "20231108T160000" "-08:00" Scenario.fresh)
    as (_ & _ & H3).
  split; [exact Hn|]. split; [exact (H1 Hn)|].
  split; [exact compact_example_form|]. split; [reflexivity|].
  split; [exact (H2 compact_example_form eq_refl)|]. split; [reflexivity|].
  exact (H3 compact_example_form (-480) eq_refl).
Defined.

(** C7, as stated, fails for [parseDateTimeInZone]: after
    [linkAlias('Etc/Unknown', 'Etc/GMT')] the wall time 2025-01-01T12:00 in
    zone 'Etc/Unknown' is converted with the zone the alias stands for, but
    the instant carries [tz] = 'Etc/Unknown', the argument as given, while
    the module's own resolver names the zone 'Etc/GMT'. *)
Lemma parseDateTimeInZone_keeps_alias :
  fst (parseDateTimeInZone Scenario.utc_host "20250101T120000" "Etc/Unknown"
         Scenario.aliased)
  = Ret (Some (Scenario.zoned_date 1735732800000 "Etc/Unknown"))
  ∧ alias_of Scenario.aliased "Etc/Unknown" = "Etc/GMT"
  ∧ ∃ info, fst (resolveTZID Scenario.utc_host (JString "Etc/Unknown")
                   Scenario.aliased) = Ret info
            ∧ iana info = Some "Etc/GMT"
            ∧ iana info ≠ date_tz (Scenario.zoned_date 1735732800000 "Etc/Unknown").
Proof.
  split; [vm_compute; reflexivity|]. split; [vm_compute; reflexivity|].
  eexists. split; [vm_compute; reflexivity|]. split; [reflexivity|]. discriminate.
Qed.

(** C7, amended.  An instant produced by [parseDateTimeInZone] carries, as a
    non-enumerable [tz], the zone argument exactly as it was given (aliases
    are resolved for the conversion only); an instant produced by
    [parseWithOffset] carries the offset in normalised form: a sign, two hour
    digits, a colon and two minute digits, as [minutesToOffset] prints the
    minutes read from the offset argument. *)
Theorem parsers_attach_tz :
  (∀ h s zone st d st',
     parseDateTimeInZone h s zone st = (Ret (Some d), st') ->
     tz d = Some {| tz_value := zone; tz_enumerable := false |})
  ∧ (∀ s off st d st',
       parseWithOffset s off st = (Ret (Some d), st') ->
       ∃ m label,
         offsetLabelToMinutes off = Some m
         ∧ minutesToOffset (Some m) = Some label
         ∧ normalized_offset_label label
         ∧ tz d = Some {| tz_value := label; tz_enumerable := false |}).
Proof.
  split.
  - intros h s zone st d st'. rewrite parseDateTimeInZone_run.
    destruct (wall_fields s) as [f|]; [|done]. cbv zeta.
    destruct (valid_zone h st (alias_of st zone)) eqn:Hv; [|done].
    destruct (Temporal.toZonedDateTime_later _ _ _) as [ms|e]; [|done].
    intros [= <- _]. unfold new_Date. rewrite attachTz_fresh; [done|].
    by eapply alias_of_truthy, valid_zone_truthy.
  - intros s off st d st'. rewrite parseWithOffset_unfold.
    destruct (match Regex.exec_at basic_re s with
              | Some m => Some m
              | None => Regex.exec_at extended_re s
              end) as [mres|]; [|done].
    cbv zeta. destruct (offsetLabelToMinutes off) as [m|] eqn:Hm; [|done].
    intros [= <- _].
    destruct (minutesToOffset_normalized m
                (offsetLabelToMinutes_bound _ _ Hm)) as (label & Hl & Hn & Ht).
    exists m, label. repeat (split; [done|]).
    unfold minutesToOffset in Hl. injection Hl as Hl.
    rewrite Hl, attachTz_fresh; done.
Qed.

Lemma parsers_attach_tz_witness :
  tz (Scenario.zoned_date 1699488000000 "America/Los_Angeles")
  = Some {| tz_value := "America/Los_Angeles"; tz_enumerable := false |}
  ∧ ∃ m label,
      offsetLabelToMinutes "UTC-8" = Some m
      ∧ minutesToOffset (Some m) = Some label
      ∧ normalized_offset_label label
      ∧ tz (Scenario.zoned_date 1699488000000 "-08:00")
        = Some {| tz_value := label; tz_enumerable := false |}.
Proof.
  destruct parsers_attach_tz as [H1 H2]. split.
  - apply (H1 Scenario.utc_host "20231108T160000" "America/Los_Angeles"
             Scenario.fresh _
             (snd (parseDateTimeInZone Scenario.utc_host "20231108T160000"
                     "America/Los_Angeles" Scenario.fresh))).
    vm_compute. reflexivity.
  - apply (H2 "20231108T160000" "UTC-8" Scenario.fresh _ Scenario.fresh).
    vm_compute. reflexivity.
Defined.

End WallTimeConverter.


(** ** Daylight-saving transitions (section 4.2) *)

Section Transitions.
Import TzUtils Pure Shapes StateFacts ParserFacts TemporalFacts.

(** C6.  The code at a wall time in a gap.  In America/Los_Angeles the
    clocks went from 02:00 to 03:00 on 2023-03-12 at the instant
    1678615200000 (10:00:00Z): no instant reads 02:30, the last instant
    before the change has offset -8h and the instant of the change has offset
    -7h, so the instant immediately after the gap is 1678615200000.  For the
    wall time 02:30 [parseDateTimeInZone] returns 1678617000000 (10:30:00Z,
    which reads 03:30), half an hour later than the first valid instant
    after the gap that the comment in the function announces. *)
Lemma later_in_gap_is_not_the_first_instant :
  wall_fields "20230312T023000"
  = Some {| Temporal.year := 2023; Temporal.month := 3; Temporal.day := 12;
            Temporal.hour := 2; Temporal.minute := 30; Temporal.second := 0 |}
  ∧ Temporal.possible_instants Scenario.LosAngeles 1678588200000 = []
  ∧ Temporal.offset_at Scenario.LosAngeles (1678615200000 - 1) = -28800000
  ∧ Temporal.offset_at Scenario.LosAngeles 1678615200000 = -25200000
  ∧ fst (parseDateTimeInZone Scenario.utc_host "20230312T023000"
           "America/Los_Angeles" Scenario.fresh)
    = Ret (Some (Scenario.zoned_date 1678617000000 "America/Los_Angeles"))
  ∧ 1678617000000 ≠ 1678615200000.
Proof. repeat split; try (vm_compute; reflexivity). discriminate. Qed.

(** X28.  What the disambiguation 'later' gives [parseDateTimeInZone]
    around a transition.  Take a zone whose offset is [off1] during the four
    days before the instant [T] and [off2] from [T] on for four days (no
    offset of the zone exceeding a day), and a wall time [w] read from the
    string (as milliseconds on the wall clock) in that zone, valid for
    [Intl]:
    - in the gap ([off1 < off2], [T + off1 <= w < T + off2]) no instant reads
      [w], and the result is [w - off1]: the wall time read with the offset
      in force before the gap, that is the wall time moved forward by the
      length of the gap and read with the new offset.  It lies at or after
      the transition, less than the length of the gap after it;
    - in the fold ([off2 < off1], [T + off2 <= w < T + off1]) the two
      instants [w - off1] and [w - off2] read [w], the first before the
      transition and the second from it on, and the result is the second. *)
Theorem parseDateTimeInZone_later (h : host) (s zone : string) (st : tzstate)
    (f : Temporal.fields) (zi : Temporal.zoneinfo) (w T off1 off2 : Z) :
  wall_fields s = Some f ->
  Temporal.PlainDateTime_from f = Ret w ->
  valid_zone h st (alias_of st zone) = true ->
  Temporal.zone_of_id (tzdb h) (alias_of st zone) = Ret zi ->
  quiet_around zi T off1 off2 ->
  (off1 < off2 -> T + off1 <= w < T + off2 ->
     Temporal.possible_instants zi w = []
     ∧ fst (parseDateTimeInZone h s zone st)
       = Ret (Some {| time := Time.TimeClip (w - off1);
                      tz := Some {| tz_value := zone; tz_enumerable := false |};
                      dateOnly := false |})
     ∧ w - off1 = (w + (off2 - off1)) - off2
     ∧ T <= w - off1 < T + (off2 - off1))
  ∧ (off2 < off1 -> T + off2 <= w < T + off1 ->
     Temporal.possible_instants zi w = [w - off1; w - off2]
     ∧ w - off1 < T <= w - off2
     ∧ fst (parseDateTimeInZone h s zone st)
       = Ret (Some {| time := Time.TimeClip (w - off2);
                      tz := Some {| tz_value := zone; tz_enumerable := false |};
                      dateOnly := false |})).
Proof.
  intros Hf Hw Hv Hz Hq.
  assert (Str.truthy zone = true) as Hty
    by (by eapply alias_of_truthy, valid_zone_truthy).
  assert (∀ ms, Temporal.disambiguate_later zi w = Ret ms ->
          fst (parseDateTimeInZone h s zone st)
          = Ret (Some {| time := Time.TimeClip ms;
                         tz := Some {| tz_value := zone; tz_enumerable := false |};
                         dateOnly := false |})) as Hrun.
  { intros ms Hd. rewrite parseDateTimeInZone_run, Hf. cbv zeta. rewrite Hv.
    unfold Temporal.toZonedDateTime_later. rewrite Hw, Hz. simpl res_bind.
    rewrite Hd. simpl fst. unfold new_Date. by rewrite attachTz_fresh. }
  split.
  - intros Hlt Hgap. split; [by eapply gap_no_instant|].
    split; [by eapply Hrun, later_in_gap|]. lia.
  - intros Hlt Hfold. split; [by eapply fold_two_instants|].
    split; [lia|]. by eapply Hrun, later_in_fold.
Qed.

Lemma LosAngeles_spring_2023 :
  quiet_around Scenario.LosAngeles 1678615200000 (-28800000) (-25200000).
Proof.
  split; [|split].
  - intros t Ht. unfold Time.msPerDay in Ht. unfold Temporal.offset_at. simpl.
    destruct (Z.leb_spec 1678615200000 t); [lia | reflexivity].
  - intros t Ht. unfold Time.msPerDay in Ht. unfold Temporal.offset_at. simpl.
    destruct (Z.leb_spec 1678615200000 t); [|lia].
    destruct (Z.leb_spec 1699174800000 t); [lia | reflexivity].
  - unfold Temporal.all_offsets, Time.msPerDay. simpl.
    repeat (constructor; [lia|]). constructor.
Qed.

Lemma parseDateTimeInZone_later_witness :
  fst (parseDateTimeInZone Scenario.utc_host "20230312T023000"
         "America/Los_Angeles" Scenario.fresh)
  = Ret (Some (Scenario.zoned_date 1678617000000 "America/Los_Angeles")).
Proof.
  destruct (parseDateTimeInZone_later Scenario.utc_host "20230312T023000"
              "America/Los_Angeles" Scenario.fresh
              {| Temporal.year := 2023; Temporal.month := 3; Temporal.day := 12;
                 Temporal.hour := 2; Temporal.minute := 30; Temporal.second := 0 |}
              Scenario.LosAngeles
              1678588200000 1678615200000 (-28800000) (-25200000)
              eq_refl eq_refl eq_refl eq_refl LosAngeles_spring_2023)
    as [Hgap _].
  destruct (Hgap ltac:(lia) ltac:(lia)) as (_ & Hres & _).
  exact Hres.
Defined.

End Transitions.

(** ** The date-key encoder (section 4.3) *)

Section DateKey.
Import TzUtils DateUtils Pure Shapes StateFacts ParserFacts DateKeyFacts FormatFacts.

(** C1.  The code at a year of five digits: the instant 253402300800000 is
    10000-01-01T00:00:00Z, [toISOString] prints its year with a sign and six
    digits, and the first ten characters of that are ['+010000-01'], which
    is no YYYY-MM-DD date at all, against the function's own description of
    its result. *)
Lemma getDateKey_year_10000 :
  Time.ymd_of_time 253402300800000 = (10000, 1, 1)
  ∧ getDateKey Scenario.utc_host (Scenario.plain_date 253402300800000)
      Scenario.fresh
    = (Ret "+010000-01", Scenario.fresh)
  ∧ ∀ ymd, Time.yyyy_mm_dd ymd ≠ "+010000-01".
Proof.
  split; [vm_compute; reflexivity|]. split; [vm_compute; reflexivity|].
  intros [[y m] d] H. unfold Time.yyyy_mm_dd, Str.fixed in H.
  cbv [String.append] in H. discriminate.
Qed.

(** The date-only branch prints the year as it is, where the other two
    branches pad it to four digits: for the first day of the year 999 on a
    UTC host, ['999-01-01'] against ['0999-01-01']. *)
Lemma getDateKey_unpadded_year :
  Time.ymd_of_time (-30641760000000) = (999, 1, 1)
  ∧ getDateKey Scenario.utc_host (Scenario.whole_day_date (-30641760000000))
      Scenario.fresh
    = (Ret "999-01-01", Scenario.fresh)
  ∧ getDateKey Scenario.utc_host (Scenario.plain_date (-30641760000000))
      Scenario.fresh
    = (Ret "0999-01-01", Scenario.fresh).
Proof. repeat split; vm_compute; reflexivity. Qed.

(** X27.  The three rules of [getDateKey], in their order.  For a valid
    date with time value [t], each rule yields the YYYY-MM-DD key of a
    calendar date whose year has four digits:
    - [dateOnly]: the date of [t] on the host's local clock, for years 1000
      to 9999 (the year is printed without padding);
    - otherwise, a [tz] that [resolveTZID] resolves to a zone name Temporal
      knows, or to offset minutes: the date of [t] in that zone, or at that
      fixed offset, for years 0 to 9999;
    - otherwise (no [tz], or a [tz] that resolves to neither, which is also
      logged): the date of [t] in UTC, for years 0 to 9999. *)
Theorem getDateKey_rules (h : host) (d : JsDate) (st : tzstate) (t : Z) :
  time d = Some t ->
  (dateOnly d = true ->
   year_between 1000 9999 (Time.ymd_of_time (t + localTZA h t)) ->
   getDateKey h d st
   = (Ret (Time.yyyy_mm_dd (Time.ymd_of_time (t + localTZA h t))), st))
  ∧ (dateOnly d = false ->
     ∀ tzid info st1,
       truthy_opt (date_tz d) = Some tzid ->
       resolveTZID h (JString tzid) st = (Ret info, st1) ->
       (∀ z zi, iana info = Some z ->
          Temporal.zone_of_id (tzdb h) z = Ret zi ->
          year_between 0 9999 (Time.ymd_of_time (t + Temporal.offset_at zi t)) ->
          getDateKey h d st
          = (Ret (Time.yyyy_mm_dd
                    (Time.ymd_of_time (t + Temporal.offset_at zi t))), st1))
       ∧ (∀ m, offsetMinutes info = Some m ->
            year_between 0 9999 (Time.ymd_of_time (t + m * Time.msPerMinute)) ->
            getDateKey h d st
            = (Ret (Time.yyyy_mm_dd
                      (Time.ymd_of_time (t + m * Time.msPerMinute))), st1))
       ∧ (iana info = None -> offsetMinutes info = None ->
          year_between 0 9999 (Time.ymd_of_time t) ->
          getDateKey h d st
          = (Ret (Time.yyyy_mm_dd (Time.ymd_of_time t)),
             warned st1 (WarnUnresolved tzid))))
  ∧ (dateOnly d = false -> truthy_opt (date_tz d) = None ->
     year_between 0 9999 (Time.ymd_of_time t) ->
     getDateKey h d st = (Ret (Time.yyyy_mm_dd (Time.ymd_of_time t)), st)).
Proof.
  intros Ht. split; [|split].
  - intros Hd Hy. rewrite getDateKey_dateOnly by done.
    by rewrite (local_key_four_digit_year h d t).
  - intros Hd tzid info st1 Htz Hr.
    pose proof (getDateKey_tz_run h d st tzid info st1 Hd Htz Hr) as Hk.
    destruct (truthy_opt_Some _ _ Htz) as [_ Hty].
    destruct (resolveTZID_string h tzid st Hty) as (st1' & Hr' & _).
    rewrite Hr in Hr'. injection Hr' as Hi _.
    split; [|split].
    + intros z zi Hz Hzi Hy. rewrite Hk. rewrite Hi in Hz |- *.
      rewrite (zone_id_iana _ _ _ _ Hz), Ht.
      by rewrite (zoned_key_four_digit_year h t z zi).
    + intros m Hm Hy. rewrite Hk. rewrite Hi in Hm |- *.
      destruct (zone_id_offset _ _ _ _ Hm) as (label & -> & _ & _ & Hzone).
      rewrite Ht.
      rewrite (zoned_key_four_digit_year h t label
                 (Temporal.fixed_zone (m * Time.msPerMinute))); [done|done|].
      exact Hy.
    + intros Hz Hm Hy. rewrite Hk. unfold zone_id. rewrite Hz.
      assert (offset info = None) as ->.
      { rewrite Hi in Hm |- *. simpl in Hm |- *. by rewrite Hm. }
      simpl. by rewrite (utc_key_four_digit_year d t).
  - intros Hd Htz Hy. rewrite getDateKey_no_tz by done.
    by rewrite (utc_key_four_digit_year d t).
Qed.

Lemma getDateKey_rules_witness :
  getDateKey Scenario.utc_host (Scenario.whole_day_date 1699488000000)
    Scenario.fresh = (Ret "2023-11-09", Scenario.fresh)
  ∧ fst (getDateKey Scenario.utc_host
           (Scenario.zoned_date 1699488000000 "America/Los_Angeles")
           Scenario.fresh) = Ret "2023-11-08"
  ∧ fst (getDateKey Scenario.utc_host
           (Scenario.zoned_date 1699488000000 "UTC+01:00")
           Scenario.fresh) = Ret "2023-11-09"
  ∧ getDateKey Scenario.utc_host (Scenario.plain_date 1699488000000)
      Scenario.fresh = (Ret "2023-11-09", Scenario.fresh).
Proof.
  split; [|split; [|split]].
  - destruct (getDateKey_rules Scenario.utc_host
                (Scenario.whole_day_date 1699488000000) Scenario.fresh
                1699488000000 eq_refl) as (H & _ & _).
    apply (H eq_refl). vm_compute. split; discriminate.
  - destruct (getDateKey_rules Scenario.utc_host
                (Scenario.zoned_date 1699488000000 "America/Los_Angeles")
                Scenario.fresh 1699488000000 eq_refl) as (_ & H & _).
    destruct (H eq_refl "America/Los_Angeles"
                (resolved Scenario.utc_host Scenario.fresh "America/Los_Angeles")
                (snd (resolveTZID Scenario.utc_host (JString "America/Los_Angeles")
                        Scenario.fresh))
                eq_refl ltac:(vm_compute; reflexivity)) as (Hz & _ & _).
    rewrite (Hz "America/Los_Angeles" Scenario.LosAngeles
               ltac:(vm_compute; reflexivity) ltac:(vm_compute; reflexivity)
               ltac:(vm_compute; split; discriminate)).
    reflexivity.
  - destruct (getDateKey_rules Scenario.utc_host
                (Scenario.zoned_date 1699488000000 "UTC+01:00")
                Scenario.fresh 1699488000000 eq_refl) as (_ & H & _).
    destruct (H eq_refl "UTC+01:00"
                (resolved Scenario.utc_host Scenario.fresh "UTC+01:00")
                (snd (resolveTZID Scenario.utc_host (JString "UTC+01:00")
                        Scenario.fresh))
                eq_refl ltac:(vm_compute; reflexivity)) as (_ & Hm & _).
    rewrite (Hm 60 ltac:(vm_compute; reflexivity)
               ltac:(vm_compute; split; discriminate)).
    reflexivity.
  - destruct (getDateKey_rules Scenario.utc_host
                (Scenario.plain_date 1699488000000) Scenario.fresh
                1699488000000 eq_refl) as (_ & _ & H).
    apply (H eq_refl eq_refl). vm_compute. split; discriminate.
Defined.

End DateKey.


(** ** The expansion engine (section 4.5) *)

Section Expansion.
Import TzUtils DateUtils Pure StateFacts DateKeyFacts ExpandFacts Expand Scenario.

Lemma expand_run h ev r st f t :
  validate r = Ret (f, t) -> expand h ev r st = expand_window h ev r f t st.
Proof. intros H. unfold expand, bind, lift. by rewrite H. Qed.

Lemma valid_instant_None a :
  valid_instant a = None ↔
  (∃ v, a = ArgOther v) ∨ (∃ d, a = ArgDate d ∧ time d = None).
Proof.
  destruct a as [v|d]; simpl; split; eauto.
  - intros [[v' [=]]|[d' [[= <-] H]]]. done.
Qed.

(** C5.  [expand] checks its window before anything else.  A [from] or a
    [to] that is not a [Date], or is a [Date] holding [NaN], raises a
    [TypeError]; two valid instants with [from] after [to] raise a
    [RangeError]; in both cases the error is the outcome of the call and the
    module state is untouched.  Two valid instants in order pass, whatever
    the event: the call then is the expansion over that window, and nothing
    else is checked. *)
Theorem expand_validation (h : host) (ev : Event) (r : Request) (st : tzstate) :
  (∀ a, valid_instant a = None ↔
        (∃ v, a = ArgOther v) ∨ (∃ d, a = ArgDate d ∧ time d = None))
  ∧ (valid_instant (from r) = None ∨ valid_instant (to r) = None ->
     ∃ msg, expand h ev r st = (Throw (TypeError msg), st))
  ∧ (∀ f t, valid_instant (from r) = Some f -> valid_instant (to r) = Some t ->
       t < f -> ∃ msg, expand h ev r st = (Throw (RangeError msg), st))
  ∧ (∀ f t, valid_instant (from r) = Some f -> valid_instant (to r) = Some t ->
       f <= t -> expand h ev r st = expand_window h ev r f t st).
Proof.
  split; [apply valid_instant_None|]. unfold expand, bind, lift, validate.
  split; [|split].
  - intros [H|H]; rewrite H.
    + eexists. reflexivity.
    + destruct (valid_instant (from r)); eexists; reflexivity.
  - intros f t -> -> Hlt. destruct (Z.ltb_spec t f); [|lia]. eexists. reflexivity.
  - intros f t -> -> Hle. destruct (Z.ltb_spec t f); [lia|]. reflexivity.
Qed.

Lemma expand_validation_witness :
  (∃ msg, expand utc_host daily_event
            {| from := ArgOther (JString "invalid");
               to := ArgDate (plain_date jan10_2025);
               excludeExdates := None; includeOverrides := None;
               expandOngoing := None |} fresh
          = (Throw (TypeError msg), fresh))
  ∧ (∃ msg, expand utc_host daily_event (request jan10_2025 jan5_2025 None) fresh
            = (Throw (RangeError msg), fresh))
  ∧ expand utc_host daily_event (request jan5_2025 jan10_2025 None) fresh
    = expand_window utc_host daily_event (request jan5_2025 jan10_2025 None)
        jan5_2025 jan10_2025 fresh.
Proof.
  split; [|split].
  - destruct (expand_validation utc_host daily_event
                {| from := ArgOther (JString "invalid");
                   to := ArgDate (plain_date jan10_2025);
                   excludeExdates := None; includeOverrides := None;
                   expandOngoing := None |} fresh) as (_ & H & _).
    apply H. left. reflexivity.
  - destruct (expand_validation utc_host daily_event
                (request jan10_2025 jan5_2025 None) fresh) as (_ & _ & H & _).
    apply (H jan10_2025 jan5_2025 eq_refl eq_refl). unfold jan5_2025, jan10_2025. lia.
  - destruct (expand_validation utc_host daily_event
                (request jan5_2025 jan10_2025 None) fresh) as (_ & _ & _ & H).
    apply (H jan5_2025 jan10_2025 eq_refl eq_refl). unfold jan5_2025, jan10_2025. lia.
Defined.

Lemma yield_Some h ev r f t st c i :
  yield h ev r f t st c = Ret (Some i) ↔
  ∃ key iso, key_of h st c = Ret key ∧ toISOString c = Ret iso
    ∧ (opt_excludeExdates r && excluded ev key iso) = false
    ∧ i = build_instance ev r key iso c
    ∧ in_window (opt_expandOngoing r) f t (i_start i) (i_end i) = true.
Proof.
  rewrite yield_run. unfold decide_candidate. split.
  - destruct (key_of h st c) as [key|]; [|done].
    destruct (toISOString c) as [iso|]; [|done]. simpl.
    destruct (opt_excludeExdates r && excluded ev key iso) eqn:E; [done|].
    destruct (in_window _ _ _ _ _) eqn:Ew; [|done].
    intros [= <-]. by exists key, iso.
  - intros (key & iso & -> & -> & E & -> & Ew). simpl. by rewrite E, Ew.
Qed.

Lemma excluded_false ev key iso :
  excluded ev key iso = false ↔ exdate ev !! key = None ∧ exdate ev !! iso = None.
Proof.
  unfold excluded. rewrite orb_false_iff, !bool_decide_eq_false.
  rewrite <- !eq_None_not_Some. done.
Qed.

Lemma excluded_true ev key iso :
  excluded ev key iso = true ↔
  is_Some (exdate ev !! key) ∨ is_Some (exdate ev !! iso).
Proof. unfold excluded. by rewrite orb_true_iff, !bool_decide_eq_true. Qed.

(** C4.  With the window [from .. to] validated, an instance is in the
    result exactly when it passes the window filter: every instance of the
    result satisfies the window condition ([from <= start <= to] without
    [expandOngoing]; [start <= to] and [end >= from] with it), and the
    instance of every candidate that the EXDATE test lets through is in the
    result if and only if it satisfies that condition.  For the whole-day
    daily event starting on 2025-01-01 and the window 2025-01-05 to
    2025-01-10 there are six instances without [expandOngoing] and seven with
    it, the additional one being the occurrence of 2025-01-04. *)
Theorem expand_window_filter (h : host) (ev : Event) (r : Request)
    (st st' : tzstate) (f t : Z) (out : list Instance) :
  validate r = Ret (f, t) ->
  expand h ev r st = (Ret out, st') ->
  (∀ i, i ∈ out -> window_condition (opt_expandOngoing r) f t i)
  ∧ (∀ c key iso,
       c ∈ candidates ev f t ->
       key_of h st c = Ret key -> toISOString c = Ret iso ->
       (opt_excludeExdates r && excluded ev key iso) = false ->
       (build_instance ev r key iso c ∈ out
        ↔ window_condition (opt_expandOngoing r) f t (build_instance ev r key iso c)))
  ∧ (start_stamps (instances_of
       (expand utc_host daily_event (request jan5_2025 jan10_2025 (Some false)) fresh))
     = [Ret "2025-01-05T00:00:00.000Z"; Ret "2025-01-06T00:00:00.000Z";
        Ret "2025-01-07T00:00:00.000Z"; Ret "2025-01-08T00:00:00.000Z";
        Ret "2025-01-09T00:00:00.000Z"; Ret "2025-01-10T00:00:00.000Z"]
     ∧ start_stamps (instances_of
         (expand utc_host daily_event (request jan5_2025 jan10_2025 (Some true)) fresh))
       = [Ret "2025-01-04T00:00:00.000Z"; Ret "2025-01-05T00:00:00.000Z";
          Ret "2025-01-06T00:00:00.000Z"; Ret "2025-01-07T00:00:00.000Z";
          Ret "2025-01-08T00:00:00.000Z"; Ret "2025-01-09T00:00:00.000Z";
          Ret "2025-01-10T00:00:00.000Z"]).
Proof.
  intros Hv He. rewrite (expand_run _ _ _ _ _ _ Hv) in He.
  pose proof (expand_window_elem _ _ _ _ _ _ _ _ He) as Hel.
  split; [|split].
  - intros i Hi. apply Hel in Hi as (c & _ & Hy).
    apply yield_Some in Hy as (key & iso & _ & _ & _ & _ & Hw).
    by apply in_window_condition.
  - intros c key iso Hc Hk Hiso Hex. rewrite <- in_window_condition. split.
    + intros Hi. apply Hel in Hi as (c' & _ & Hy).
      by apply yield_Some in Hy as (key' & iso' & _ & _ & _ & _ & Hw).
    + intros Hw. apply Hel. exists c. split; [done|].
      apply yield_Some. by exists key, iso.
  - split; vm_compute; reflexivity.
Qed.

Lemma expand_window_filter_witness :
  let r := request jan5_2025 jan10_2025 (Some true) in
  let out := instances_of (expand utc_host daily_event r fresh) in
  (∀ i, i ∈ out -> window_condition true jan5_2025 jan10_2025 i)
  ∧ length out = 7%nat.
Proof.
  intros r out.
  destruct (expand_window_filter utc_host daily_event r fresh
              (snd (expand utc_host daily_event r fresh))
              jan5_2025 jan10_2025 out eq_refl
              ltac:(vm_compute; reflexivity)) as (H & _ & _).
  split; [exact H | reflexivity].
Defined.

End Expansion.


(** ** Excluded dates and overrides (section 4.5, steps 2b and 2c) *)

Section ExdatesAndOverrides.
Import TzUtils DateUtils Pure StateFacts DateKeyFacts ExpandFacts Expand Scenario.

Lemma inherit_metadata_same ev c :
  tz c = tz (start (base ev)) -> dateOnly c = dateOnly (start (base ev)) ->
  inherit_metadata ev c = c.
Proof. intros H1 H2. unfold inherit_metadata. rewrite <- H1, <- H2. by destruct c. Qed.

Lemma inherit_metadata_iso ev c : toISOString (inherit_metadata ev c) = toISOString c.
Proof. done. Qed.

(** An instance that is not an override is the base event on the candidate
    itself, and nothing is stored in [recurrences] for the candidate when
    overrides are on. *)
Lemma build_instance_plain ev r key iso c :
  isOverride (build_instance ev r key iso c) = false ->
  i_start (build_instance ev r key iso c) = inherit_metadata ev c
  ∧ i_event (build_instance ev r key iso c) = base ev
  ∧ (opt_includeOverrides r = true ->
     recurrences ev !! key = None ∧ recurrences ev !! iso = None).
Proof.
  unfold build_instance, override_for.
  destruct (opt_includeOverrides r).
  - destruct (recurrences ev !! key); [done|].
    destruct (recurrences ev !! iso); [done|]. done.
  - done.
Qed.



(** Membership in a computed list of instances, from a boolean test. *)
Lemma found_in (P : Instance -> bool) (l : list Instance) :
  existsb P l = true -> ∃ i, i ∈ l ∧ P i = true.
Proof.
  intros H. apply existsb_exists in H as (i & Hin & HP).
  exists i. split; [by apply list_elem_of_In | done].
Qed.

Lemma plain_on_true h st k iso i :
  plain_on h st k iso i = true ->
  isOverride i = false ∧ key_of h st (i_start i) = Ret k
  ∧ toISOString (i_start i) = Ret iso.
Proof.
  unfold plain_on. intros H. apply andb_true_iff in H as [Ho H].
  apply negb_true_iff in Ho. split; [done|].
  destruct (key_of h st (i_start i)) as [k'|]; [|done].
  destruct (toISOString (i_start i)) as [iso'|]; [|done].
  apply andb_true_iff in H as [H1 H2].
  apply String.eqb_eq in H1 as ->. by apply String.eqb_eq in H2 as ->.
Qed.

(** C2, as stated, fails: its consequence P2 does not hold, and a candidate
    that matches neither form of key is not always emitted.
    - A moved override.  The daily event has EXDATE 2025-01-07 and an
      override that moves the occurrence of 2025-01-08 to 14:00Z on
      2025-01-07.  The candidate of 2025-01-07 is skipped, the candidate of
      2025-01-08 is not, and the override's own start is used: the result has
      an instance whose start has date key 2025-01-07, a key of [exdate].
    - A start whose date key is not its candidate's.  The weekly 16:00 Los
      Angeles event has its EXDATE stored under the date key 2023-11-08
      only.  The rule's candidate 2023-11-09T00:00:00Z carries no zone, so
      its date key is 2023-11-09 and it is not skipped; the instance's start
      is the candidate with the zone of the event's start, and its date key
      is 2023-11-08, a key of [exdate]; the instance is not an override.
    - The window.  The candidate of 2025-01-04 of the whole-day daily event
      (delivered because the window is widened by a day) matches no key of
      the empty [exdate] and is not emitted for the window 2025-01-05 to
      2025-01-10. *)
Lemma excluded_date_key_on_emitted_start :
  (let r := request jan6_2025 jan10_2025 None in
   let out := instances_of (expand utc_host moved_onto_exdate_event r fresh) in
   opt_excludeExdates r = true
   ∧ is_Some (exdate moved_onto_exdate_event !! "2025-01-07")
   ∧ start_stamps out
     = [Ret "2025-01-06T10:00:00.000Z"; Ret "2025-01-07T14:00:00.000Z"]
   ∧ ∃ i, i ∈ out ∧ key_of utc_host fresh (i_start i) = Ret "2025-01-07")
  ∧ (let r := request oct20_2023 nov20_2023 None in
     let out := instances_of (expand utc_host weekly_la_date_key_only r fresh) in
     opt_excludeExdates r = true
     ∧ is_Some (exdate weekly_la_date_key_only !! "2023-11-08")
     ∧ candidates weekly_la_date_key_only oct20_2023 nov20_2023
       = List.map plain_date
           [1698274800000; 1698879600000; 1699488000000; 1700092800000]
     ∧ key_of utc_host fresh (plain_date 1699488000000) = Ret "2023-11-09"
     ∧ ∃ i, i ∈ out ∧ isOverride i = false
            ∧ key_of utc_host fresh (i_start i) = Ret "2023-11-08"
            ∧ toISOString (i_start i) = Ret "2023-11-09T00:00:00.000Z")
  ∧ (let r := request jan5_2025 jan10_2025 None in
     let c := plain_date (jan1_2025 + 3 * Time.msPerDay) in
     candidates daily_event jan5_2025 jan10_2025
     = c :: List.map (fun k => plain_date (jan1_2025 + k * Time.msPerDay))
              (Z_range 4 6)
     ∧ key_of utc_host fresh c = Ret "2025-01-04"
     ∧ toISOString c = Ret "2025-01-04T00:00:00.000Z"
     ∧ exdate daily_event = ∅
     ∧ yield utc_host daily_event r jan5_2025 jan10_2025 fresh c = Ret None).
Proof.
  split; [|split].
  - intros r out. split; [reflexivity|]. split; [by eexists|].
    split; [vm_compute; reflexivity|].
    destruct (found_in (fun i => match key_of utc_host fresh (i_start i) with
                                 | Ret k => String.eqb k "2025-01-07"
                                 | Throw _ => false
                                 end) out) as (i & Hin & Hk);
      [vm_compute; reflexivity|].
    exists i. split; [done|].
    destruct (key_of utc_host fresh (i_start i)) as [k|]; [|done].
    by apply String.eqb_eq in Hk as ->.
  - intros r out. split; [reflexivity|]. split; [by eexists|].
    split; [vm_compute; reflexivity|]. split; [vm_compute; reflexivity|].
    destruct (found_in (plain_on utc_host fresh "2023-11-08"
                          "2023-11-09T00:00:00.000Z") out) as (i & Hin & Hp);
      [vm_compute; reflexivity|].
    exists i. split; [done|]. by apply plain_on_true.
  - intros r c. repeat split; vm_compute; reflexivity.
Qed.

(** C2, amended.  With [excludeExdates] on and the window validated:
    - a candidate whose date key or whose full ISO timestamp is a key of
      [exdate] is skipped, and any other candidate goes on to the override
      and window steps;
    - every instance of the result comes from a candidate whose date key and
      ISO timestamp are both absent from [exdate]; when the instance is not
      an override, its start is that candidate with the zone and [dateOnly]
      of the event's start, so for every key [K] of [exdate] the start is not
      the instant with ISO timestamp [K], and its date key is not [K]
      provided the start has the date key of its candidate (which it has, in
      particular, when the candidate carries the same [tz] and [dateOnly] as
      the event's start);
    - the instance of a candidate matching neither form is in the result
      when it satisfies the window condition.
    For the weekly 16:00 America/Los_Angeles event with EXDATE
    2023-11-08T16:00 local, the result over 2023-10-20 .. 2023-11-20 has no
    instance at 2023-11-09T00:00:00.000Z and keeps the adjacent weeks. *)
Theorem expand_exdates (h : host) (ev : Event) (r : Request)
    (st st' : tzstate) (f t : Z) (out : list Instance) :
  opt_excludeExdates r = true ->
  validate r = Ret (f, t) ->
  expand h ev r st = (Ret out, st') ->
  (∀ c key iso,
     key_of h st c = Ret key -> toISOString c = Ret iso ->
     (is_Some (exdate ev !! key) ∨ is_Some (exdate ev !! iso) ->
      yield h ev r f t st c = Ret None)
     ∧ (exdate ev !! key = None -> exdate ev !! iso = None ->
        yield h ev r f t st c
        = Ret (if in_window (opt_expandOngoing r) f t
                    (i_start (build_instance ev r key iso c))
                    (i_end (build_instance ev r key iso c))
               then Some (build_instance ev r key iso c) else None)))
  ∧ (∀ i, i ∈ out ->
       ∃ c key iso,
         c ∈ candidates ev f t
         ∧ key_of h st c = Ret key ∧ toISOString c = Ret iso
         ∧ exdate ev !! key = None ∧ exdate ev !! iso = None
         ∧ i = build_instance ev r key iso c
         ∧ (isOverride i = false ->
            i_start i = inherit_metadata ev c
            ∧ (∀ K, is_Some (exdate ev !! K) -> toISOString (i_start i) ≠ Ret K)
            ∧ (key_of h st (i_start i) = key_of h st c ->
               ∀ K, is_Some (exdate ev !! K) -> key_of h st (i_start i) ≠ Ret K)
            ∧ (tz c = tz (start (base ev)) ->
               dateOnly c = dateOnly (start (base ev)) ->
               key_of h st (i_start i) = key_of h st c)))
  ∧ (∀ c key iso,
       c ∈ candidates ev f t ->
       key_of h st c = Ret key -> toISOString c = Ret iso ->
       exdate ev !! key = None -> exdate ev !! iso = None ->
       window_condition (opt_expandOngoing r) f t (build_instance ev r key iso c) ->
       build_instance ev r key iso c ∈ out)
  ∧ start_stamps (instances_of
      (expand utc_host weekly_la_event (request oct20_2023 nov20_2023 None) fresh))
    = [Ret "2023-10-25T23:00:00.000Z"; Ret "2023-11-01T23:00:00.000Z";
       Ret "2023-11-16T00:00:00.000Z"].
Proof.
  intros Hx Hv He. rewrite (expand_run _ _ _ _ _ _ Hv) in He.
  pose proof (expand_window_elem _ _ _ _ _ _ _ _ He) as Hel.
  split; [|split; [|split]].
  - intros c key iso Hk Hiso. rewrite yield_run, Hk, Hiso. simpl.
    unfold decide_candidate. rewrite Hx. simpl. split.
    + intros H. apply excluded_true in H. by rewrite H.
    + intros H1 H2.
      assert (excluded ev key iso = false) as -> by (by apply excluded_false).
      done.
  - intros i Hi. apply Hel in Hi as (c & Hc & Hy).
    apply yield_Some in Hy as (key & iso & Hk & Hiso & Hex & -> & Hw).
    rewrite Hx in Hex. simpl in Hex. apply excluded_false in Hex as [H1 H2].
    exists c, key, iso. repeat (split; [done|]).
    intros Ho. destruct (build_instance_plain _ _ _ _ _ Ho) as (Hs & _ & _).
    rewrite Hs. split; [done|]. split; [|split].
    + intros K [x HK] HisoK. rewrite inherit_metadata_iso, Hiso in HisoK.
      injection HisoK as ->. by rewrite H2 in HK.
    + intros Hsame K [x HK] HkK. rewrite Hsame, Hk in HkK.
      injection HkK as ->. by rewrite H1 in HK.
    + intros Htz Hd. by rewrite inherit_metadata_same.
  - intros c key iso Hc Hk Hiso H1 H2 Hw. apply Hel. exists c. split; [done|].
    apply yield_Some. exists key, iso. repeat (split; [done|]).
    split; [rewrite Hx; simpl; by apply excluded_false|].
    split; [done|]. by apply in_window_condition.
  - vm_compute. reflexivity.
Qed.

Lemma expand_exdates_witness :
  let r := request oct20_2023 nov20_2023 None in
  let ev := weekly_la_event in
  let out := instances_of (expand utc_host ev r fresh) in
  (∀ i, i ∈ out ->
     ∃ c key iso,
       c ∈ candidates ev oct20_2023 nov20_2023
       ∧ key_of utc_host fresh c = Ret key ∧ toISOString c = Ret iso
       ∧ exdate ev !! key = None ∧ exdate ev !! iso = None
       ∧ i = build_instance ev r key iso c
       ∧ (isOverride i = false ->
          i_start i = inherit_metadata ev c
          ∧ (∀ K, is_Some (exdate ev !! K) -> toISOString (i_start i) ≠ Ret K)
          ∧ (key_of utc_host fresh (i_start i) = key_of utc_host fresh c ->
             ∀ K, is_Some (exdate ev !! K) ->
                  key_of utc_host fresh (i_start i) ≠ Ret K)
          ∧ (tz c = tz (start (base ev)) ->
             dateOnly c = dateOnly (start (base ev)) ->
             key_of utc_host fresh (i_start i) = key_of utc_host fresh c)))
  ∧ yield utc_host ev r oct20_2023 nov20_2023 fresh
      (plain_date 1699488000000) = Ret None
  ∧ key_of utc_host fresh (inherit_metadata ev (plain_date 1698274800000))
    = key_of utc_host fresh (plain_date 1698274800000).
Proof.
  intros r ev out.
  destruct (expand_exdates utc_host ev r fresh
              (snd (expand utc_host ev r fresh))
              oct20_2023 nov20_2023 out eq_refl eq_refl
              ltac:(vm_compute; reflexivity)) as (Hskip & Hout & _).
  split; [exact Hout|]. split; [|vm_compute; reflexivity].
  destruct (Hskip (plain_date 1699488000000) "2023-11-09"
              "2023-11-09T00:00:00.000Z" ltac:(vm_compute; reflexivity)
              ltac:(vm_compute; reflexivity)) as [H _].
  apply H. right. by eexists.
Defined.




End ExdatesAndOverrides.


(** ** The calendar, checked day by day over one 400-year era *)

Module CalendarChecks.
Import Pure ParserFacts FormatFacts.

Lemma is_leap_period y k : Time.is_leap (y + k * 400) = Time.is_leap y.
Proof.
  unfold Time.is_leap.
  replace (y + k * 400) with (y + (k * 100) * 4) at 1 by ring.
  replace (y + k * 400) with (y + (k * 4) * 100) at 1 by ring.
  by rewrite !Z.mod_add.
Qed.

Lemma days_in_month_period y k m :
  Time.days_in_month (y + k * 400) m = Time.days_in_month y m.
Proof. unfold Time.days_in_month. by rewrite is_leap_period. Qed.

Lemma era_check :
  forallb (fun doe =>
     let yoe := (doe - doe / 1460 + doe / 36524 - doe / 146096) / 365 in
     let doy := doe - (365 * yoe + yoe / 4 - yoe / 100) in
     let mp := (5 * doy + 2) / 153 in
     let d := doy - (153 * mp + 2) / 5 + 1 in
     let m := if mp <? 10 then mp + 3 else mp - 9 in
     (0 <=? yoe) && (yoe <=? 399) && ((m + 9) mod 12 =? mp)
     && (yoe * 365 + yoe / 4 - yoe / 100 + ((153 * mp + 2) / 5 + d - 1) =? doe)
     && (1 <=? m) && (m <=? 12) && (1 <=? d)
     && (d <=? Time.days_in_month (yoe + (if m <=? 2 then 1 else 0)) m))
    (Z_range 0 (Z.to_nat 146097)) = true.
Proof. vm_compute. reflexivity. Qed.

Lemma date_check :
  forallb (fun yoe => forallb (fun m => forallb (fun d =>
     negb (d <=? Time.days_in_month (yoe + (if m <=? 2 then 1 else 0)) m)
     || (let mp0 := (m + 9) mod 12 in
         let doe := yoe * 365 + yoe / 4 - yoe / 100 + ((153 * mp0 + 2) / 5 + d - 1) in
         let yoe' := (doe - doe / 1460 + doe / 36524 - doe / 146096) / 365 in
         let doy := doe - (365 * yoe' + yoe' / 4 - yoe' / 100) in
         let mp := (5 * doy + 2) / 153 in
         (0 <=? doe) && (doe <=? 146096) && (yoe' =? yoe)
         && ((if mp <? 10 then mp + 3 else mp - 9) =? m)
         && (doy - (153 * mp + 2) / 5 + 1 =? d)))
    (Z_range 1 31)) (Z_range 1 12)) (Z_range 0 400) = true.
Proof. vm_compute. reflexivity. Qed.

End CalendarChecks.


(** ** The calendar: day numbers and civil dates are inverse *)

Module CalendarFacts.
Import Pure ParserFacts FormatFacts CalendarChecks.

(** [civil_from_days] yields a date of the calendar, and [days_from_civil]
    takes it back to the day number. *)
Lemma civil_roundtrip z :
  let '(y, m, d) := Time.civil_from_days z in
  Time.days_from_civil y m d = z
  ∧ 1 <= m <= 12 ∧ 1 <= d <= Time.days_in_month y m
  ∧ z / 146097 * 400 - 2000 <= y <= z / 146097 * 400 + 2400.
Proof.
  pose proof era_check as H. rewrite forallb_forall in H.
  unfold Time.civil_from_days.
  set (z' := z + 719468). set (era := z' / 146097).
  set (doe := z' - era * 146097).
  assert (0 <= doe < 146097) as Hdoe.
  { unfold doe, era. pose proof (Z.mod_pos_bound z' 146097 eq_refl) as Hb.
    rewrite Z.mod_eq in Hb by done. lia. }
  assert (In doe (Z_range 0 (Z.to_nat 146097))) as Hin
    by (apply Z_range_elem; rewrite Z2Nat.id; lia).
  specialize (H doe Hin). cbv zeta in H. cbv zeta.
  set (yoe := (doe - doe / 1460 + doe / 36524 - doe / 146096) / 365) in *.
  set (doy := doe - (365 * yoe + yoe / 4 - yoe / 100)) in *.
  set (mp := (5 * doy + 2) / 153) in *.
  set (d := doy - (153 * mp + 2) / 5 + 1) in *.
  set (m := if mp <? 10 then mp + 3 else mp - 9) in *.
  repeat (apply andb_true_iff in H as [H ?]).
  repeat match goal with
         | H : (_ <=? _) = true |- _ => apply Z.leb_le in H
         | H : (_ =? _) = true |- _ => apply Z.eqb_eq in H
         end.
  assert (era * 400 <= yoe + era * 400 < era * 400 + 400) as Hy by lia.
  assert ((yoe + era * 400) / 400 = era) as Hera.
  { symmetry. apply (Z.div_unique _ _ _ yoe); lia. }
  assert (z / 146097 - 5 <= era <= z / 146097 + 5) as Hez.
  { unfold era, z'. Z.div_mod_to_equations. lia. }
  split; [|split; [lia|split]].
  - unfold Time.days_from_civil.
    replace (if m <=? 2 then (if m <=? 2 then yoe + era * 400 + 1 else yoe + era * 400) - 1
             else (if m <=? 2 then yoe + era * 400 + 1 else yoe + era * 400))
      with (yoe + era * 400) by (destruct (m <=? 2); lia).
    cbv zeta. rewrite Hera.
    replace (yoe + era * 400 - era * 400) with yoe by lia.
    match goal with Hm : (m + 9) mod 12 = mp |- _ => rewrite Hm end.
    unfold doe, z' in *. lia.
  - split; [lia|].
    match goal with Hd : d <= Time.days_in_month _ m |- _ => revert Hd end.
    destruct (m <=? 2).
    + replace (yoe + era * 400 + 1) with (yoe + 1 + era * 400) by lia.
      by rewrite days_in_month_period.
    + replace (yoe + 0) with yoe by lia. by rewrite days_in_month_period.
  - destruct (m <=? 2); lia.
Qed.

(** [civil_from_days] reads back a date of the calendar from its day
    number. *)
Lemma days_roundtrip y m d :
  1 <= m <= 12 -> 1 <= d <= Time.days_in_month y m ->
  Time.civil_from_days (Time.days_from_civil y m d) = (y, m, d).
Proof.
  intros Hm Hd. pose proof date_check as H. rewrite forallb_forall in H.
  set (y' := if m <=? 2 then y - 1 else y).
  set (era := y' / 400). set (yoe := y' - era * 400).
  assert (0 <= yoe < 400) as Hyoe.
  { unfold yoe, era. pose proof (Z.mod_pos_bound y' 400 eq_refl) as Hb.
    rewrite Z.mod_eq in Hb by done. lia. }
  assert (d <= 31) as Hd31.
  { revert Hd. unfold Time.days_in_month.
    repeat match goal with |- context [if ?b then _ else _] => destruct b end; lia. }
  specialize (H yoe (Z_range_elem 0 400 yoe ltac:(lia))).
  rewrite forallb_forall in H.
  specialize (H m (Z_range_elem 1 12 m ltac:(lia))).
  rewrite forallb_forall in H.
  specialize (H d (Z_range_elem 1 31 d ltac:(lia))).
  assert (Time.days_in_month (yoe + (if m <=? 2 then 1 else 0)) m
          = Time.days_in_month y m) as Hdim.
  { replace y with (yoe + (if m <=? 2 then 1 else 0) + era * 400)
      by (unfold yoe, y'; destruct (m <=? 2); lia).
    by rewrite days_in_month_period. }
  rewrite Hdim in H.
  destruct (Z.leb_spec d (Time.days_in_month y m)) as [_|?]; [|lia].
  cbn [negb orb] in H. cbv zeta in H.
  unfold Time.days_from_civil, Time.civil_from_days. cbv zeta.
  fold y'. fold era. fold yoe.
  set (mp0 := (m + 9) mod 12) in *.
  set (doe := yoe * 365 + yoe / 4 - yoe / 100 + ((153 * mp0 + 2) / 5 + d - 1)) in *.
  repeat (apply andb_true_iff in H as [H ?]).
  repeat match goal with
         | H : (_ <=? _) = true |- _ => apply Z.leb_le in H
         | H : (_ =? _) = true |- _ => apply Z.eqb_eq in H
         end.
  replace (era * 146097 + doe - 719468 + 719468) with (doe + era * 146097) by lia.
  rewrite Z.div_add by done. rewrite (Z.div_small doe) by lia.
  replace (doe + era * 146097 - (0 + era) * 146097) with doe by lia.
  set (yoe' := (doe - doe / 1460 + doe / 36524 - doe / 146096) / 365) in *.
  set (doy := doe - (365 * yoe' + yoe' / 4 - yoe' / 100)) in *.
  set (mp := (5 * doy + 2) / 153) in *.
  repeat match goal with Heq : _ = _ |- _ => rewrite Heq end.
  do 2 f_equal. unfold yoe, y'. destruct (m <=? 2); lia.
Qed.

(** The time of day of a whole second splits into hours, minutes and
    seconds. *)
Lemma time_of_day_fields wall :
  wall mod 1000 = 0 ->
  let w := Time.TimeWithinDay wall in
  Time.MakeDate (Time.Day wall)
    (Time.MakeTime (w / Time.msPerHour) (w / Time.msPerMinute mod 60)
       (w / Time.msPerSecond mod 60) 0) = wall
  ∧ 0 <= w / Time.msPerHour <= 23
  ∧ 0 <= w / Time.msPerMinute mod 60 <= 59
  ∧ 0 <= w / Time.msPerSecond mod 60 <= 59.
Proof.
  intros Hs. cbv zeta.
  unfold Time.MakeDate, Time.MakeTime, Time.Day, Time.TimeWithinDay,
    Time.msPerDay, Time.msPerHour, Time.msPerMinute, Time.msPerSecond.
  Z.div_mod_to_equations. lia.
Qed.

Lemma days_from_civil_day y m d :
  Time.days_from_civil y m d = Time.days_from_civil y m 1 + d - 1.
Proof. unfold Time.days_from_civil. cbv zeta. lia. Qed.

(** [MakeDay] with a month of the calendar is the day number of the date. *)
Lemma MakeDay_civil y m d :
  1 <= m <= 12 -> Time.MakeDay y (m - 1) d = Time.days_from_civil y m d.
Proof.
  intros Hm. unfold Time.MakeDay. cbv zeta.
  rewrite (Z.div_small (m - 1)), (Z.mod_small (m - 1)) by lia.
  rewrite (days_from_civil_day y m d).
  by replace (y + 0) with y by lia; replace (m - 1 + 1) with m by lia.
Qed.

End CalendarFacts.


(** ** Wall-time strings: printing and reading the fields *)

Module WallFacts.
Import Regex Shapes RegexFacts ShapeFacts FormFacts TzUtils Pure ParserFacts
  FormatFacts.

Lemma fixed2_check :
  forallb (fun n => (Str.number (Str.fixed 2 n) =? n) && all_digits (Str.fixed 2 n))
    (Z_range 0 (Z.to_nat 100)) = true.
Proof. vm_compute. reflexivity. Qed.

Lemma fixed4_check :
  forallb (fun n => (Str.number (Str.fixed 4 n) =? n) && all_digits (Str.fixed 4 n))
    (Z_range 0 (Z.to_nat 10000)) = true.
Proof. vm_compute. reflexivity. Qed.

Lemma fixed2_digits n :
  0 <= n <= 99 -> digits 2 (Str.fixed 2 n) ∧ Str.number (Str.fixed 2 n) = n.
Proof.
  intros Hn. pose proof fixed2_check as H. rewrite forallb_forall in H.
  specialize (H n (Z_range_elem 0 (Z.to_nat 100) n ltac:(rewrite Z2Nat.id; lia))).
  cbv beta in H. apply andb_true_iff in H as [H1 H2]. apply Z.eqb_eq in H1.
  split; [split; [apply fixed_length | done] | done].
Qed.

Lemma fixed4_digits n :
  0 <= n <= 9999 -> digits 4 (Str.fixed 4 n) ∧ Str.number (Str.fixed 4 n) = n.
Proof.
  intros Hn. pose proof fixed4_check as H. rewrite forallb_forall in H.
  specialize (H n (Z_range_elem 0 (Z.to_nat 10000) n ltac:(rewrite Z2Nat.id; lia))).
  cbv beta in H. apply andb_true_iff in H as [H1 H2]. apply Z.eqb_eq in H1.
  split; [split; [apply fixed_length | done] | done].
Qed.

(** Both patterns on a compact string with seconds: the extended pattern
    fails, the compact one captures the six fields. *)
Lemma compact_fields Y M D h m s :
  digits 4 Y -> digits 2 M -> digits 2 D -> digits 2 h -> digits 2 m ->
  digits 2 s ->
  wall_fields (Y +:+ M +:+ D +:+ "T" +:+ h +:+ m +:+ s)
  = Some {| Temporal.year := Str.number Y; Temporal.month := Str.number M;
            Temporal.day := Str.number D; Temporal.hour := Str.number h;
            Temporal.minute := Str.number m; Temporal.second := Str.number s |}
  ∧ ∃ mres, exec_at basic_re (Y +:+ M +:+ D +:+ "T" +:+ h +:+ m +:+ s) = Some mres
      ∧ fields_of_match mres
        = {| Temporal.year := Str.number Y; Temporal.month := Str.number M;
             Temporal.day := Str.number D; Temporal.hour := Str.number h;
             Temporal.minute := Str.number m; Temporal.second := Str.number s |}.
Proof.
  intros HY HM HD Hh Hm Hs. split_digits. know_separators.
  repeat match goal with
         | H : Chars.is_digit ?a = true |- _ =>
             lazymatch goal with
             | _ : Chars.chr "-" a = false |- _ => fail
             | _ => assert (Chars.chr "-" a = false)
                      by (by apply CharFacts.digit_not)
             end
         end.
  unfold str2. cbv [String.append].
  split.
  - unfold wall_fields, exec_at, extended_re, basic_re. run_match. reflexivity.
  - eexists. split; [unfold exec_at, basic_re; run_match; reflexivity|].
    reflexivity.
Qed.

End WallFacts.


(** ** The stamp of [formatDateForRrule] and the fields it encodes *)

Module StampFacts.
Import Regex Shapes TzUtils TzUtilsMore Pure Views StateFacts ParserFacts
  FormatFacts CalendarFacts WallFacts.

Lemma zoned_fields_run db t id :
  zoned_fields db (Some t) id
  = res_bind (Temporal.zone_of_id db id)
      (fun zi => Ret (wall_clock (t + Temporal.offset_at zi t))).
Proof.
  unfold zoned_fields, wall_clock.
  destruct (Temporal.zone_of_id db id) as [zi|e]; [|done]. unfold res_bind.
  by destruct (Time.ymd_of_time (t + Temporal.offset_at zi t)) as [[y m] d].
Qed.

(** For a whole second in a four-digit year, the stamp is a compact
    wall-time string, both parsers read the fields back from it, and both
    calendars take the fields back to the wall-clock reading. *)
Lemma stamp_fields wall :
  wall mod 1000 = 0 ->
  year_between 1000 9999 (Time.ymd_of_time wall) ->
  let f := wall_clock wall in
  wall_fields (stamp f) = Some f
  ∧ (∃ mres, exec_at basic_re (stamp f) = Some mres ∧ fields_of_match mres = f)
  ∧ Temporal.PlainDateTime_from f = Ret wall
  ∧ Time.Date_UTC (Temporal.year f) (Temporal.month f - 1) (Temporal.day f)
      (Temporal.hour f) (Temporal.minute f) (Temporal.second f) = Some wall
  ∧ Z.abs wall <= 400000000000000.
Proof.
  intros Hs Hy. cbv zeta. unfold wall_clock, Time.ymd_of_time in *.
  pose proof (civil_roundtrip (Time.Day wall)) as Hc.
  destruct (Time.civil_from_days (Time.Day wall)) as [[y m] d].
  destruct Hc as (Hdays & Hm & Hd & Hyz). simpl in Hy.
  destruct (time_of_day_fields wall Hs) as (Hw & Hh & Hmi & Hse).
  cbv zeta in Hw.
  set (hh := Time.TimeWithinDay wall / Time.msPerHour) in *.
  set (mi := Time.TimeWithinDay wall / Time.msPerMinute mod 60) in *.
  set (ss := Time.TimeWithinDay wall / Time.msPerSecond mod 60) in *.
  assert (d <= 31) as Hd31.
  { destruct Hd as [_ Hd]. revert Hd. unfold Time.days_in_month.
    repeat match goal with |- context [if ?b then _ else _] => destruct b end; lia. }
  assert (Z.abs wall <= 400000000000000) as Hbound.
  { rewrite <- Hw. unfold Time.MakeDate, Time.MakeTime, Time.msPerDay,
      Time.msPerHour, Time.msPerMinute, Time.msPerSecond.
    assert (-3 <= Time.Day wall / 146097 <= 29) as Hq by lia.
    assert (-3 * 146097 <= Time.Day wall < 30 * 146097) as Hz.
    { revert Hq. generalize (Time.Day wall). intros z Hq.
      Z.div_mod_to_equations. lia. }
    lia. }
  assert (stamp {| Temporal.year := y; Temporal.month := m; Temporal.day := d;
                   Temporal.hour := hh; Temporal.minute := mi;
                   Temporal.second := ss |}
          = Str.fixed 4 y +:+ Str.fixed 2 m +:+ Str.fixed 2 d +:+ "T"
            +:+ Str.fixed 2 hh +:+ Str.fixed 2 mi +:+ Str.fixed 2 ss) as Hst.
  { unfold stamp, pad2. simpl.
    rewrite (of_Z_four_digits y) by lia.
    by rewrite !pad_two_digits by lia. }
  rewrite Hst.
  destruct (fixed4_digits y ltac:(lia)) as [HY HYn].
  destruct (fixed2_digits m ltac:(lia)) as [HM HMn].
  destruct (fixed2_digits d ltac:(lia)) as [HD HDn].
  destruct (fixed2_digits hh ltac:(lia)) as [HH HHn].
  destruct (fixed2_digits mi ltac:(lia)) as [HI HIn].
  destruct (fixed2_digits ss ltac:(lia)) as [HS HSn].
  destruct (compact_fields _ _ _ _ _ _ HY HM HD HH HI HS) as (Hwf & mres & Hex & Hfm).
  rewrite HYn, HMn, HDn, HHn, HIn, HSn in Hwf, Hfm.
  split; [exact Hwf|]. split; [by exists mres|].
  split; [|split; [|exact Hbound]].
  - unfold Temporal.PlainDateTime_from, Temporal.clamp. simpl.
    destruct (Z.leb_spec m 0); [lia|]. destruct (Z.leb_spec d 0); [lia|]. simpl.
    rewrite (Z.min_r 12 m), (Z.max_r 1 m) by lia.
    rewrite (Z.min_r _ d), (Z.max_r 1 d) by lia.
    rewrite (Z.min_r 23 hh), (Z.max_r 0 hh) by lia.
    rewrite (Z.min_r 59 mi), (Z.max_r 0 mi) by lia.
    rewrite (Z.min_r 59 ss), (Z.max_r 0 ss) by lia.
    by rewrite Hdays, Hw.
  - unfold Time.Date_UTC. simpl.
    destruct (Z.leb_spec 0 y); [|lia]. destruct (Z.leb_spec y 99); [lia|]. simpl.
    rewrite MakeDay_civil by lia. rewrite Hdays, Hw.
    unfold Time.TimeClip. destruct (Z.leb_spec (Z.abs wall) 8640000000000000); [done|lia].
Qed.

End StampFacts.


(** ** Offset labels: printing, reading, and the descriptor of a TZID *)

Module OffsetLabelFacts.
Import Regex Shapes TzUtils Pure StateFacts ParserFacts OffsetFacts.

Lemma offset_roundtrip_check :
  forallb (fun m => match minutesToOffset (Some m) with
                    | Some s =>
                        match offsetLabelToMinutes s with
                        | Some v => (v =? m)
                        | None => false
                        end
                        && match Temporal.parse_offset_id s with
                           | Some off => off =? m * Time.msPerMinute
                           | None => false
                           end
                        && is_normalized_offset_label s
                    | None => false
                    end) (Z_range (-840) 1681) = true.
Proof. vm_compute. reflexivity. Qed.

(** The label of offset minutes within 14 hours: normalised, read back by
    [offsetLabelToMinutes], and an offset identifier for Temporal. *)
Lemma offset_label m :
  -840 <= m <= 840 ->
  ∃ label, minutesToOffset (Some m) = Some label
    ∧ normalized_offset_label label
    ∧ Str.truthy label = true
    ∧ offsetLabelToMinutes label = Some m
    ∧ ∀ db, Temporal.zone_of_id db label
            = Ret (Temporal.fixed_zone (m * Time.msPerMinute)).
Proof.
  intros Hm. pose proof offset_roundtrip_check as H.
  rewrite forallb_forall in H.
  specialize (H m (Z_range_elem (-840) 1681 m ltac:(lia))). cbv beta in H.
  destruct (minutesToOffset (Some m)) as [s|]; [|done].
  apply andb_true_iff in H as [H H3]. apply andb_true_iff in H as [H1 H2].
  exists s. split; [done|].
  split; [by apply is_normalized_offset_label_spec|].
  split; [by destruct s|]. split.
  - destruct (offsetLabelToMinutes s) as [v|]; [|done].
    apply Z.eqb_eq in H1. by subst.
  - intros db. unfold Temporal.zone_of_id.
    destruct (Temporal.parse_offset_id s) as [off|]; [|done].
    apply Z.eqb_eq in H2. by subst.
Qed.

Lemma etc_whole_hours m e :
  minutesToEtcZone (Some m) = Some e -> m mod 60 = 0.
Proof.
  unfold minutesToEtcZone. destruct (Z.eqb_spec m 0) as [->|Hne]; [done|].
  destruct (Z.eqb_spec (Z.rem m 60) 0) as [Hr|Hr]; [|done]. intros _.
  apply Z.rem_divide in Hr; [|done]. by apply Z.mod_divide.
Qed.

Lemma iana_of_valid h st tz z :
  iana_of h st tz = Some z -> valid_zone h st z = true.
Proof.
  unfold iana_of, exact_match. destruct (truthy_opt tz) as [x|]; [|done].
  destruct (valid_zone h st (alias_of st x)) eqn:E1.
  - by intros [= <-].
  - destruct (valid_zone h st x) eqn:E2; [|done]. by intros [= <-].
Qed.

Lemma valid_zone_coherent h st z :
  coherent h st -> valid_zone h st z = true ->
  intl_supports h (alias_of st z) = true.
Proof.
  intros Hc. unfold valid_zone. intros H.
  apply andb_true_iff in H as [_ H]. apply andb_true_iff in H as [_ H].
  destruct (validIanaCache st !! alias_of st z) as [b|] eqn:E; [|done].
  subst b. symmetry. by apply Hc.
Qed.

End OffsetLabelFacts.

Section OffsetDescriptors.
Import Regex Shapes TzUtils Pure StateFacts ParserFacts OffsetFacts
  DateKeyFacts OffsetLabelFacts.

(** X1.  Printing and reading offsets are inverse within 14 hours either
    way: [minutesToOffset] prints the minutes as sign, two hour digits, a
    colon and two minute digits, and [offsetLabelToMinutes] reads exactly
    those minutes back from that label. *)
Theorem minutesToOffset_roundtrip (m : Z) :
  -840 <= m <= 840 ->
  ∃ label, minutesToOffset (Some m) = Some label
    ∧ normalized_offset_label label
    ∧ offsetLabelToMinutes label = Some m.
Proof.
  intros Hm. destruct (offset_label m Hm) as (label & H1 & H2 & _ & H3 & _).
  by exists label.
Qed.

Lemma minutesToOffset_roundtrip_witness :
  ∃ label, minutesToOffset (Some (-570)) = Some label
    ∧ normalized_offset_label label
    ∧ offsetLabelToMinutes label = Some (-570).
Proof. apply (minutesToOffset_roundtrip (-570)). lia. Defined.

(** X2.  The descriptor [resolveTZID] returns names a zone or an offset,
    never both.  Offset minutes lie within 14 hours, come with the
    normalised label that reads back to them, and with an Etc zone only for
    whole hours; without offset minutes there is neither label nor Etc zone.
    A zone name is non-empty and one the module itself takes as valid; when
    the validity cache only holds answers of [Intl], [Intl] supports what the
    name stands for. *)
Theorem resolveTZID_descriptor (h : host) (v : jsval) (st st' : tzstate)
    (info : tzinfo) :
  resolveTZID h v st = (Ret info, st') ->
  (∀ m, offsetMinutes info = Some m ->
        -840 <= m <= 840 ∧ iana info = None
        ∧ ∃ label, offset info = Some label ∧ normalized_offset_label label
                   ∧ offsetLabelToMinutes label = Some m)
  ∧ (offsetMinutes info = None -> offset info = None ∧ etc info = None)
  ∧ (∀ e, etc info = Some e ->
          ∃ m, offsetMinutes info = Some m ∧ m mod 60 = 0)
  ∧ (∀ z, iana info = Some z ->
          offsetMinutes info = None ∧ Str.truthy z = true
          ∧ valid_zone h st' z = true
          ∧ (coherent h st -> intl_supports h (alias_of st' z) = true)).
Proof.
  intros Hr.
  assert (info = empty_info
          ∨ ∃ s, info = resolved h st s ∧ same_view h st st') as [-> | (s & -> & Hv)].
  { destruct v as [| | | |s|]; try (left; by injection Hr as <-).
    destruct (Str.truthy s) eqn:Ht.
    - destruct (resolveTZID_string h s st Ht) as (st1 & Hr1 & Hs).
      rewrite Hr in Hr1. injection Hr1 as -> ->. right. by exists s.
    - rewrite resolveTZID_other in Hr by (intros ? [= <-]; done).
      left. by injection Hr as <-. }
  { unfold empty_info. simpl. repeat split; done. }
  simpl. split; [|split; [|split]].
  - intros m Hm. destruct (classify_offset _ _ _ Hm) as [Hs Hb].
    split; [done|]. split; [by rewrite Hs|].
    destruct (offset_label m Hb) as (label & H1 & H2 & _ & H3 & _).
    exists label. by rewrite Hm.
  - by intros ->.
  - intros e He. destruct (fst (classify h s)) as [m|] eqn:Hm; [|done].
    exists m. split; [done|]. by eapply etc_whole_hours.
  - intros z Hz.
    assert (fst (classify h s) = None) as Hnone.
    { destruct (fst (classify h s)) as [m|] eqn:Hm; [|done].
      destruct (classify_offset _ _ _ Hm) as [Hs _]. by rewrite Hs in Hz. }
    split; [done|]. split; [by eapply iana_of_truthy|].
    destruct Hv as (Ha & _ & Hvz & Hk).
    pose proof (iana_of_valid _ _ _ _ Hz) as Hvalid.
    split; [by rewrite Hvz|].
    intros Hc. apply valid_zone_coherent; [by apply Hk | by rewrite Hvz].
Qed.

Lemma resolveTZID_descriptor_witness :
  ∃ info st',
    resolveTZID Scenario.utc_host (JString "UTC+05:30") Scenario.fresh
    = (Ret info, st')
    ∧ offsetMinutes info = Some 330 ∧ iana info = None
    ∧ offset info = Some "+05:30" ∧ etc info = None.
Proof.
  exists (resolved Scenario.utc_host Scenario.fresh "UTC+05:30"),
    (snd (resolveTZID Scenario.utc_host (JString "UTC+05:30") Scenario.fresh)).
  assert (resolveTZID Scenario.utc_host (JString "UTC+05:30") Scenario.fresh
          = (Ret (resolved Scenario.utc_host Scenario.fresh "UTC+05:30"),
             snd (resolveTZID Scenario.utc_host (JString "UTC+05:30")
                    Scenario.fresh))) as Hr by (vm_compute; reflexivity).
  destruct (resolveTZID_descriptor _ _ _ _ _ Hr) as (H1 & _ & _ & _).
  destruct (H1 330 ltac:(vm_compute; reflexivity)) as (_ & Hi & _).
  split; [exact Hr|]. split; [vm_compute; reflexivity|]. split; [exact Hi|].
  split; vm_compute; reflexivity.
Defined.

End OffsetDescriptors.


(** ** Display names in parentheses *)

Module DisplayNameFacts.
Import Regex Shapes RegexFacts ShapeFacts TzUtils Pure StateFacts ParserFacts
  OffsetFacts FormatFacts.

Lemma embedded_needs_sign c s :
  is_sign c = false -> exec_at embedded_offset_re (String c s) = None.
Proof.
  unfold is_sign. intros H. apply orb_false_iff in H as [H1 H2].
  unfold exec_at, embedded_offset_re. cbn -[Chars.chr]. by rewrite H1, H2.
Qed.

Lemma search_go_skip pre : ∀ acc s,
  Str.existsb is_sign pre = false ->
  ∃ acc', search_go embedded_offset_re acc (pre +:+ s)
          = search_go embedded_offset_re acc' s.
Proof.
  induction pre as [|c pre IH]; intros acc s H; [by exists acc|].
  simpl in H. apply orb_false_iff in H as [Hc Hp].
  change (String c pre +:+ s) with (String c (pre +:+ s)).
  cbn [search_go]. rewrite embedded_needs_sign by done. by apply IH.
Qed.

Lemma consumed_six a b c d e f rest :
  consumed (String a (String b (String c (String d (String e (String f rest))))))
    rest
  = String a (String b (String c (String d (String e (String f ""))))).
Proof.
  unfold consumed. cbn [String.length].
  replace (S (S (S (S (S (S (String.length rest)))))) - String.length rest)%nat
    with 6%nat by lia.
  reflexivity.
Qed.

Lemma unquote_is_id s :
  Str.startsWith (String dquote "") s = false -> unquote s = s.
Proof.
  destruct s as [|a s]; [done|]. intros H.
  assert (Chars.chr dquote a = false) as Ha.
  { unfold Chars.chr. destruct (Ascii.eqb_spec a dquote) as [->|Hne]; [|done].
    by destruct s. }
  unfold unquote, exec_at, quoted_re.
  cbn -[Chars.chr dquote]. by rewrite Ha.
Qed.

(** The first signed HH:MM of a text that has no sign before it. *)
Lemma search_embedded pre sg h1 h2 m1 m2 rest :
  Str.existsb is_sign pre = false -> is_sign sg = true ->
  Chars.is_digit h1 = true -> Chars.is_digit h2 = true ->
  Chars.is_digit m1 = true -> Chars.is_digit m2 = true ->
  ∃ p mres,
    search embedded_offset_re
      (pre +:+ String sg (String h1 (String h2 (String ":" (String m1 (String m2 rest))))))
    = Some (p, mres)
    ∧ group 1 mres
      = Some (String sg (String h1 (String h2 (String ":" (String m1 (String m2 "")))))).
Proof.
  intros Hpre Hsg H1 H2 H3 H4. unfold search.
  destruct (search_go_skip pre ""
              (String sg (String h1 (String h2 (String ":" (String m1 (String m2 rest))))))
              Hpre) as (acc & ->).
  apply is_sign_cases in Hsg. know_chars.
  assert (Chars.chr ":" ":" = true) by reflexivity.
  destruct Hsg as [-> | ->].
  all: cbn [search_go]; unfold exec_at, embedded_offset_re.
  all: cbn -[Chars.is_digit Chars.chr consumed].
  all: repeat match goal with
              | H : ?p = true |- context [?p] => rewrite H
              | H : ?p = false |- context [?p] => rewrite H
              end.
  all: cbn -[Chars.is_digit Chars.chr consumed].
  all: repeat match goal with
              | H : ?p = true |- context [?p] => rewrite H
              | H : ?p = false |- context [?p] => rewrite H
              end.
  all: cbn -[Chars.is_digit Chars.chr consumed].
  all: eexists _, _; split; [reflexivity|].
  all: unfold group; cbn -[consumed]; by rewrite consumed_six.
Qed.

End DisplayNameFacts.

Section DisplayNames.
Import Regex Shapes RegexFacts ShapeFacts TzUtils Pure StateFacts ParserFacts
  OffsetFacts FormatFacts DisplayNameFacts.

(** X3.  A TZID that opens with a parenthesis and is not a label of the
    Windows table, such as a display name '(UTC+05:30) Somewhere', never
    yields a zone name: the descriptor holds the offset read from the first
    signed HH:MM of the text (here: no sign occurs before it), and nothing
    else is consulted, the module state included. *)
Theorem resolveTZID_display_name (h : host) (st : tzstate)
    (pre label rest : string) :
  Str.existsb is_sign pre = false ->
  normalized_offset_label label ->
  mapWindowsZone h (String "(" (pre +:+ label +:+ rest)) = None ->
  resolveTZID h (JString (String "(" (pre +:+ label +:+ rest))) st
  = (Ret {| original := Some (String "(" (pre +:+ label +:+ rest));
            iana := None;
            offset := minutesToOffset (offsetLabelToMinutes label);
            offsetMinutes := offsetLabelToMinutes label;
            etc := minutesToEtcZone (offsetLabelToMinutes label) |}, st).
Proof.
  intros Hpre (sg & hs & ms & Hsg & Hh & Hm & ->) Hmap.
  apply digits2_inv in Hh as (h1 & h2 & -> & Hh1 & Hh2).
  apply digits2_inv in Hm as (m1 & m2 & -> & Hm1 & Hm2).
  unfold str2 in *. cbv [String.append] in Hmap |- *.
  fold String.append in Hmap |- *.
  set (s := String "(" (pre +:+ String sg (String h1 (String h2 (String ":"
              (String m1 (String m2 rest))))))) in *.
  destruct (search_embedded (String "(" pre) sg h1 h2 m1 m2 rest)
    as (p & mres & Hsearch & Hgroup); try done.
  change (String "(" pre +:+ ?x) with (String "(" (pre +:+ x)) in Hsearch.
  fold s in Hsearch.
  unfold resolveTZID.
  change (Str.truthy s) with true. cbn [negb].
  change (String.eqb s "tzone://Microsoft/Custom") with false.
  change (Str.startsWith "Customized Time Zone" s) with false.
  change (Str.startsWith "tzone://Microsoft/" s) with false.
  cbn [orb].
  rewrite (unquote_is_id s) by reflexivity.
  rewrite Hmap. cbn [truthy_opt].
  assert (∀ b : bool, (if b then s else s) = s) as Hif by (by intros []).
  rewrite Hif.
  assert (Str.startsWith "(" s = true) as ->.
  { unfold s, Str.startsWith. cbn [String.prefix].
    destruct (ascii_dec "(" "(") as [_|Hne]; [|done]. by destruct (pre +:+ _). }
  change (Str.truthy s) with true. cbn [andb].
  rewrite Hsearch, Hgroup. cbn [default]. unfold id.
  set (label := String sg _).
  destruct (offsetLabelToMinutes label) as [m|]; reflexivity.
Qed.

Lemma resolveTZID_display_name_witness :
  resolveTZID Scenario.utc_host (JString "(UTC+05:30) Chennai, Kolkata")
    Scenario.fresh
  = (Ret {| original := Some "(UTC+05:30) Chennai, Kolkata"; iana := None;
            offset := Some "+05:30"; offsetMinutes := Some 330;
            etc := None |}, Scenario.fresh).
Proof.
  assert (normalized_offset_label "+05:30") as Hn.
  { exists "+"%char, "05", "30". repeat split. }
  exact (resolveTZID_display_name Scenario.utc_host Scenario.fresh
           "UTC" "+05:30" ") Chennai, Kolkata" eq_refl Hn
           ltac:(vm_compute; reflexivity)).
Defined.

End DisplayNames.


(** ** Aliases and the validity cache *)

Module AliasFacts.
Import TzUtils Pure StateFacts ParserFacts.

Lemma rev_app_rev_app a : ∀ b c,
  String.rev_app (String.rev_app a b) c = String.rev_app b (a +:+ c).
Proof.
  induction a as [|x a IH]; intros b c; [done|].
  simpl. by rewrite IH.
Qed.

Lemma rev_rev_app a : String.rev (String.rev_app a "") = a.
Proof.
  unfold String.rev. rewrite rev_app_rev_app. simpl.
  induction a as [|x a IH]; [done|].
  change (String x a +:+ "") with (String x (a +:+ "")). by rewrite IH.
Qed.

Lemma split_go_piece c a : ∀ cur s,
  Str.includes_char c a = false ->
  Str.split_go c cur (a +:+ s) = Str.split_go c (String.rev_app a cur) s.
Proof.
  induction a as [|x a IH]; intros cur s H; [done|].
  unfold Str.includes_char in H. simpl in H.
  apply orb_false_iff in H as [Hx Ha].
  change (String x a +:+ s) with (String x (a +:+ s)).
  cbn [Str.split_go]. unfold Chars.chr in Hx. rewrite Hx.
  by rewrite IH.
Qed.

(** A text without the separator is one piece; a piece before a separator
    is split off. *)
Lemma split_last c a : Str.includes_char c a = false -> Str.split c a = [a].
Proof.
  intros H. unfold Str.split.
  replace a with (a +:+ "") at 1
    by (clear; induction a as [|x a IH]; [done|];
        change (String x a +:+ "") with (String x (a +:+ "")); by rewrite IH).
  rewrite split_go_piece by done. simpl. by rewrite rev_rev_app.
Qed.

Lemma split_piece c a s :
  Str.includes_char c a = false ->
  Str.split c (a +:+ String c s) = a :: Str.split c s.
Proof.
  intros H. unfold Str.split. rewrite split_go_piece by done.
  cbn [Str.split_go]. rewrite Ascii.eqb_refl. by rewrite rev_rev_app.
Qed.

Lemma alias_of_linked a b st z :
  alias_of (snd (linkAlias2 a b st)) z
  = if bool_decide (z = a) && Str.truthy a && Str.truthy b then b
    else if bool_decide (z = a) then a else alias_of st z.
Proof.
  unfold alias_of, linkAlias2, alias_set. simpl.
  destruct (decide (z = a)) as [->|Hne].
  - rewrite bool_decide_eq_true_2 by done. rewrite lookup_insert_eq.
    destruct (Str.truthy a), (Str.truthy b); done.
  - rewrite bool_decide_eq_false_2 by done. by rewrite lookup_insert_ne.
Qed.

Lemma valid_zone_by_intl h st z :
  coherent h st ->
  valid_zone h st z
  = Str.truthy z && Str.truthy (alias_of st z) && intl_supports h (alias_of st z).
Proof.
  intros Hc. unfold valid_zone. rewrite <- andb_assoc.
  destruct (Str.truthy z); [|done]. destruct (Str.truthy (alias_of st z)); [|done].
  simpl. destruct (validIanaCache st !! alias_of st z) as [b|] eqn:E; [|done].
  by apply Hc.
Qed.

Lemma remember_twice h st z :
  remember h (remember h st z) z = remember h st z.
Proof.
  unfold remember at 2 3.
  destruct (Str.truthy z && Str.truthy (alias_of st z)) eqn:Et.
  - destruct (validIanaCache st !! alias_of st z) as [b|] eqn:E.
    + unfold remember. by rewrite Et, E.
    + unfold remember, alias_of. cbn [aliasMap validIanaCache].
      fold (alias_of st z). rewrite Et, lookup_insert_eq. done.
  - unfold remember. by rewrite Et.
Qed.

End AliasFacts.

Section Aliases.
Import TzUtils Pure StateFacts ParserFacts AliasFacts.

(** X4.  [linkAlias] with two arguments and [resolveZone] are insert and
    lookup of one table: after linking a non-empty name, the name resolves
    to its target (to itself when the target is the empty string), every
    other name resolves as before, and the validity cache is untouched.
    Resolution takes one step only: linking the target to something else
    afterwards does not change what the first name resolves to. *)
Theorem linkAlias_resolveZone (a b : string) (st : tzstate) :
  Str.truthy a = true ->
  fst (resolveZone a (snd (linkAlias2 a b st)))
  = Ret (if Str.truthy b then b else a)
  ∧ (∀ z, z ≠ a ->
       fst (resolveZone z (snd (linkAlias2 a b st))) = fst (resolveZone z st))
  ∧ validIanaCache (snd (linkAlias2 a b st)) = validIanaCache st
  ∧ ∀ c, b ≠ a ->
      fst (resolveZone a (snd (linkAlias2 b c (snd (linkAlias2 a b st)))))
      = Ret (if Str.truthy b then b else a).
Proof.
  intros Ha. rewrite !resolveZone_run, alias_of_linked.
  rewrite bool_decide_eq_true_2, Ha by done. cbn [andb fst].
  split; [by destruct (Str.truthy b)|]. split; [|split; [done|]].
  - intros z Hz. rewrite !resolveZone_run, alias_of_linked.
    by rewrite bool_decide_eq_false_2.
  - intros c Hne. rewrite resolveZone_run, !alias_of_linked.
    rewrite (bool_decide_eq_false_2 (a = b)) by done.
    rewrite bool_decide_eq_true_2, Ha by done. cbn [andb fst].
    by destruct (Str.truthy b).
Qed.

Lemma linkAlias_resolveZone_witness :
  fst (resolveZone "Etc/Unknown" Scenario.aliased) = Ret "Etc/GMT"
  ∧ fst (resolveZone "Etc/Unknown"
           (snd (linkAlias2 "Etc/GMT" "Europe/London" Scenario.aliased)))
    = Ret "Etc/GMT".
Proof.
  destruct (linkAlias_resolveZone "Etc/Unknown" "Etc/GMT" Scenario.fresh
              eq_refl) as (H1 & _ & _ & H2).
  split; [exact H1|]. exact (H2 "Europe/London" ltac:(discriminate)).
Defined.

(** X5.  The one-argument form of [linkAlias] splits its argument at the
    vertical bars: with two non-empty leading pieces it links the first to
    the second, exactly as the two-argument form does, and ignores further
    pieces; with an empty piece, or without a bar, it does nothing. *)
Theorem linkAlias_pipe_form (a b rest : string) (st : tzstate) :
  Str.includes_char "|" a = false ->
  Str.includes_char "|" b = false ->
  linkAlias1 (a +:+ "|" +:+ b) st
  = (if Str.truthy a && Str.truthy b then linkAlias2 a b st else (Ret tt, st))
  ∧ linkAlias1 (a +:+ "|" +:+ b +:+ "|" +:+ rest) st
    = linkAlias1 (a +:+ "|" +:+ b) st
  ∧ linkAlias1 a st = (Ret tt, st).
Proof.
  intros Ha Hb. unfold linkAlias1.
  change (a +:+ "|" +:+ b) with (a +:+ String "|" b).
  change (a +:+ "|" +:+ b +:+ "|" +:+ rest)
    with (a +:+ String "|" (b +:+ String "|" rest)).
  rewrite !split_piece, !split_last by done.
  destruct (Str.split "|" rest) as [|x l] eqn:E.
  - by destruct (Str.truthy a && Str.truthy b).
  - by destruct (Str.truthy a && Str.truthy b).
Qed.

Lemma linkAlias_pipe_form_witness :
  linkAlias1 "Etc/Unknown|Etc/GMT" Scenario.fresh
  = linkAlias2 "Etc/Unknown" "Etc/GMT" Scenario.fresh
  ∧ linkAlias1 "Etc/Unknown" Scenario.fresh = (Ret tt, Scenario.fresh).
Proof.
  destruct (linkAlias_pipe_form "Etc/Unknown" "Etc/GMT" "" Scenario.fresh
              eq_refl eq_refl) as (H1 & _ & H3).
  split; [exact H1 | exact H3].
Defined.

(** X6.  [isValidIana] is memoised, under the name its argument resolves
    to, and never goes stale.  An empty name, or one that resolves to the
    empty string, is invalid and nothing is stored.  Otherwise the call
    leaves its answer in the cache under the resolved name and touches no
    other entry, no alias and not the console: an answer already there is
    returned as it is and the state stays the same; a missing one is the
    answer of [Intl].  Every later call for the name is served from the
    cache: it gives the same answer and changes nothing, whatever [Intl]
    would say then.  From a cache that only holds answers of [Intl] the
    answer is that of [Intl], and the cache still only holds answers of
    [Intl], also after any later [linkAlias], because it is keyed by the
    resolved name. *)
Theorem isValidIana_memoised (h : host) (zone : string) (st : tzstate) :
  (Str.truthy zone && Str.truthy (alias_of st zone) = false ->
   isValidIana h zone st = (Ret false, st))
  ∧ (Str.truthy zone && Str.truthy (alias_of st zone) = true ->
     ∃ ans st',
       isValidIana h zone st = (Ret ans, st')
       ∧ validIanaCache st' !! alias_of st zone = Some ans
       ∧ (∀ z, z ≠ alias_of st zone ->
            validIanaCache st' !! z = validIanaCache st !! z)
       ∧ aliasMap st' = aliasMap st ∧ console st' = console st
       ∧ (∀ known, validIanaCache st !! alias_of st zone = Some known ->
            ans = known ∧ st' = st)
       ∧ (validIanaCache st !! alias_of st zone = None ->
            ans = intl_supports h (alias_of st zone))
       ∧ (∀ h', isValidIana h' zone st' = (Ret ans, st'))
       ∧ (coherent h st ->
            ans = intl_supports h (alias_of st zone)
            ∧ coherent h st'
            ∧ ∀ a b, coherent h (snd (linkAlias2 a b st')))).
Proof.
  rewrite isValidIana_run. split.
  - intros Et. unfold valid_zone, remember. rewrite Et.
    apply andb_false_iff in Et as [-> | Et]; [done|].
    rewrite Et. by destruct (Str.truthy zone).
  - intros Et. exists (valid_zone h st zone), (remember h st zone).
    pose proof (remember_same_view h st zone) as (Ha & Hcon & Hv & Hk).
    apply andb_true_iff in Et as [Ez Ea].
    assert (alias_of (remember h st zone) zone = alias_of st zone) as Hal
      by (unfold alias_of; by rewrite Ha).
    assert (validIanaCache (remember h st zone) !! alias_of st zone
            = Some (valid_zone h st zone)
            ∧ (∀ z, z ≠ alias_of st zone ->
                 validIanaCache (remember h st zone) !! z = validIanaCache st !! z)
            ∧ (∀ known, validIanaCache st !! alias_of st zone = Some known ->
                 valid_zone h st zone = known ∧ remember h st zone = st)
            ∧ (validIanaCache st !! alias_of st zone = None ->
                 valid_zone h st zone = intl_supports h (alias_of st zone)))
      as (Hstored & Hothers & Hhit & Hmiss).
    { unfold valid_zone, remember. rewrite Ez, Ea. cbn [andb].
      destruct (validIanaCache st !! alias_of st zone) as [known|] eqn:E.
      - rewrite E. split; [done|]. split; [done|]. split; [|done].
        by intros ? [= <-].
      - cbn [validIanaCache]. rewrite lookup_insert_eq. split; [done|].
        split; [|done]. intros z Hz. by rewrite lookup_insert_ne. }
    split; [done|]. split; [done|]. split; [done|]. split; [done|].
    split; [done|]. split; [done|]. split; [done|]. split.
    + intros h'. rewrite isValidIana_run. f_equal.
      * unfold valid_zone at 1. cbv zeta. by rewrite Ez, Hal, Ea, Hstored.
      * unfold remember at 1. by rewrite Ez, Hal, Ea, Hstored.
    + intros Hc. split; [|split; [by apply Hk|]].
      * rewrite (valid_zone_by_intl h st zone Hc). by rewrite Ez, Ea.
      * intros a b z x. simpl. by apply Hk.
Qed.

Lemma isValidIana_memoised_witness :
  ∃ st',
    isValidIana Scenario.utc_host "Etc/Unknown" Scenario.aliased
    = (Ret true, st')
    ∧ validIanaCache st' !! "Etc/GMT" = Some true
    ∧ isValidIana
        {| windowsZones := []; intl_supports := fun _ => false;
           tzdb := fun _ => None; hostZone := ""; localTZA := fun _ => 0 |}
        "Etc/Unknown" st' = (Ret true, st').
Proof.
  destruct (isValidIana_memoised Scenario.utc_host "Etc/Unknown"
              Scenario.aliased) as [_ H].
  destruct (H eq_refl) as (ans & st' & H1 & H2 & _ & _ & _ & _ & H3 & H4 & _).
  assert (ans = true) as ->
    by (rewrite (H3 ltac:(vm_compute; reflexivity)); vm_compute; reflexivity).
  exists st'. split; [exact H1|]. split; [exact H2|]. apply H4.
Defined.

End Aliases.


(** ** Formatting an instant and parsing it back *)

Module RoundTripFacts.
Import Regex Shapes TzUtils TzUtilsMore Pure Views StateFacts ParserFacts
  TemporalFacts FormatFacts CalendarFacts WallFacts StampFacts OffsetLabelFacts.

(** What [formatDateForRrule] does on a valid date, step by step. *)
Lemma formatDateForRrule_run h d info st t :
  time d = Some t ->
  formatDateForRrule h (ADate d) info st
  = let fromMinutes :=
      match offsetMinutes info with
      | Some m => minutesToOffset (Some m)
      | None => None
      end in
    let after id st' :=
      match truthy_opt id with
      | None => (Ret None, st')
      | Some id =>
          match zoned_fields (tzdb h) (Some t) id with
          | Ret f => (Ret (Some (stamp f)), st')
          | Throw e => (Throw e, st')
          end
      end in
    match truthy_opt (iana info) with
    | Some z =>
        after (if valid_zone h st z then Some z else fromMinutes)
          (remember h st z)
    | None => after fromMinutes st
    end.
Proof.
  intros Ht. unfold formatDateForRrule. rewrite Ht. cbv zeta.
  destruct (truthy_opt (iana info)) as [z|].
  - unfold bind at 1. unfold bind at 1. rewrite isValidIana_run. unfold ret at 1.
    destruct (truthy_opt _) as [id|]; [|done].
    unfold bind, lift. by destruct (zoned_fields _ _ _).
  - unfold bind at 1. unfold ret at 1.
    destruct (truthy_opt _) as [id|]; [|done].
    unfold bind, lift. by destruct (zoned_fields _ _ _).
Qed.

Lemma list_last_cons (l : list Z) : ∀ a b, List.last (a :: l) b = List.last l a.
Proof.
  induction l as [|c l IH]; intros a b; [done|].
  change (List.last (a :: c :: l) b) with (List.last (c :: l) b).
  by rewrite !IH.
Qed.

Lemma last_of_sorted (l : list Z) : ∀ a,
  StronglySorted Z.lt (a :: l) ->
  In (List.last l a) (a :: l) ∧ ∀ x, In x (a :: l) -> x <= List.last l a.
Proof.
  induction l as [|b l IH]; intros a Hs.
  - simpl. split; [by left|]. intros x [->|[]]. lia.
  - apply StronglySorted_inv in Hs as [Hs Ha].
    destruct (IH b Hs) as [Hin Hmax].
    rewrite list_last_cons.
    split; [by right|]. intros x [->|Hx]; [|by apply Hmax].
    apply List.Forall_forall with (x := List.last l b) in Ha; [lia | done].
Qed.

(** With an instant that reads the wall time, ['later'] is the latest such
    instant. *)
Lemma later_is_latest zi w t :
  t + Temporal.offset_at zi t = w ->
  ∃ t', Temporal.disambiguate_later zi w = Ret t'
    ∧ t' + Temporal.offset_at zi t' = w
    ∧ ∀ u, u + Temporal.offset_at zi u = w -> u <= t'.
Proof.
  intros Ht. apply possible_instants_In in Ht.
  pose proof (possible_instants_sorted zi w) as Hs.
  pose proof (possible_instants_In zi w) as Hin.
  unfold Temporal.disambiguate_later.
  destruct (Temporal.possible_instants zi w) as [|a l]; [done|].
  destruct (last_of_sorted l a Hs) as [Hl Hmax].
  exists (List.last l a).
  split; [by destruct l|]. split; [by apply Hin|].
  intros u Hu. by apply Hmax, Hin.
Qed.

End RoundTripFacts.

Section RoundTrips.
Import Regex Shapes TzUtils TzUtilsMore Pure Views StateFacts ParserFacts
  TemporalFacts FormatFacts CalendarFacts WallFacts StampFacts OffsetLabelFacts
  RoundTripFacts.

(** X7.  [formatDateForRrule] with offset minutes and [parseWithOffset] are
    inverse: for a valid date on a whole second, offset minutes within 14
    hours and a wall-clock year of four digits, the stamp is the compact
    YYYYMMDDTHHmmss reading of the instant at that offset, and parsing the
    stamp with the printed offset gives the same instant back, tagged with
    the offset label.  The module state is not touched. *)
Theorem format_then_parseWithOffset (h : host) (st : tzstate) (d : JsDate)
    (info : tzinfo) (t m : Z) :
  time d = Some t ->
  truthy_opt (iana info) = None ->
  offsetMinutes info = Some m ->
  -840 <= m <= 840 ->
  t mod 1000 = 0 ->
  year_between 1000 9999 (Time.ymd_of_time (t + m * Time.msPerMinute)) ->
  ∃ label,
    minutesToOffset (Some m) = Some label
    ∧ formatDateForRrule h (ADate d) info st
      = (Ret (Some (stamp (wall_clock (t + m * Time.msPerMinute)))), st)
    ∧ BasicForm (stamp (wall_clock (t + m * Time.msPerMinute)))
    ∧ parseWithOffset (stamp (wall_clock (t + m * Time.msPerMinute))) label st
      = (Ret (Some (tagged (Some t) label)), st).
Proof.
  intros Ht Hi Hm Hb Hs Hy.
  destruct (offset_label m Hb) as (label & Hl & Hn & Hty & Hread & Hzone).
  exists label. split; [done|].
  set (wall := t + m * Time.msPerMinute) in *.
  assert (wall mod 1000 = 0) as Hws.
  { unfold wall, Time.msPerMinute. Z.div_mod_to_equations. lia. }
  destruct (stamp_fields wall Hws Hy) as (Hwf & (mres & Hex & Hfm) & _ & Hutc & Hbound).
  cbv zeta in *.
  split; [|split].
  - rewrite (formatDateForRrule_run h d info st t Ht). cbv zeta.
    rewrite Hi, Hm, Hl. unfold truthy_opt. rewrite Hty.
    rewrite zoned_fields_run, Hzone. reflexivity.
  - apply FormFacts.basic_re_form. by exists mres.
  - rewrite parseWithOffset_unfold, Hex. cbv zeta. rewrite Hread, Hfm, Hutc, Hl.
    simpl mbind. unfold tagged. rewrite <- (attachTz_fresh (Some t) label Hty).
    do 4 f_equal. unfold Time.TimeClip.
    replace (wall - m * 60000) with t by (unfold wall, Time.msPerMinute; lia).
    destruct (Z.leb_spec (Z.abs t) 8640000000000000) as [|Hbig]; [done|].
    unfold wall, Time.msPerMinute in Hbound. lia.
Qed.

Lemma format_then_parseWithOffset_witness :
  formatDateForRrule Scenario.utc_host
    (ADate (Scenario.plain_date 1699488000000)) (offset_info (-480))
    Scenario.fresh
  = (Ret (Some "20231108T160000"), Scenario.fresh)
  ∧ parseWithOffset "20231108T160000" "-08:00" Scenario.fresh
    = (Ret (Some (tagged (Some 1699488000000) "-08:00")), Scenario.fresh).
Proof.
  destruct (format_then_parseWithOffset Scenario.utc_host Scenario.fresh
              (Scenario.plain_date 1699488000000) (offset_info (-480))
              1699488000000 (-480) eq_refl eq_refl eq_refl ltac:(lia) eq_refl
              ltac:(vm_compute; split; discriminate))
    as (label & Hl & Hf & _ & Hp).
  injection Hl as <-. split; [exact Hf | exact Hp].
Defined.

(** X8.  [formatDateForRrule] with a zone name and [parseDateTimeInZone]:
    for a valid zone that is not an alias and that Temporal knows, a valid
    date whose wall-clock reading in the zone is a whole second of a year
    from 1000 to 9999 is stamped with that reading, and parsing the stamp in
    the same zone gives the latest instant with that reading: the instant
    itself, unless the clock showed the same reading again later (the
    repeated hour of a fold). *)
Theorem format_then_parseDateTimeInZone (h : host) (st : tzstate) (d : JsDate)
    (info : tzinfo) (z : string) (zi : Temporal.zoneinfo) (t : Z) :
  time d = Some t ->
  iana info = Some z ->
  alias_of st z = z ->
  valid_zone h st z = true ->
  Temporal.zone_of_id (tzdb h) z = Ret zi ->
  (t + Temporal.offset_at zi t) mod 1000 = 0 ->
  year_between 1000 9999 (Time.ymd_of_time (t + Temporal.offset_at zi t)) ->
  ∃ t',
    fst (formatDateForRrule h (ADate d) info st)
    = Ret (Some (stamp (wall_clock (t + Temporal.offset_at zi t))))
    ∧ fst (parseDateTimeInZone h
             (stamp (wall_clock (t + Temporal.offset_at zi t))) z st)
      = Ret (Some (tagged (Time.TimeClip t') z))
    ∧ t' + Temporal.offset_at zi t' = t + Temporal.offset_at zi t
    ∧ t <= t'
    ∧ ∀ u, u + Temporal.offset_at zi u = t + Temporal.offset_at zi t -> u <= t'.
Proof.
  intros Ht Hi Ha Hv Hz Hs Hy.
  set (wall := t + Temporal.offset_at zi t) in *.
  destruct (stamp_fields wall Hs Hy) as (Hwf & _ & Hfrom & _ & _).
  cbv zeta in *.
  destruct (later_is_latest zi wall t eq_refl) as (t' & Hlater & Hreads & Hmax).
  pose proof (valid_zone_truthy _ _ _ Hv) as Hty.
  exists t'. split; [|split; [|split; [done|split; [by apply Hmax | done]]]].
  - rewrite (formatDateForRrule_run h d info st t Ht). cbv zeta.
    rewrite Hi. unfold truthy_opt. rewrite Hty, Hv, Hty.
    rewrite zoned_fields_run, Hz. reflexivity.
  - rewrite parseDateTimeInZone_run, Hwf. cbv zeta. rewrite Ha, Hv.
    unfold Temporal.toZonedDateTime_later. rewrite Hfrom, Hz. simpl res_bind.
    rewrite Hlater. simpl fst. unfold new_Date, tagged.
    by rewrite attachTz_fresh.
Qed.

Lemma format_then_parseDateTimeInZone_witness :
  fst (formatDateForRrule Scenario.utc_host
         (ADate (Scenario.plain_date 1699488000000))
         (zone_info "America/Los_Angeles") Scenario.fresh)
  = Ret (Some "20231108T160000")
  ∧ ∃ t',
      fst (parseDateTimeInZone Scenario.utc_host "20231108T160000"
             "America/Los_Angeles" Scenario.fresh)
      = Ret (Some (tagged (Time.TimeClip t') "America/Los_Angeles"))
      ∧ 1699488000000 <= t'.
Proof.
  destruct (format_then_parseDateTimeInZone Scenario.utc_host Scenario.fresh
              (Scenario.plain_date 1699488000000)
              (zone_info "America/Los_Angeles") "America/Los_Angeles"
              Scenario.LosAngeles 1699488000000
              eq_refl eq_refl eq_refl eq_refl eq_refl eq_refl
              ltac:(vm_compute; split; discriminate))
    as (t' & Hf & Hp & _ & Hle & _).
  split; [exact Hf|]. exists t'. split; [exact Hp | exact Hle].
Defined.

End RoundTrips.

Section EscapingErrors.
Import Regex Shapes TzUtils TzUtilsMore Pure Views StateFacts ParserFacts
  TemporalFacts FormatFacts StampFacts RoundTripFacts.

(** X9.  Validation follows aliases, conversion does not.  A name that the
    module takes as valid (through [linkAlias]) but that Temporal does not
    know makes Temporal's [RangeError] escape: from [formatDateForRrule] when
    the name is given as [iana], and from [parseDateTimeInZone] when the name
    is what the zone argument resolves to (an alias of an alias). *)
Theorem alias_names_reach_Temporal (h : host) (st : tzstate) (z : string)
    (e : error) :
  valid_zone h st z = true ->
  Temporal.zone_of_id (tzdb h) z = Throw e ->
  (∀ d t info, time d = Some t -> iana info = Some z ->
     formatDateForRrule h (ADate d) info st = (Throw e, remember h st z))
  ∧ (∀ s zone f w, wall_fields s = Some f ->
       Temporal.PlainDateTime_from f = Ret w -> alias_of st zone = z ->
       parseDateTimeInZone h s zone st = (Throw e, remember h st z)).
Proof.
  intros Hv Hz. pose proof (valid_zone_truthy _ _ _ Hv) as Hty. split.
  - intros d t info Ht Hi.
    rewrite (formatDateForRrule_run h d info st t Ht). cbv zeta.
    rewrite Hi. unfold truthy_opt. rewrite Hty, Hv, Hty.
    by rewrite zoned_fields_run, Hz.
  - intros s zone f w Hf Hw Ha. rewrite parseDateTimeInZone_run, Hf. cbv zeta.
    rewrite Ha, Hv. unfold Temporal.toZonedDateTime_later.
    by rewrite Hw, Hz.
Qed.

Lemma alias_names_reach_Temporal_witness :
  formatDateForRrule Scenario.utc_host
    (ADate (Scenario.plain_date 1699488000000)) (zone_info "Etc/Unknown")
    Scenario.aliased
  = (Throw (RangeError "Invalid time zone: Etc/Unknown"),
     remember Scenario.utc_host Scenario.aliased "Etc/Unknown")
  ∧ parseDateTimeInZone Scenario.utc_host "20231108T160000" "Etc/Other"
      (snd (linkAlias2 "Etc/Other" "Etc/Unknown" Scenario.aliased))
    = (Throw (RangeError "Invalid time zone: Etc/Unknown"),
       remember Scenario.utc_host
         (snd (linkAlias2 "Etc/Other" "Etc/Unknown" Scenario.aliased))
         "Etc/Unknown").
Proof.
  split.
  - destruct (alias_names_reach_Temporal Scenario.utc_host Scenario.aliased
                "Etc/Unknown" (RangeError "Invalid time zone: Etc/Unknown")
                eq_refl eq_refl) as [H _].
    exact (H (Scenario.plain_date 1699488000000) 1699488000000
             (zone_info "Etc/Unknown") eq_refl eq_refl).
  - destruct (alias_names_reach_Temporal Scenario.utc_host
                (snd (linkAlias2 "Etc/Other" "Etc/Unknown" Scenario.aliased))
                "Etc/Unknown" (RangeError "Invalid time zone: Etc/Unknown")
                eq_refl eq_refl) as [_ H].
    exact (H "20231108T160000" "Etc/Other"
             {| Temporal.year := 2023; Temporal.month := 11; Temporal.day := 8;
                Temporal.hour := 16; Temporal.minute := 0; Temporal.second := 0 |}
             1699459200000 eq_refl eq_refl eq_refl).
Defined.

(** X10.  [parseDateTimeInZone] checks the zone before it reads the date: a
    string of wall-time form whose month or day is 00 gives no date when the
    zone is not valid, and otherwise makes the [RangeError] of
    [Temporal.PlainDateTime.from] escape. *)
Theorem parseDateTimeInZone_zero_field (h : host) (s zone : string)
    (st : tzstate) (f : Temporal.fields) :
  wall_fields s = Some f ->
  Temporal.month f = 0 ∨ Temporal.day f = 0 ->
  (valid_zone h st (alias_of st zone) = false ->
   fst (parseDateTimeInZone h s zone st) = Ret None)
  ∧ (valid_zone h st (alias_of st zone) = true ->
     ∃ msg, fst (parseDateTimeInZone h s zone st) = Throw (RangeError msg)).
Proof.
  intros Hf Hz. rewrite parseDateTimeInZone_run, Hf. cbv zeta.
  split; intros ->; [done|].
  unfold Temporal.toZonedDateTime_later, Temporal.PlainDateTime_from.
  assert ((Temporal.month f <=? 0) || (Temporal.day f <=? 0) = true) as ->.
  { apply orb_true_iff. destruct Hz as [-> | ->]; [by left | by right]. }
  eexists. reflexivity.
Qed.

Lemma parseDateTimeInZone_zero_field_witness :
  fst (parseDateTimeInZone Scenario.utc_host "20250001T120000" "Nowhere/Land"
         Scenario.fresh) = Ret None
  ∧ ∃ msg, fst (parseDateTimeInZone Scenario.utc_host "20250001T120000"
                  "Etc/GMT" Scenario.fresh) = Throw (RangeError msg).
Proof.
  assert (wall_fields "20250001T120000"
          = Some {| Temporal.year := 2025; Temporal.month := 0;
                    Temporal.day := 1; Temporal.hour := 12;
                    Temporal.minute := 0; Temporal.second := 0 |}) as Hf
    by reflexivity.
  split.
  - destruct (parseDateTimeInZone_zero_field Scenario.utc_host
                "20250001T120000" "Nowhere/Land" Scenario.fresh _ Hf
                (or_introl eq_refl)) as [H _].
    exact (H eq_refl).
  - destruct (parseDateTimeInZone_zero_field Scenario.utc_host
                "20250001T120000" "Etc/GMT" Scenario.fresh _ Hf
                (or_introl eq_refl)) as [_ H].
    exact (H eq_refl).
Defined.

End EscapingErrors.


(** ** Digit strings and the numbers they denote *)

Module DigitFacts.
Import Regex Shapes ShapeFacts TzUtils Pure ParserFacts FormatFacts.

Lemma digit_char_val a :
  Chars.is_digit a = true -> Chars.digit_char (Chars.digit_val a) = a.
Proof.
  destruct a as [[] [] [] [] [] [] [] []]; intros H; try discriminate H;
    reflexivity.
Qed.

Lemma fixed2_number s :
  digits 2 s -> Str.fixed 2 (Str.number s) = s ∧ 0 <= Str.number s <= 99.
Proof.
  intros H. apply digits2_inv in H as (a & b & -> & Ha & Hb).
  pose proof (CharFacts.digit_val_range a Ha) as Ra.
  pose proof (CharFacts.digit_val_range b Hb) as Rb.
  unfold str2, Str.number. cbn [Str.number_go].
  set (va := Chars.digit_val a) in *. set (vb := Chars.digit_val b) in *.
  set (n := 10 * (10 * 0 + va) + vb).
  assert (n mod 10 = vb ∧ n / 10 mod 10 = va) as [E1 E2]
    by (unfold n; Z.div_mod_to_equations; lia).
  split; [|unfold n; lia].
  cbn [Str.fixed]. rewrite E1, E2. unfold va, vb.
  by rewrite !digit_char_val.
Qed.

Lemma fixed4_number s :
  digits 4 s -> Str.fixed 4 (Str.number s) = s ∧ 0 <= Str.number s <= 9999.
Proof.
  intros H. apply digits4_inv in H as (a & b & c & d & -> & Ha & Hb & Hc & Hd).
  pose proof (CharFacts.digit_val_range a Ha) as Ra.
  pose proof (CharFacts.digit_val_range b Hb) as Rb.
  pose proof (CharFacts.digit_val_range c Hc) as Rc.
  pose proof (CharFacts.digit_val_range d Hd) as Rd.
  unfold str2, Str.number. cbn [Str.number_go].
  set (va := Chars.digit_val a) in *. set (vb := Chars.digit_val b) in *.
  set (vc := Chars.digit_val c) in *. set (vd := Chars.digit_val d) in *.
  set (n := 10 * (10 * (10 * (10 * 0 + va) + vb) + vc) + vd).
  assert (n mod 10 = vd ∧ n / 10 mod 10 = vc ∧ n / 10 / 10 mod 10 = vb
          ∧ n / 10 / 10 / 10 mod 10 = va) as (E1 & E2 & E3 & E4)
    by (unfold n; Z.div_mod_to_equations; lia).
  split; [|unfold n; lia].
  cbn [Str.fixed]. rewrite E1, E2, E3, E4. unfold va, vb, vc, vd.
  by rewrite !digit_char_val.
Qed.

End DigitFacts.

(** ** Wall-time strings and their fields *)

Module WallStringFacts.
Import Regex Shapes RegexFacts ShapeFacts FormFacts TzUtils Pure Views
  ParserFacts FormatFacts DigitFacts.

Ltac know_dashes :=
  assert (Chars.is_digit "-" = false) by reflexivity;
  assert (Chars.is_digit " " = false) by reflexivity;
  assert (Chars.chr "T" " " = false) by reflexivity;
  assert (Chars.chr ":" "T" = false) by reflexivity;
  repeat match goal with
         | H : Chars.is_digit ?a = true |- _ =>
             lazymatch goal with
             | _ : Chars.chr "-" a = false |- _ => fail
             | _ => assert (Chars.chr "-" a = false)
                      by (by apply CharFacts.digit_not)
             end
         end;
  repeat match goal with
         | H : Chars.is_digit ?a = true |- _ =>
             lazymatch goal with
             | _ : Chars.chr ":" a = false |- _ => fail
             | _ => assert (Chars.chr ":" a = false)
                      by (by apply CharFacts.digit_not)
             end
         end;
  repeat match goal with
         | H : Chars.is_digit ?a = true |- _ =>
             lazymatch goal with
             | _ : Chars.chr "T" a = false |- _ => fail
             | _ => assert (Chars.chr "T" a = false)
                      by (by apply CharFacts.digit_not)
             end
         end.

(** Both parsers read the same fields from a wall-time string, whichever
    pattern they try first. *)
Lemma wall_string_fields s Y M D h m ss :
  wall_string s Y M D h m ss ->
  wall_fields s = Some (fields_of Y M D h m ss)
  ∧ ∃ mres, match exec_at basic_re s with
            | Some m => Some m
            | None => exec_at extended_re s
            end = Some mres
            ∧ fields_of_match mres = fields_of Y M D h m ss.
Proof.
  intros (HY & HM & HD & Hh & Hm & Hss & Hs).
  destruct Hss as [-> | Hss];
    destruct Hs as [-> | (sep & [-> | ->] & ->)]; split_digits;
    know_separators; know_dashes;
    unfold compact, extended, fields_of, str2; cbv [String.append Str.truthy].
  all: split;
    [ unfold wall_fields, exec_at, extended_re, basic_re; run_match; reflexivity
    | eexists; split;
      [ unfold exec_at, extended_re, basic_re; run_match; reflexivity
      | reflexivity ] ].
Qed.

Lemma wall_string_ranges s Y M D h m ss :
  wall_string s Y M D h m ss ->
  0 <= Str.number Y <= 9999
  ∧ Str.fixed 4 (Str.number Y) = Y ∧ Str.fixed 2 (Str.number M) = M
  ∧ Str.fixed 2 (Str.number D) = D ∧ Str.fixed 2 (Str.number h) = h
  ∧ Str.fixed 2 (Str.number m) = m
  ∧ Str.fixed 2 (Str.number ss) = (if Str.truthy ss then ss else "00").
Proof.
  intros (HY & HM & HD & Hh & Hm & Hss & _).
  destruct (fixed4_number Y HY) as [EY RY].
  destruct (fixed2_number M HM) as [EM _].
  destruct (fixed2_number D HD) as [ED _].
  destruct (fixed2_number h Hh) as [Eh _].
  destruct (fixed2_number m Hm) as [Em _].
  repeat (split; [done|]).
  destruct Hss as [-> | Hss]; [done|].
  destruct (fixed2_number ss Hss) as [Es _]. rewrite Es.
  destruct Hss as [Hl _]. by destruct ss.
Qed.

End WallStringFacts.


(** ** From a wall-time string to the instant and to its date key *)

Module KeyFacts.
Import Regex Shapes TzUtils TzUtilsMore DateUtils Pure Views StateFacts
  ParserFacts TemporalFacts FormatFacts DateKeyFacts CalendarFacts WallFacts
  StampFacts OffsetLabelFacts DisplayNameFacts RoundTripFacts DigitFacts
  WallStringFacts.

Lemma time_of_day_bounds f :
  calendar_fields f ->
  0 <= Time.MakeTime (Temporal.hour f) (Temporal.minute f) (Temporal.second f) 0
    < Time.msPerDay.
Proof.
  intros (_ & _ & Hh & Hm & Hs).
  unfold Time.MakeTime, Time.msPerDay, Time.msPerHour, Time.msPerMinute,
    Time.msPerSecond. lia.
Qed.

Lemma Day_wall_of f :
  calendar_fields f ->
  Time.Day (wall_of f)
  = Time.days_from_civil (Temporal.year f) (Temporal.month f) (Temporal.day f)
  ∧ Time.TimeWithinDay (wall_of f)
    = Time.MakeTime (Temporal.hour f) (Temporal.minute f) (Temporal.second f) 0.
Proof.
  intros Hc. pose proof (time_of_day_bounds f Hc) as Hb.
  unfold wall_of, Time.Day, Time.TimeWithinDay, Time.MakeDate in *.
  set (day := Time.days_from_civil _ _ _).
  set (tm := Time.MakeTime _ _ _ _) in *. unfold Time.msPerDay in *.
  split.
  - symmetry. apply (Z.div_unique _ _ _ tm); lia.
  - symmetry. apply (Z.mod_unique _ _ day); lia.
Qed.

(** The date of the wall-clock reading of calendar fields is the date of
    the fields. *)
Lemma wall_of_date f :
  calendar_fields f ->
  Time.ymd_of_time (wall_of f)
  = (Temporal.year f, Temporal.month f, Temporal.day f).
Proof.
  intros Hc. unfold Time.ymd_of_time.
  destruct (Day_wall_of f Hc) as [-> _].
  destruct Hc as (Hm & Hd & _). by apply days_roundtrip.
Qed.

Lemma wall_of_clock f :
  calendar_fields f -> wall_clock (wall_of f) = f.
Proof.
  intros Hc. unfold wall_clock. rewrite (wall_of_date f Hc).
  destruct (Day_wall_of f Hc) as [_ ->].
  destruct Hc as (_ & _ & Hh & Hm & Hs). destruct f as [y mo d hh mi ss].
  simpl in *. f_equal.
  all: unfold Time.MakeTime, Time.msPerHour, Time.msPerMinute, Time.msPerSecond.
  all: Z.div_mod_to_equations; lia.
Qed.

Lemma wall_of_bound f :
  calendar_fields f -> 0 <= Temporal.year f <= 9999 ->
  Z.abs (wall_of f) <= 400000000000000.
Proof.
  intros Hc Hy. pose proof (time_of_day_bounds f Hc) as Hb.
  destruct Hc as (Hm & Hd & _).
  assert (Temporal.day f <= 31) as Hd31.
  { destruct Hd as [_ Hd]. revert Hd. unfold Time.days_in_month.
    repeat match goal with |- context [if ?b then _ else _] => destruct b end; lia. }
  unfold wall_of, Time.MakeDate in *.
  set (tm := Time.MakeTime _ _ _ _) in *.
  assert (-800000 <= Time.days_from_civil (Temporal.year f) (Temporal.month f)
                       (Temporal.day f) <= 3000000) as Hdays.
  { unfold Time.days_from_civil. cbv zeta.
    set (y' := if Temporal.month f <=? 2 then Temporal.year f - 1 else Temporal.year f).
    assert (-1 <= y' <= 9999) as Hy' by (unfold y'; destruct (_ <=? _); lia).
    clearbody y'. generalize dependent (Temporal.month f). intros mo ? ?.
    generalize dependent (Temporal.day f). intros dd ? ?.
    Z.div_mod_to_equations. lia. }
  unfold Time.msPerDay in *. lia.
Qed.

Lemma utc_year_range y : 0 <= y <= 9999 -> 100 <= utc_year y <= 9999.
Proof.
  intros Hy. unfold utc_year.
  destruct (Z.leb_spec 0 y); [|lia]. destruct (Z.leb_spec y 99); simpl; lia.
Qed.

(** [Date.UTC] on calendar fields. *)
Lemma Date_UTC_fields f :
  calendar_fields (utc_fields f) -> 0 <= Temporal.year f <= 9999 ->
  Time.Date_UTC (Temporal.year f) (Temporal.month f - 1) (Temporal.day f)
    (Temporal.hour f) (Temporal.minute f) (Temporal.second f)
  = Some (wall_of (utc_fields f)).
Proof.
  intros Hc Hy. pose proof (wall_of_bound _ Hc) as Hb.
  pose proof (utc_year_range _ Hy) as Hu.
  unfold Time.Date_UTC. fold (utc_year (Temporal.year f)).
  destruct Hc as (Hm & _). simpl in Hm, Hb.
  rewrite MakeDay_civil by done.
  change (Time.MakeDate _ _) with (wall_of (utc_fields f)).
  unfold Time.TimeClip.
  destruct (Z.leb_spec (Z.abs (wall_of (utc_fields f))) 8640000000000000); [done|].
  specialize (Hb ltac:(lia)). lia.
Qed.

(** [Temporal.PlainDateTime.from] on calendar fields. *)
Lemma PlainDateTime_from_fields f :
  calendar_fields f -> Temporal.PlainDateTime_from f = Ret (wall_of f).
Proof.
  intros (Hm & Hd & Hh & Hmi & Hs).
  unfold Temporal.PlainDateTime_from, Temporal.clamp, wall_of.
  destruct (Z.leb_spec (Temporal.month f) 0); [lia|].
  destruct (Z.leb_spec (Temporal.day f) 0); [lia|]. simpl.
  rewrite (Z.min_r 12), (Z.max_r 1 (Temporal.month f)) by lia.
  rewrite (Z.min_r _ (Temporal.day f)), (Z.max_r 1 (Temporal.day f)) by lia.
  rewrite (Z.min_r 23), (Z.max_r 0 (Temporal.hour f)) by lia.
  rewrite (Z.min_r 59 (Temporal.minute f)), (Z.max_r 0 (Temporal.minute f)) by lia.
  by rewrite (Z.min_r 59 (Temporal.second f)), (Z.max_r 0 (Temporal.second f)) by lia.
Qed.

Lemma plain_label_check :
  forallb (fun m => match minutesToOffset (Some m) with
                    | Some s =>
                        negb (String.eqb s "tzone://Microsoft/Custom"
                              || Str.startsWith "Customized Time Zone" s
                              || Str.startsWith "tzone://Microsoft/" s)
                        && negb (Str.startsWith (String dquote "") s)
                        && negb (Str.includes_char " " s || Str.includes_char "," s)
                        && negb (Str.startsWith "(" s)
                    | None => false
                    end) (Z_range (-840) 1681) = true.
Proof. vm_compute. reflexivity. Qed.

(** [resolveTZID] reads the label of [minutesToOffset] as the same offset,
    whatever the Windows table holds. *)
Lemma resolved_offset_label h st m label :
  -840 <= m <= 840 -> minutesToOffset (Some m) = Some label ->
  offsetMinutes (resolved h st label) = Some m.
Proof.
  intros Hb Hl. pose proof plain_label_check as H.
  rewrite forallb_forall in H.
  specialize (H m (Z_range_elem (-840) 1681 m ltac:(lia))). cbv beta in H.
  rewrite Hl in H.
  repeat (apply andb_true_iff in H as [H ?]).
  repeat match goal with
         | H : negb _ = true |- _ => apply negb_true_iff in H
         end.
  destruct (offset_label m Hb) as (label' & Hl' & _ & Hty & Hread & _).
  rewrite Hl in Hl'. injection Hl' as <-.
  simpl. unfold classify, cleaned.
  match goal with Hq : (String.eqb _ _ || _ || _) = false |- _ => rewrite Hq end.
  rewrite unquote_is_id by done.
  match goal with Hq : (Str.includes_char " " _ || _) = false |- _ => rewrite Hq end.
  rewrite andb_false_r.
  match goal with Hq : Str.startsWith "(" _ = false |- _ => rewrite Hq end.
  rewrite andb_false_r. unfold truthy_opt. by rewrite Hty, Hread.
Qed.

(** [parseWithOffset] on a wall-time string with calendar fields. *)
Lemma parseWithOffset_fields st s off Y M D hh mi ss m :
  wall_string s Y M D hh mi ss ->
  calendar_fields (utc_fields (fields_of Y M D hh mi ss)) ->
  offsetLabelToMinutes off = Some m ->
  ∃ label,
    minutesToOffset (Some m) = Some label ∧ -840 <= m <= 840
    ∧ Str.truthy label = true
    ∧ Z.abs (wall_of (utc_fields (fields_of Y M D hh mi ss))) <= 400000000000000
    ∧ parseWithOffset s off st
      = (Ret (Some (tagged
            (Some (wall_of (utc_fields (fields_of Y M D hh mi ss))
                   - m * Time.msPerMinute)) label)), st).
Proof.
  intros Hw Hc Hm.
  pose proof (OffsetFacts.offsetLabelToMinutes_bound _ _ Hm) as Hb.
  destruct (offset_label m Hb) as (label & Hl & _ & Hty & _ & _).
  destruct (wall_string_fields _ _ _ _ _ _ _ Hw) as (_ & mres & Hex & Hfm).
  destruct (wall_string_ranges _ _ _ _ _ _ _ Hw) as (Hy & _).
  pose proof (utc_year_range _ Hy) as Hu.
  pose proof (wall_of_bound _ Hc ltac:(simpl; lia)) as Hbound.
  exists label. repeat (split; [done|]).
  rewrite parseWithOffset_unfold, Hex. cbv zeta. rewrite Hm, Hfm.
  rewrite (Date_UTC_fields (fields_of Y M D hh mi ss) Hc Hy), Hl.
  simpl mbind. unfold tagged.
  rewrite <- (attachTz_fresh _ label Hty). do 4 f_equal.
  unfold Time.TimeClip, Time.msPerMinute.
  set (t := _ - _) in *.
  destruct (Z.leb_spec (Z.abs t) 8640000000000000); [done|]. unfold t in *. lia.
Qed.

End KeyFacts.

Section DateKeysOfParsedTimes.
Import Regex Shapes TzUtils TzUtilsMore DateUtils Pure Views StateFacts
  ParserFacts TemporalFacts FormatFacts DateKeyFacts CalendarFacts WallFacts
  StampFacts OffsetLabelFacts DisplayNameFacts RoundTripFacts DigitFacts
  WallStringFacts KeyFacts ExpandFacts.

(** X11.  The date key of a wall time parsed with an offset is the date
    written in the string.  For a wall-time string in either notation whose
    fields name a date of the calendar and a time of day, and an offset
    [offsetLabelToMinutes] reads, [parseWithOffset] returns the instant of
    that wall time at that offset, tagged with the normalised offset, and
    [getDateKey] of the result is the date of the string, not the UTC date
    of the instant.  Years 0000 to 0099 are the exception [Date.UTC]
    makes: they are read as 1900 to 1999. *)
Theorem parseWithOffset_date_key (h : host) (st : tzstate)
    (s off Y M D hh mi ss : string) (m : Z) :
  wall_string s Y M D hh mi ss ->
  calendar_fields (utc_fields (fields_of Y M D hh mi ss)) ->
  offsetLabelToMinutes off = Some m ->
  ∃ d label,
    minutesToOffset (Some m) = Some label
    ∧ parseWithOffset s off st = (Ret (Some d), st)
    ∧ d = tagged (Some (wall_of (utc_fields (fields_of Y M D hh mi ss))
                        - m * Time.msPerMinute)) label
    ∧ fst (getDateKey h d st)
      = Ret (date_of (utc_fields (fields_of Y M D hh mi ss)))
    ∧ (100 <= Str.number Y ->
       date_of (utc_fields (fields_of Y M D hh mi ss))
       = Y +:+ "-" +:+ M +:+ "-" +:+ D).
Proof.
  intros Hw Hc Hm.
  destruct (parseWithOffset_fields st _ _ _ _ _ _ _ _ _ Hw Hc Hm)
    as (label & Hl & Hb & Hty & Hbound & Hp).
  destruct (wall_string_ranges _ _ _ _ _ _ _ Hw) as (Hy & EY & EM & ED & _).
  pose proof (utc_year_range _ Hy) as Hu.
  eexists _, label. split; [done|]. split; [exact Hp|]. split; [done|].
  set (wall := wall_of (utc_fields (fields_of Y M D hh mi ss))) in *.
  set (d := tagged (Some (wall - m * Time.msPerMinute)) label).
  split.
  - destruct (getDateKey_tz h d st label eq_refl) as (st1 & _ & ->).
    { unfold d, tagged, date_tz, truthy_opt. simpl. by rewrite Hty. }
    pose proof (resolved_offset_label h st m label Hb Hl) as Hom.
    destruct (zone_id_offset _ _ _ _ Hom) as (label' & -> & _ & _ & Hzone).
    change (time d) with (Some (wall - m * Time.msPerMinute)).
    assert (wall - m * Time.msPerMinute
            + Temporal.offset_at (Temporal.fixed_zone (m * Time.msPerMinute))
                (wall - m * Time.msPerMinute) = wall) as Hread
      by (unfold Temporal.offset_at; simpl; lia).
    rewrite (zoned_key_four_digit_year h _ label' _ (Hzone _)).
    + rewrite Hread. unfold wall. by rewrite (wall_of_date _ Hc).
    + rewrite Hread. unfold wall. rewrite (wall_of_date _ Hc). simpl. lia.
  - intros H100. unfold date_of, utc_fields, fields_of.
    cbn [Temporal.year Temporal.month Temporal.day]. unfold utc_year.
    destruct (Z.leb_spec 0 (Str.number Y)); [|lia].
    destruct (Z.leb_spec (Str.number Y) 99); [lia|]. cbn [andb].
    unfold Time.yyyy_mm_dd. by rewrite EY, EM, ED.
Qed.

Lemma parseWithOffset_date_key_witness :
  ∃ d,
    parseWithOffset "2026-02-26 00:30" "UTC+01" Scenario.fresh
    = (Ret (Some d), Scenario.fresh)
    ∧ time d = Some 1772062200000
    ∧ toISOString d = Ret "2026-02-25T23:30:00.000Z"
    ∧ fst (getDateKey Scenario.utc_host d Scenario.fresh) = Ret "2026-02-26".
Proof.
  assert (wall_string "2026-02-26 00:30" "2026" "02" "26" "00" "30" "") as Hw.
  { repeat (split; [by repeat split|]). split; [by left|].
    right. exists " ". split; [by right | reflexivity]. }
  destruct (parseWithOffset_date_key Scenario.utc_host Scenario.fresh
              "2026-02-26 00:30" "UTC+01" "2026" "02" "26" "00" "30" "" 60 Hw
              ltac:(vm_compute; repeat split; discriminate) eq_refl)
    as (d & label & Hl & Hp & Hd & Hk & HY).
  exists d. split; [exact Hp|]. rewrite Hk, (HY ltac:(vm_compute; discriminate)).
  rewrite Hd. repeat split.
Defined.

(** X12.  The date key of a wall time parsed in a zone is the date written
    in the string.  For a wall-time string whose fields name a date of the
    calendar and a time of day, a zone argument that resolves to a valid
    zone of the database (offsets within a day) in which some instant shows
    that wall time (it is not skipped by a transition), and which
    [resolveTZID] names the same way, [parseDateTimeInZone] returns an
    instant tagged with the zone argument and [getDateKey] of it is the date
    of the string. *)
Theorem parseDateTimeInZone_date_key (h : host) (st : tzstate)
    (s zone Y M D hh mi ss : string) (zi : Temporal.zoneinfo) (t0 : Z) :
  wall_string s Y M D hh mi ss ->
  calendar_fields (fields_of Y M D hh mi ss) ->
  valid_zone h st (alias_of st zone) = true ->
  Temporal.zone_of_id (tzdb h) (alias_of st zone) = Ret zi ->
  offsets_within_a_day zi ->
  t0 + Temporal.offset_at zi t0 = wall_of (fields_of Y M D hh mi ss) ->
  iana (resolved h st zone) = Some (alias_of st zone) ->
  ∃ t d st1,
    parseDateTimeInZone h s zone st = (Ret (Some d), st1)
    ∧ d = tagged (Some t) zone
    ∧ t + Temporal.offset_at zi t = wall_of (fields_of Y M D hh mi ss)
    ∧ fst (getDateKey h d st1) = Ret (Y +:+ "-" +:+ M +:+ "-" +:+ D).
Proof.
  intros Hw Hc Hv Hz Hoff Ht0 Hi.
  destruct (wall_string_fields _ _ _ _ _ _ _ Hw) as (Hwf & _).
  destruct (wall_string_ranges _ _ _ _ _ _ _ Hw) as (Hy & EY & EM & ED & _).
  set (f := fields_of Y M D hh mi ss) in *.
  pose proof (wall_of_bound f Hc Hy) as Hbound.
  destruct (later_is_latest zi (wall_of f) t0 Ht0) as (t & Hlater & Hreads & _).
  assert (Str.truthy zone = true) as Hty
    by (by eapply alias_of_truthy, valid_zone_truthy).
  assert (Time.TimeClip t = Some t) as Hclip.
  { pose proof (offset_at_elem zi t) as Hin.
    unfold offsets_within_a_day in Hoff.
    rewrite List.Forall_forall in Hoff. specialize (Hoff _ Hin).
    unfold Time.TimeClip, Time.msPerDay in *.
    destruct (Z.leb_spec (Z.abs t) 8640000000000000); [done | lia]. }
  exists t, (tagged (Some t) zone), (remember h st (alias_of st zone)).
  split; [|split; [done|split; [done|]]].
  - rewrite parseDateTimeInZone_run, Hwf. cbv zeta. rewrite Hv.
    unfold Temporal.toZonedDateTime_later.
    rewrite (PlainDateTime_from_fields f Hc), Hz. simpl res_bind.
    rewrite Hlater. unfold new_Date, tagged.
    by rewrite attachTz_fresh, Hclip.
  - pose proof (same_view_zones _ _ _
                  (remember_same_view h st (alias_of st zone))) as Hsz.
    change (fst (getDateKey h ?d ?x)) with (key_of h x d).
    rewrite (key_of_zones _ _ _ _ Hsz). unfold key_of.
    destruct (getDateKey_tz h (tagged (Some t) zone) st zone eq_refl)
      as (st1 & _ & ->).
    { unfold tagged, date_tz, truthy_opt. simpl. by rewrite Hty. }
    rewrite (zone_id_iana _ _ _ _ Hi).
    change (time (tagged (Some t) zone)) with (Some t).
    rewrite (zoned_key_four_digit_year h t _ zi Hz).
    + rewrite Hreads, (wall_of_date f Hc). unfold f, fields_of.
      cbn [Temporal.year Temporal.month Temporal.day].
      unfold Time.yyyy_mm_dd. by rewrite EY, EM, ED.
    + rewrite Hreads, (wall_of_date f Hc). unfold f, fields_of, year_between.
      cbn [Temporal.year]. lia.
Qed.

Lemma parseDateTimeInZone_date_key_witness :
  ∃ d st1,
    parseDateTimeInZone Scenario.utc_host "20231108T160000"
      "America/Los_Angeles" Scenario.fresh = (Ret (Some d), st1)
    ∧ toISOString d = Ret "2023-11-09T00:00:00.000Z"
    ∧ fst (getDateKey Scenario.utc_host d st1) = Ret "2023-11-08".
Proof.
  assert (wall_string "20231108T160000" "2023" "11" "08" "16" "00" "00") as Hw.
  { repeat (split; [by repeat split|]). split; [right; by repeat split|].
    by left. }
  assert (offsets_within_a_day Scenario.LosAngeles) as Hoff.
  { unfold offsets_within_a_day, Temporal.all_offsets, Time.msPerDay. simpl.
    repeat (constructor; [lia|]). constructor. }
  destruct (parseDateTimeInZone_date_key Scenario.utc_host Scenario.fresh
              "20231108T160000" "America/Los_Angeles"
              "2023" "11" "08" "16" "00" "00" Scenario.LosAngeles
              1699488000000 Hw
              ltac:(vm_compute; repeat split; discriminate)
              eq_refl eq_refl Hoff eq_refl
              ltac:(vm_compute; reflexivity))
    as (t & d & st1 & Hp & Hd & Hr & Hk).
  exists d, st1. split; [exact Hp|]. split; [|exact Hk].
  assert (Some (tagged (Some t) "America/Los_Angeles")
          = Some (tagged (Some 1699488000000) "America/Los_Angeles")) as Ht.
  { assert (fst (parseDateTimeInZone Scenario.utc_host "20231108T160000"
                   "America/Los_Angeles" Scenario.fresh)
            = Ret (Some (tagged (Some 1699488000000) "America/Los_Angeles")))
      as Hrun by (vm_compute; reflexivity).
    rewrite Hp, Hd in Hrun. simpl in Hrun. by injection Hrun as ->. }
  rewrite Hd. injection Ht as ->. reflexivity.
Defined.

(** X13.  [parseWithOffset] followed by [formatDateForRrule] at the same
    offset prints the wall time back in the compact notation, for a
    wall-time string in either notation with calendar fields and a year
    from 1000 on: the same digit groups, with seconds 00 when the string
    had none. *)
Theorem parseWithOffset_then_format (h : host) (st : tzstate)
    (s off Y M D hh mi ss : string) (m : Z) :
  wall_string s Y M D hh mi ss ->
  calendar_fields (fields_of Y M D hh mi ss) ->
  1000 <= Str.number Y ->
  offsetLabelToMinutes off = Some m ->
  ∃ d,
    parseWithOffset s off st = (Ret (Some d), st)
    ∧ formatDateForRrule h (ADate d) (offset_info m) st
      = (Ret (Some (compact Y M D hh mi (if Str.truthy ss then ss else "00"))),
         st).
Proof.
  intros Hw Hc H1000 Hm.
  destruct (wall_string_ranges _ _ _ _ _ _ _ Hw)
    as (Hy & EY & EM & ED & Eh & Emi & Ess).
  set (f := fields_of Y M D hh mi ss) in *.
  assert (utc_fields f = f) as Hu.
  { unfold utc_fields, utc_year, f, fields_of. simpl.
    destruct (Z.leb_spec 0 (Str.number Y)); [|lia].
    by destruct (Z.leb_spec (Str.number Y) 99); [lia|]. }
  destruct (parseWithOffset_fields st s off Y M D hh mi ss m Hw
              ltac:(fold f; by rewrite Hu) Hm)
    as (label & Hl & Hb & Hty & _ & Hp).
  fold f in Hp. rewrite Hu in Hp.
  eexists. split; [exact Hp|].
  rewrite (formatDateForRrule_run h
             (tagged (Some (wall_of f - m * Time.msPerMinute)) label)
             (offset_info m) st (wall_of f - m * Time.msPerMinute) eq_refl).
  cbv zeta.
  cbn [offset_info iana offsetMinutes truthy_opt]. rewrite Hl.
  unfold truthy_opt. rewrite Hty.
  destruct (offset_label m Hb) as (label' & Hl' & _ & _ & _ & Hzone).
  rewrite Hl in Hl'. injection Hl' as <-.
  rewrite zoned_fields_run, Hzone. unfold res_bind, Temporal.offset_at.
  cbn [Temporal.fixed_zone Temporal.zi_transitions Temporal.zi_initial
       Temporal.offset_in].
  replace (wall_of f - m * Time.msPerMinute + m * Time.msPerMinute)
    with (wall_of f) by lia.
  rewrite (wall_of_clock f Hc).
  do 3 f_equal. unfold stamp, compact, pad2, f, fields_of.
  cbn [Temporal.year Temporal.month Temporal.day Temporal.hour
       Temporal.minute Temporal.second].
  destruct Hc as (Hmo & Hd & Hh & Hmin & Hs). unfold f, fields_of in *.
  cbn [Temporal.year Temporal.month Temporal.day Temporal.hour
       Temporal.minute Temporal.second] in *.
  assert (Str.number D <= 31) as Hd31.
  { destruct Hd as [_ Hd]. revert Hd. unfold Time.days_in_month.
    repeat match goal with |- context [if ?b then _ else _] => destruct b end; lia. }
  rewrite (of_Z_four_digits (Str.number Y)) by lia.
  rewrite !pad_two_digits by lia.
  by rewrite EY, EM, ED, Eh, Emi, Ess.
Qed.

Lemma parseWithOffset_then_format_witness :
  ∃ d,
    parseWithOffset "2026-02-26 00:30" "UTC+01" Scenario.fresh
    = (Ret (Some d), Scenario.fresh)
    ∧ formatDateForRrule Scenario.utc_host (ADate d) (offset_info 60)
        Scenario.fresh
      = (Ret (Some "20260226T003000"), Scenario.fresh).
Proof.
  assert (wall_string "2026-02-26 00:30" "2026" "02" "26" "00" "30" "") as Hw.
  { repeat (split; [by repeat split|]). split; [by left|].
    right. exists " ". split; [by right | reflexivity]. }
  exact (parseWithOffset_then_format Scenario.utc_host Scenario.fresh
           "2026-02-26 00:30" "UTC+01" "2026" "02" "26" "00" "30" "" 60 Hw
           ltac:(vm_compute; repeat split; discriminate)
           ltac:(vm_compute; discriminate) eq_refl).
Defined.

End DateKeysOfParsedTimes.


(** ** Date arithmetic, UTC names, tags and invalid dates *)

Section SmallExports.
Import Regex Shapes TzUtils TzUtilsMore DateUtils Pure Views StateFacts
  ParserFacts FormatFacts DateKeyFacts.

(** X14.  [utcAdd] adds whole units to the time value and returns a new
    date without [tz] or [dateOnly].  While the intermediate date stays
    valid, adding [a] and then [b] units is adding [a + b], and adding [-a]
    undoes adding [a]; a week is seven days, a day 24 hours, an hour 60
    minutes and a minute 60 seconds. *)
Theorem utcAdd_adds (d : JsDate) (a b t f : Z) (u : string) :
  time d = Some t ->
  msPer u = Some (Some f) ->
  Time.TimeClip (t + a * f) = Some (t + a * f) ->
  utcAdd (ADate d) a u = Returned (Some (new_Date (t + a * f)))
  ∧ utcAdd (ADate (new_Date (t + a * f))) b u = utcAdd (ADate d) (a + b) u
  ∧ utcAdd (ADate (new_Date (t + a * f))) (- a) u = Returned (Some (new_Date t))
  ∧ utcAdd (ADate d) a "weeks" = utcAdd (ADate d) (7 * a) "days"
  ∧ utcAdd (ADate d) a "days" = utcAdd (ADate d) (24 * a) "hours"
  ∧ utcAdd (ADate d) a "hours" = utcAdd (ADate d) (60 * a) "minutes"
  ∧ utcAdd (ADate d) a "minutes" = utcAdd (ADate d) (60 * a) "seconds".
Proof.
  intros Ht Hu Hc.
  assert (∀ e x y g k, time e = Some x -> msPer y = Some (Some g) ->
          utcAdd (ADate e) k y = Returned (Some (new_Date (x + k * g)))) as Hrun.
  { intros e x y g k Hx Hy. unfold utcAdd, new_Date. by rewrite Hy, Hx. }
  assert (time (new_Date (t + a * f)) = Some (t + a * f)) as Ht' by exact Hc.
  rewrite (Hrun d t u f a Ht Hu).
  rewrite (Hrun _ _ u f b Ht' Hu), (Hrun d t u f (a + b) Ht Hu).
  rewrite (Hrun _ _ u f (- a) Ht' Hu).
  rewrite (Hrun d t "weeks" _ a Ht eq_refl), (Hrun d t "days" _ (7 * a) Ht eq_refl).
  rewrite (Hrun d t "days" _ a Ht eq_refl), (Hrun d t "hours" _ (24 * a) Ht eq_refl).
  rewrite (Hrun d t "hours" _ a Ht eq_refl), (Hrun d t "minutes" _ (60 * a) Ht eq_refl).
  rewrite (Hrun d t "minutes" _ a Ht eq_refl), (Hrun d t "seconds" _ (60 * a) Ht eq_refl).
  split; [done|]. repeat split; do 3 f_equal; lia.
Qed.

Lemma utcAdd_adds_witness :
  utcAdd (ADate (Scenario.zoned_date 1735689600000 "Etc/GMT")) 2 "days"
  = Returned (Some (Scenario.plain_date 1735862400000))
  ∧ utcAdd (ADate (Scenario.plain_date 1735862400000)) (-2) "days"
    = Returned (Some (Scenario.plain_date 1735689600000)).
Proof.
  destruct (utcAdd_adds (Scenario.zoned_date 1735689600000 "Etc/GMT") 2 0
              1735689600000 86400000 "days" eq_refl eq_refl eq_refl)
    as (H1 & _ & H3 & _).
  split; [exact H1 | exact H3].
Defined.

(** X16.  [isUtcTimezone] ignores the case of its argument, and of the Etc
    zones [minutesToEtcZone] prints it accepts exactly the one of offset
    zero. *)
Theorem isUtcTimezone_etc_zone (m : Z) (e : string) :
  minutesToEtcZone (Some m) = Some e ->
  (isUtcTimezone (Some e) = true ↔ m = 0)
  ∧ ∀ s, isUtcTimezone (Some (Str.toLowerCase s)) = isUtcTimezone (Some s).
Proof.
  intros He. split.
  - unfold minutesToEtcZone in He.
    destruct (Z.eqb_spec m 0) as [->|Hne].
    + injection He as <-. done.
    + destruct (negb (Z.rem m 60 =? 0)); [done|]. injection He as <-.
      split; [|done]. intros H. exfalso. revert H.
      destruct (0 <? m); cbv [String.append]; discriminate.
  - intros s.
    assert (∀ c, Chars.lower (Chars.lower c) = Chars.lower c) as Hlow.
    { intros c. destruct c as [[] [] [] [] [] [] [] []]; reflexivity. }
    assert (∀ x, Str.toLowerCase (Str.toLowerCase x) = Str.toLowerCase x) as Hid.
    { intros x. unfold Str.toLowerCase. induction x as [|c x IH]; [done|].
      simpl. by rewrite Hlow, IH. }
    assert (∀ x, Str.truthy (Str.toLowerCase x) = Str.truthy x) as Htr
      by (by intros []).
    unfold isUtcTimezone, truthy_opt. rewrite Htr.
    destruct (Str.truthy s); [|done]. cbv zeta. by rewrite Hid.
Qed.

Lemma isUtcTimezone_etc_zone_witness :
  isUtcTimezone (Some "Etc/GMT") = true
  ∧ isUtcTimezone (Some "ETC/gmt") = isUtcTimezone (Some "etc/gmt").
Proof.
  destruct (isUtcTimezone_etc_zone 0 "Etc/GMT" eq_refl) as [H1 H2].
  split; [by apply H1|]. symmetry. exact (H2 "ETC/gmt").
Defined.

(** X17.  [attachTz] with a non-empty identifier leaves a date whose [tz]
    is that identifier and is hidden from enumeration, whatever [tz] the date
    carried, hidden or not; the time value and [dateOnly] are untouched;
    attaching the same identifier again changes nothing and a later
    identifier replaces an earlier one.  Without an identifier (absent or
    empty) the date is returned as it is. *)
Theorem attachTz_tags (d : JsDate) (tzid : string) :
  Str.truthy tzid = true ->
  tz (attachTz d (Some tzid)) = Some {| tz_value := tzid; tz_enumerable := false |}
  ∧ time (attachTz d (Some tzid)) = time d
  ∧ dateOnly (attachTz d (Some tzid)) = dateOnly d
  ∧ attachTz (attachTz d (Some tzid)) (Some tzid) = attachTz d (Some tzid)
  ∧ (∀ other, Str.truthy other = true ->
       attachTz (attachTz d (Some tzid)) (Some other) = attachTz d (Some other))
  ∧ attachTz d None = d ∧ attachTz d (Some "") = d.
Proof.
  intros Ht.
  assert (∀ x (e : JsDate), Str.truthy x = true ->
          attachTz e (Some x)
          = {| time := time e;
               tz := Some {| tz_value := x; tz_enumerable := false |};
               dateOnly := dateOnly e |}) as Hrun.
  { intros x e Hx. unfold attachTz, truthy_opt, date_tz. rewrite Hx.
    destruct e as [tm [[v en]|] dO]; simpl; [|done].
    destruct (decide (Some v = Some x)) as [[= ->]|Hne].
    - rewrite bool_decide_eq_true_2 by done. by destruct en.
    - by rewrite bool_decide_eq_false_2. }
  rewrite !Hrun by done. simpl. repeat split; try done.
  intros other Ho. by rewrite !Hrun.
Qed.

Lemma attachTz_tags_witness :
  tz (attachTz {| time := Some 0;
                  tz := Some {| tz_value := "Etc/GMT"; tz_enumerable := true |};
                  dateOnly := true |} (Some "Etc/GMT"))
  = Some {| tz_value := "Etc/GMT"; tz_enumerable := false |}.
Proof.
  destruct (attachTz_tags
              {| time := Some 0;
                 tz := Some {| tz_value := "Etc/GMT"; tz_enumerable := true |};
                 dateOnly := true |} "Etc/GMT" eq_refl) as (H & _).
  exact H.
Defined.

(** X18.  [getDateKey] throws exactly on an invalid date that is not
    date-only.  A valid date always gets a key, whatever [tz] it carries:
    an error of Temporal is caught.  An invalid date that is date-only gets
    the key 'NaN-NaN-NaN'; any other invalid date makes the [RangeError] of
    [toISOString] escape. *)
Theorem getDateKey_throws_on_invalid_dates (h : host) (d : JsDate)
    (st : tzstate) :
  (∀ t, time d = Some t -> ∃ key st', getDateKey h d st = (Ret key, st'))
  ∧ (time d = None -> dateOnly d = true ->
     getDateKey h d st = (Ret "NaN-NaN-NaN", st))
  ∧ (time d = None -> dateOnly d = false ->
     fst (getDateKey h d st) = Throw (RangeError "Invalid time value")).
Proof.
  split; [|split].
  - intros t Ht. destruct (dateOnly d) eqn:Hd.
    { rewrite getDateKey_dateOnly by done. eauto. }
    assert (∃ key, utc_key d = Ret key) as [k Hk].
    { unfold utc_key, toISOString. rewrite Ht. simpl. eauto. }
    destruct (truthy_opt (date_tz d)) as [tzid|] eqn:Htz.
    + destruct (getDateKey_tz h d st tzid Hd Htz) as (st1 & _ & ->).
      destruct (zone_id _) as [id|]; [|rewrite Hk; eauto].
      destruct (Temporal.zoned_date_string _ _ _) as [key|e]; [eauto|].
      rewrite Hk. eauto.
    + rewrite getDateKey_no_tz by done. rewrite Hk. eauto.
  - intros Ht Hd. rewrite getDateKey_dateOnly by done.
    unfold local_key, local_ymd. by rewrite Ht.
  - intros Ht Hd.
    assert (utc_key d = Throw (RangeError "Invalid time value")) as Hk
      by (unfold utc_key, toISOString; by rewrite Ht).
    destruct (truthy_opt (date_tz d)) as [tzid|] eqn:Htz.
    + destruct (getDateKey_tz h d st tzid Hd Htz) as (st1 & _ & ->).
      destruct (zone_id _) as [id|]; [|by rewrite Hk].
      rewrite Ht. unfold Temporal.zoned_date_string. by rewrite Hk.
    + rewrite getDateKey_no_tz by done. by rewrite Hk.
Qed.

Lemma getDateKey_throws_on_invalid_dates_witness :
  fst (getDateKey Scenario.utc_host
         {| time := None;
            tz := Some {| tz_value := "Etc/GMT"; tz_enumerable := false |};
            dateOnly := false |} Scenario.fresh)
  = Throw (RangeError "Invalid time value")
  ∧ ∃ key st',
      getDateKey Scenario.utc_host
        (Scenario.zoned_date 1699488000000 "Etc/Unknown") Scenario.aliased
      = (Ret key, st').
Proof.
  split.
  - destruct (getDateKey_throws_on_invalid_dates Scenario.utc_host
                {| time := None;
                   tz := Some {| tz_value := "Etc/GMT"; tz_enumerable := false |};
                   dateOnly := false |} Scenario.fresh) as (_ & _ & H).
    exact (H eq_refl eq_refl).
  - destruct (getDateKey_throws_on_invalid_dates Scenario.utc_host
                (Scenario.zoned_date 1699488000000 "Etc/Unknown")
                Scenario.aliased) as (H & _).
    exact (H 1699488000000 eq_refl).
Defined.

End SmallExports.


(** ** The index of Windows labels *)

Module WindowsFacts.
Import TzUtils.

Lemma addVariant_keeps label data index k v :
  index !! k = Some v -> addVariant label data index !! k = Some v.
Proof.
  intros H. unfold addVariant.
  destruct (negb _ || bool_decide _) eqn:E; [done|].
  apply orb_false_iff in E as [_ E]. apply bool_decide_eq_false in E.
  rewrite lookup_insert_ne; [done|]. intros <-. apply E. by exists v.
Qed.

Lemma addVariant_from label data index k v :
  addVariant label data index !! k = Some v ->
  index !! k = Some v ∨ v = data.
Proof.
  unfold addVariant. destruct (negb _ || bool_decide _); [by left|].
  destruct (decide (normalizeWindowsLabel label = k)) as [<-|Hne].
  - rewrite lookup_insert_eq. intros [= <-]. by right.
  - rewrite lookup_insert_ne by done. by left.
Qed.

Lemma addVariant_has label data index :
  Str.truthy (normalizeWindowsLabel label) = true ->
  is_Some (addVariant label data index !! normalizeWindowsLabel label).
Proof.
  intros Ht. unfold addVariant. rewrite Ht. simpl.
  destruct (decide (is_Some (index !! normalizeWindowsLabel label))) as [Hs|Hn].
  - by rewrite bool_decide_eq_true_2.
  - rewrite bool_decide_eq_false_2 by done. rewrite lookup_insert_eq. eauto.
Qed.

Lemma segments_keep data segs : ∀ index k v,
  index !! k = Some v ->
  fold_left (fun index segment => addVariant segment data index) segs index !! k
  = Some v.
Proof.
  induction segs as [|s segs IH]; intros index k v H; [done|].
  simpl. by apply IH, addVariant_keeps.
Qed.

Lemma segments_from data segs : ∀ index k v,
  fold_left (fun index segment => addVariant segment data index) segs index !! k
  = Some v ->
  index !! k = Some v ∨ v = data.
Proof.
  induction segs as [|s segs IH]; intros index k v H; [by left|].
  simpl in H. apply IH in H as [H | ->]; [|by right].
  by apply addVariant_from in H.
Qed.

Lemma buildWindowsLabelIndex_steps source :
  buildWindowsLabelIndex source = fold_left Views.index_step source ∅.
Proof. reflexivity. Qed.

Lemma index_step_keeps index entry k v :
  index !! k = Some v -> Views.index_step index entry !! k = Some v.
Proof.
  intros H. destruct entry as [label data]. unfold Views.index_step.
  destruct (negb _); [|by apply addVariant_keeps].
  destruct (Str.includes_char _ _).
  - by apply segments_keep, addVariant_keeps, addVariant_keeps.
  - by apply addVariant_keeps, addVariant_keeps.
Qed.

Lemma index_step_from index label data k v :
  Views.index_step index (label, data) !! k = Some v ->
  index !! k = Some v ∨ v = data.
Proof.
  unfold Views.index_step. destruct (negb _).
  - destruct (Str.includes_char _ _); intros H.
    + apply segments_from in H as [H | ->]; [|by right].
      apply addVariant_from in H as [H | ->]; [|by right].
      by apply addVariant_from in H.
    + apply addVariant_from in H as [H | ->]; [|by right].
      by apply addVariant_from in H.
  - apply addVariant_from.
Qed.

Lemma index_step_has index label data :
  Str.truthy (normalizeWindowsLabel label) = true ->
  is_Some (Views.index_step index (label, data) !! normalizeWindowsLabel label).
Proof.
  intros Ht. destruct (addVariant_has label data index Ht) as [v Hv].
  exists v. unfold Views.index_step. destruct (negb _); [|done].
  destruct (Str.includes_char _ _).
  - by apply segments_keep, addVariant_keeps.
  - by apply addVariant_keeps.
Qed.

Lemma steps_keep entries : ∀ index k v,
  index !! k = Some v -> fold_left Views.index_step entries index !! k = Some v.
Proof.
  induction entries as [|e entries IH]; intros index k v H; [done|].
  simpl. by apply IH, index_step_keeps.
Qed.

Lemma steps_from entries : ∀ index k v,
  fold_left Views.index_step entries index !! k = Some v ->
  index !! k = Some v ∨ ∃ label, In (label, v) entries.
Proof.
  induction entries as [|[label data] entries IH]; intros index k v H; [by left|].
  simpl in H. apply IH in H as [H | (l & Hl)].
  - apply index_step_from in H as [H | ->]; [by left|].
    right. exists label. by left.
  - right. exists l. by right.
Qed.

Lemma steps_have entries : ∀ index label data,
  In (label, data) entries ->
  Str.truthy (normalizeWindowsLabel label) = true ->
  is_Some (fold_left Views.index_step entries index !! normalizeWindowsLabel label).
Proof.
  induction entries as [|e entries IH]; intros index label data Hin Ht; [done|].
  simpl. destruct Hin as [-> | Hin].
  - destruct (index_step_has index label data Ht) as [v Hv].
    exists v. by apply steps_keep.
  - by eapply IH.
Qed.

(** Every value of the index is the data of an entry of the table, and
    every label of the table with a non-empty normal form is a key. *)
Lemma index_from source k v :
  buildWindowsLabelIndex source !! k = Some v -> ∃ label, In (label, v) source.
Proof.
  rewrite buildWindowsLabelIndex_steps. intros H.
  apply steps_from in H as [H | H]; [|done]. by rewrite lookup_empty in H.
Qed.

Lemma index_has source label data :
  In (label, data) source ->
  Str.truthy (normalizeWindowsLabel label) = true ->
  is_Some (buildWindowsLabelIndex source !! normalizeWindowsLabel label).
Proof. rewrite buildWindowsLabelIndex_steps. apply steps_have. Qed.

Lemma table_lookup_In label t v :
  table_lookup label t = Some v -> In (label, v) t.
Proof.
  induction t as [|[k x] t IH]; [done|]. simpl.
  destruct (String.eqb_spec k label) as [->|Hne].
  - intros [= ->]. by left.
  - intros H. right. by apply IH.
Qed.

Lemma table_lookup_entry t : ∀ key data,
  NoDup (List.map fst t) -> In (key, data) t -> table_lookup key t = Some data.
Proof.
  induction t as [|[k x] t IH]; intros key data Hnd Hin; [done|].
  simpl in Hnd. apply NoDup_cons in Hnd as [Hk Hnd]. simpl.
  destruct Hin as [[= -> ->]|Hin]; [by rewrite String.eqb_refl|].
  destruct (String.eqb_spec k key) as [->|Hne]; [|by apply IH].
  exfalso. apply Hk. apply list_elem_of_In, in_map_iff. by exists (key, data).
Qed.

Lemma first_iana_Some entry z :
  first_iana entry = Some z -> ∃ rest, entry = Some (z :: rest).
Proof. destruct entry as [[|x l]|]; try done. intros [= ->]. eauto. Qed.

Lemma first_segment_hit_from index segs z :
  first_segment_hit index segs = Some z ->
  ∃ k rest, index !! k = Some (z :: rest).
Proof.
  induction segs as [|s segs IH]; [done|]. simpl.
  destruct (first_iana (index !! normalizeWindowsLabel s)) as [x|] eqn:E.
  - intros [= ->]. apply first_iana_Some in E as [rest E]. eauto.
  - apply IH.
Qed.

End WindowsFacts.

Section WindowsLabels.
Import TzUtils Views WindowsFacts.

(** X19.  [mapWindowsZone] never invents a zone: whatever it returns is
    the first IANA name of some entry of the table. *)
Theorem mapWindowsZone_names_table_zones (h : host) (label z : string) :
  mapWindowsZone h label = Some z ->
  ∃ key rest, In (key, z :: rest) (windowsZones h).
Proof.
  unfold mapWindowsZone.
  destruct (first_iana (table_lookup label (windowsZones h))) as [x|] eqn:E1.
  { intros [= ->]. apply first_iana_Some in E1 as [rest E1].
    exists label, rest. by apply table_lookup_In. }
  set (index := buildWindowsLabelIndex (windowsZones h)).
  assert (∀ k rest, index !! k = Some (z :: rest) ->
          ∃ key rest, In (key, z :: rest) (windowsZones h)) as Hidx.
  { intros k rest Hk. apply index_from in Hk as [key Hk]. eauto. }
  destruct (first_iana (index !! normalizeWindowsLabel label)) as [x|] eqn:E2.
  { intros [= ->]. apply first_iana_Some in E2 as [rest E2]. eauto. }
  destruct (Str.includes_char "," label); [|done].
  intros H. apply first_segment_hit_from in H as (k & rest & H). eauto.
Qed.

Lemma mapWindowsZone_names_table_zones_witness :
  ∃ key rest,
    In (key, "Europe/Berlin" :: rest) (windowsZones Scenario.utc_host).
Proof.
  apply (mapWindowsZone_names_table_zones Scenario.utc_host
           "Somewhere, w. europe standard time" "Europe/Berlin").
  vm_compute. reflexivity.
Defined.

(** X20.  [mapWindowsZone] finds the labels of the table whatever their
    letter case and spacing.  For a table with distinct labels (it is an
    object) whose entries each name at least one zone, a text with the same
    normal form ([normalizeWindowsLabel]) as a label of the table is mapped
    to a zone of the table, and the label itself, as written in the table,
    is mapped to the first zone of its entry. *)
Theorem mapWindowsZone_ignores_case_and_spacing (h : host)
    (key label : string) (data : list string) :
  NoDup (List.map fst (windowsZones h)) ->
  (∀ k d, In (k, d) (windowsZones h) -> d ≠ []) ->
  In (key, data) (windowsZones h) ->
  Str.truthy (normalizeWindowsLabel key) = true ->
  normalizeWindowsLabel label = normalizeWindowsLabel key ->
  (∃ z k rest, mapWindowsZone h label = Some z
               ∧ In (k, z :: rest) (windowsZones h))
  ∧ ∃ z rest, data = z :: rest ∧ mapWindowsZone h key = Some z.
Proof.
  intros Hnd Hall Hin Ht Hn. split.
  - unfold mapWindowsZone.
    destruct (first_iana (table_lookup label (windowsZones h))) as [x|] eqn:E.
    { apply first_iana_Some in E as [rest E]. apply table_lookup_In in E.
      by exists x, label, rest. }
    destruct (index_has _ _ _ Hin Ht) as [v Hv]. rewrite Hn, Hv.
    apply index_from in Hv as [l Hl]. pose proof (Hall _ _ Hl) as Hne.
    destruct v as [|x v]; [done|]. simpl. by exists x, l, v.
  - pose proof (Hall _ _ Hin) as Hne.
    destruct data as [|z rest]; [done|]. exists z, rest. split; [done|].
    unfold mapWindowsZone.
    by rewrite (table_lookup_entry _ _ _ Hnd Hin).
Qed.

Lemma mapWindowsZone_ignores_case_and_spacing_witness :
  ∃ z k rest,
    mapWindowsZone Scenario.utc_host "  w. EUROPE   standard time" = Some z
    ∧ In (k, z :: rest) (windowsZones Scenario.utc_host).
Proof.
  destruct (mapWindowsZone_ignores_case_and_spacing Scenario.utc_host
              "W. Europe Standard Time" "  w. EUROPE   standard time"
              ["Europe/Berlin"]) as [H _].
  - simpl. apply NoDup_singleton.
  - intros k d [[= <- <-]|[]]. discriminate.
  - by left.
  - reflexivity.
  - vm_compute. reflexivity.
  - exact H.
Defined.

End WindowsLabels.


(** ** The normal form of a label *)

Module NormalFacts.
Import TzUtils Views.

Lemma app_empty s : s +:+ "" = s.
Proof.
  induction s as [|c s IH]; [done|].
  change (String c s +:+ "") with (String c (s +:+ "")). by rewrite IH.
Qed.

Lemma app_assoc' a : ∀ b c, (a +:+ b) +:+ c = a +:+ (b +:+ c).
Proof.
  induction a as [|x a IH]; intros b c; [done|].
  change ((String x a +:+ b) +:+ c) with (String x ((a +:+ b) +:+ c)).
  by rewrite IH.
Qed.

Lemma rev_app_app s : ∀ acc, String.rev_app s acc = String.rev s +:+ acc.
Proof.
  unfold String.rev. induction s as [|c s IH]; intros acc; [done|].
  simpl. rewrite IH, (IH (String c "")). by rewrite app_assoc'.
Qed.

Lemma rev_cons c s : String.rev (String c s) = String.rev s +:+ String c "".
Proof. unfold String.rev at 1. simpl. by rewrite rev_app_app. Qed.

Lemma rev_snoc s : ∀ c, String.rev (s +:+ String c "") = String c (String.rev s).
Proof.
  induction s as [|x s IH]; intros c; [done|].
  change (String x s +:+ String c "") with (String x (s +:+ String c "")).
  by rewrite !rev_cons, IH.
Qed.

Lemma drop_while_snoc p s : ∀ c,
  Str.drop_while p (s +:+ String c "")
  = match Str.drop_while p s with
    | "" => if p c then "" else String c ""
    | r => r +:+ String c ""
    end.
Proof.
  induction s as [|x s IH]; intros c; [done|].
  change (String x s +:+ String c "") with (String x (s +:+ String c "")).
  simpl. destruct (p x); [apply IH | done].
Qed.

Lemma rev_empty s : String.rev s = "" -> s = "".
Proof.
  destruct s as [|c s]; [done|]. rewrite rev_cons.
  by destruct (String.rev s).
Qed.

(** [trim_end] removes the white space at the end. *)
Lemma trim_end_drop_end s : Str.trim_end s = drop_end Chars.is_space s.
Proof.
  unfold Str.trim_end. induction s as [|c s IH]; [done|].
  rewrite rev_cons, drop_while_snoc. simpl. rewrite <- IH.
  destruct (Str.drop_while Chars.is_space (String.rev s)) as [|x r] eqn:E.
  - by destruct (Chars.is_space c).
  - rewrite rev_snoc.
    destruct (String.rev (String x r)) as [|y q] eqn:E'; [|done].
    by apply rev_empty in E'.
Qed.

Lemma trim_forward s :
  Str.trim s = drop_end Chars.is_space (Str.drop_while Chars.is_space s).
Proof. unfold Str.trim, Str.trim_start. apply trim_end_drop_end. Qed.

Lemma is_space_lower c : Chars.is_space (Chars.lower c) = Chars.is_space c.
Proof. destruct c as [[] [] [] [] [] [] [] []]; reflexivity. Qed.

Lemma lower_lower c : Chars.lower (Chars.lower c) = Chars.lower c.
Proof. destruct c as [[] [] [] [] [] [] [] []]; reflexivity. Qed.

Lemma collapse_lower s : ∀ b,
  collapse_spaces b (Str.toLowerCase s) = Str.toLowerCase (collapse_spaces b s).
Proof.
  unfold Str.toLowerCase.
  induction s as [|c s IH]; intros b; [done|]. simpl.
  rewrite is_space_lower. destruct (Chars.is_space c).
  - destruct b; simpl; by rewrite IH.
  - simpl. by rewrite IH.
Qed.

Lemma drop_while_lower s :
  Str.drop_while Chars.is_space (Str.toLowerCase s)
  = Str.toLowerCase (Str.drop_while Chars.is_space s).
Proof.
  unfold Str.toLowerCase. induction s as [|c s IH]; [done|]. simpl.
  rewrite is_space_lower. by destruct (Chars.is_space c).
Qed.

Lemma drop_end_lower s :
  drop_end Chars.is_space (Str.toLowerCase s)
  = Str.toLowerCase (drop_end Chars.is_space s).
Proof.
  unfold Str.toLowerCase. induction s as [|c s IH]; [done|]. simpl.
  rewrite IH, is_space_lower.
  destruct (drop_end Chars.is_space s) as [|x r]; simpl; [|done].
  by destruct (Chars.is_space c).
Qed.

Lemma trim_lower s : Str.trim (Str.toLowerCase s) = Str.toLowerCase (Str.trim s).
Proof. by rewrite !trim_forward, drop_while_lower, drop_end_lower. Qed.

Lemma toLowerCase_twice s :
  Str.toLowerCase (Str.toLowerCase s) = Str.toLowerCase s.
Proof.
  unfold Str.toLowerCase. induction s as [|c s IH]; [done|].
  simpl. by rewrite lower_lower, IH.
Qed.

Lemma collapse_squeezed s : ∀ b, squeezed b (collapse_spaces b s) = true.
Proof.
  induction s as [|c s IH]; intros b; [done|]. simpl.
  destruct (Chars.is_space c) eqn:E.
  - destruct b; [apply IH|]. simpl. apply IH.
  - simpl. rewrite E. apply IH.
Qed.

Lemma squeezed_collapse s : ∀ b,
  squeezed b s = true -> collapse_spaces b s = s.
Proof.
  induction s as [|c s IH]; intros b H; [done|]. simpl in *.
  destruct (Chars.is_space c).
  - apply andb_true_iff in H as [H H3]. apply andb_true_iff in H as [H1 H2].
    apply Ascii.eqb_eq in H1. apply negb_true_iff in H2. subst.
    by rewrite IH.
  - by rewrite IH.
Qed.

Lemma squeezed_drop_while s : ∀ b b',
  squeezed b s = true -> squeezed b' (Str.drop_while Chars.is_space s) = true.
Proof.
  induction s as [|c s IH]; intros b b' H; [done|]. simpl in *.
  destruct (Chars.is_space c) eqn:E.
  - apply andb_true_iff in H as [_ H]. by eapply IH.
  - simpl. by rewrite E.
Qed.

Lemma squeezed_drop_end s : ∀ b,
  squeezed b s = true -> squeezed b (drop_end Chars.is_space s) = true.
Proof.
  induction s as [|c s IH]; intros b H; [done|]. simpl in *.
  destruct (Chars.is_space c) eqn:E.
  - apply andb_true_iff in H as [H H3]. specialize (IH true H3).
    destruct (drop_end Chars.is_space s) as [|x r]; [done|].
    simpl in *. by rewrite E, H, IH.
  - specialize (IH false H).
    destruct (drop_end Chars.is_space s) as [|x r]; simpl; by rewrite E.
Qed.

Lemma drop_while_no_lead s :
  Str.drop_while Chars.is_space (Str.drop_while Chars.is_space s)
  = Str.drop_while Chars.is_space s.
Proof.
  induction s as [|c s IH]; [done|]. simpl.
  destruct (Chars.is_space c) eqn:E; [done|]. simpl. by rewrite E.
Qed.

Lemma drop_end_twice s :
  drop_end Chars.is_space (drop_end Chars.is_space s) = drop_end Chars.is_space s.
Proof.
  induction s as [|c s IH]; [done|]. simpl.
  destruct (drop_end Chars.is_space s) as [|x r] eqn:E.
  - destruct (Chars.is_space c) eqn:Ec; [done|]. simpl. by rewrite Ec.
  - simpl in *. by rewrite IH.
Qed.

(** Removing the white space at the end keeps a text without white space at
    its start that way. *)
Lemma drop_while_drop_end s :
  Str.drop_while Chars.is_space s = s ->
  Str.drop_while Chars.is_space (drop_end Chars.is_space s)
  = drop_end Chars.is_space s.
Proof.
  destruct s as [|c s]; [done|]. simpl.
  destruct (Chars.is_space c) eqn:E.
  - intros H. exfalso.
    assert (∀ x, String.length (Str.drop_while Chars.is_space x)
                 <= String.length x)%nat as Hlen.
    { clear. induction x as [|a x IH]; [done|]. simpl.
      destruct (Chars.is_space a); simpl; lia. }
    specialize (Hlen s). rewrite H in Hlen. simpl in Hlen. lia.
  - intros _. destruct (drop_end Chars.is_space s); simpl; by rewrite E.
Qed.

Lemma trim_twice s : Str.trim (Str.trim s) = Str.trim s.
Proof.
  rewrite !trim_forward.
  rewrite (drop_while_drop_end _ (drop_while_no_lead s)).
  apply drop_end_twice.
Qed.

End NormalFacts.

Section NormalForm.
Import TzUtils Views NormalFacts.

(** X21.  [normalizeWindowsLabel] yields a normal form: normalising again
    changes nothing, and neither does any of its three steps on its own
    (collapsing white space, trimming, lowering the case).  So two labels
    compare equal after normalisation exactly when their normal forms are
    the same text, however often either was normalised before. *)
Theorem normalizeWindowsLabel_normal_form (label : string) :
  normalizeWindowsLabel (normalizeWindowsLabel label) = normalizeWindowsLabel label
  ∧ collapse_spaces false (normalizeWindowsLabel label) = normalizeWindowsLabel label
  ∧ Str.trim (normalizeWindowsLabel label) = normalizeWindowsLabel label
  ∧ Str.toLowerCase (normalizeWindowsLabel label) = normalizeWindowsLabel label.
Proof.
  assert (collapse_spaces false (normalizeWindowsLabel label)
          = normalizeWindowsLabel label) as Hc.
  { unfold normalizeWindowsLabel. rewrite collapse_lower. f_equal.
    apply squeezed_collapse. rewrite trim_forward.
    apply squeezed_drop_end, (squeezed_drop_while _ false), collapse_squeezed. }
  assert (Str.trim (normalizeWindowsLabel label) = normalizeWindowsLabel label)
    as Ht.
  { unfold normalizeWindowsLabel. by rewrite trim_lower, trim_twice. }
  assert (Str.toLowerCase (normalizeWindowsLabel label)
          = normalizeWindowsLabel label) as Hl
    by apply toLowerCase_twice.
  split; [|done]. unfold normalizeWindowsLabel at 1. by rewrite Hc, Ht, Hl.
Qed.

End NormalForm.


(** ** Quoted TZIDs and the markers of a custom zone *)

Module QuoteFacts.
Import Regex TzUtils Pure Views FormatFacts NormalFacts DisplayNameFacts.

Lemma star_through {A} p s : ∀ rest c (k : string -> caps -> option A) x,
  Str.existsb (fun ch => negb (p ch)) s = false ->
  star p rest c k = Some x ->
  star p (s +:+ rest) c k = Some x.
Proof.
  induction s as [|a s IH]; intros rest c k x Hs Hk; [done|].
  simpl in Hs. apply orb_false_iff in Hs as [Ha Hs].
  apply negb_false_iff in Ha.
  change (String a s +:+ rest) with (String a (s +:+ rest)).
  cbn [star]. rewrite Ha. by rewrite (IH rest c k x Hs Hk).
Qed.

Lemma consumed_app s1 s2 : consumed (s1 +:+ s2) s2 = s1.
Proof.
  unfold consumed. rewrite length_app.
  replace (String.length s1 + String.length s2 - String.length s2)%nat
    with (String.length s1) by lia.
  apply take_app.
Qed.

(** The text between the quotes. *)
Lemma unquote_quoted x :
  Str.existsb Chars.is_line_terminator x = false ->
  unquote (String dquote (x +:+ String dquote "")) = x.
Proof.
  intros Hx. unfold unquote, exec_at, quoted_re.
  cbn -[star dquote consumed Chars.chr].
  assert (Chars.chr dquote dquote = true) as Hq by reflexivity.
  rewrite Hq.
  match goal with
  | |- context [star ?p _ ?c ?k] =>
      rewrite (star_through p x (String dquote "") c k
                 {| m_caps := [(1%nat, x)]; m_rest := "" |})
  end.
  - reflexivity.
  - clear -Hx. induction x as [|a x IH]; [done|]. simpl in *.
    apply orb_false_iff in Hx as [Ha Hx]. by rewrite Ha, IH.
  - cbn -[dquote consumed Chars.chr]. rewrite Hq.
    change (negb (Chars.is_line_terminator dquote)) with true. cbv iota.
    by rewrite consumed_app.
Qed.

End QuoteFacts.

Section QuotesAndMarkers.
Import Regex TzUtils TzUtilsMore DateUtils Pure Views StateFacts QuoteFacts
  DisplayNameFacts.

(** X22.  The markers Outlook writes for a custom zone stand for the zone
    of the host: a TZID that is 'tzone://Microsoft/Custom', or begins with
    'tzone://Microsoft/' or with 'Customized Time Zone', resolves exactly as
    the name of the host's zone does. *)
Theorem resolveTZID_custom_marker (h : host) (value : string) (st : tzstate) :
  (String.eqb value "tzone://Microsoft/Custom"
   || Str.startsWith "Customized Time Zone" value
   || Str.startsWith "tzone://Microsoft/" value) = true ->
  Str.truthy (hostZone h) = true ->
  resolveTZID h (JString value) st = resolveTZID h (JString (hostZone h)) st.
Proof.
  intros Hv Hh. assert (Str.truthy value = true) as Ht by (by destruct value).
  unfold resolveTZID. rewrite Ht, Hh, Hv. unfold guessLocalZone.
  by destruct (String.eqb (hostZone h) "tzone://Microsoft/Custom"
               || Str.startsWith "Customized Time Zone" (hostZone h)
               || Str.startsWith "tzone://Microsoft/" (hostZone h)).
Qed.

Lemma resolveTZID_custom_marker_witness :
  resolveTZID Scenario.utc_host (JString "Customized Time Zone 1") Scenario.fresh
  = resolveTZID Scenario.utc_host (JString "Etc/GMT") Scenario.fresh.
Proof.
  exact (resolveTZID_custom_marker Scenario.utc_host "Customized Time Zone 1"
           Scenario.fresh eq_refl eq_refl).
Defined.

(** X23.  A TZID in double quotes resolves as the TZID between the quotes:
    for a non-empty text without line breaks that is neither quoted itself
    nor a custom-zone marker, the descriptor of the quoted text is the
    descriptor of the text, [original] included. *)
Theorem resolveTZID_quoted (h : host) (x : string) (st : tzstate) :
  Str.truthy x = true ->
  Str.existsb Chars.is_line_terminator x = false ->
  Str.startsWith (String dquote "") x = false ->
  (String.eqb x "tzone://Microsoft/Custom"
   || Str.startsWith "Customized Time Zone" x
   || Str.startsWith "tzone://Microsoft/" x) = false ->
  resolveTZID h (JString (String dquote (x +:+ String dquote ""))) st
  = resolveTZID h (JString x) st.
Proof.
  intros Ht Hl Hq Hc. unfold resolveTZID. rewrite Ht, Hc.
  change (Str.truthy (String dquote (x +:+ String dquote ""))) with true.
  assert ((String.eqb (String dquote (x +:+ String dquote ""))
             "tzone://Microsoft/Custom"
           || Str.startsWith "Customized Time Zone"
                (String dquote (x +:+ String dquote ""))
           || Str.startsWith "tzone://Microsoft/"
                (String dquote (x +:+ String dquote ""))) = false) as ->
    by reflexivity.
  by rewrite (unquote_quoted x Hl), (unquote_is_id x Hq).
Qed.

Lemma resolveTZID_quoted_witness :
  resolveTZID Scenario.utc_host
    (JString (String dquote ("America/Los_Angeles" +:+ String dquote "")))
    Scenario.fresh
  = resolveTZID Scenario.utc_host (JString "America/Los_Angeles") Scenario.fresh.
Proof.
  exact (resolveTZID_quoted Scenario.utc_host "America/Los_Angeles"
           Scenario.fresh eq_refl eq_refl eq_refl eq_refl).
Defined.

End QuotesAndMarkers.


(** ** What surrounds an offset label *)

Module PrefixFacts.
Import Regex Shapes RegexFacts ShapeFacts TzUtils Pure Views OffsetFacts
  FormatFacts NormalFacts QuoteFacts.

Lemma blank_cons c s :
  blank (String c s) = true -> Chars.is_space c = true ∧ blank s = true.
Proof.
  unfold blank. simpl. intros H. apply negb_true_iff, orb_false_iff in H as [H1 H2].
  apply negb_false_iff in H1. by rewrite H2.
Qed.

Lemma drop_while_blank ws : ∀ y,
  blank ws = true ->
  Str.drop_while Chars.is_space (ws +:+ y) = Str.drop_while Chars.is_space y.
Proof.
  induction ws as [|c ws IH]; intros y H; [done|].
  apply blank_cons in H as [Hc Hw].
  change (String c ws +:+ y) with (String c (ws +:+ y)). simpl.
  rewrite Hc. by apply IH.
Qed.

Lemma drop_end_of_blank ws :
  blank ws = true -> drop_end Chars.is_space ws = "".
Proof.
  induction ws as [|c ws IH]; intros H; [done|].
  apply blank_cons in H as [Hc Hw]. simpl. by rewrite (IH Hw), Hc.
Qed.

Lemma drop_end_blank x ws :
  blank ws = true ->
  drop_end Chars.is_space (x +:+ ws) = drop_end Chars.is_space x.
Proof.
  intros H. induction x as [|c x IH]; [by apply drop_end_of_blank|].
  change (String c x +:+ ws) with (String c (x +:+ ws)). simpl. by rewrite IH.
Qed.

(** White space around a text does not change what [trim] gives. *)
Lemma trim_blank ws1 x ws2 :
  blank ws1 = true -> blank ws2 = true ->
  Str.trim (ws1 +:+ x +:+ ws2) = Str.trim x.
Proof.
  intros H1 H2. rewrite !trim_forward, drop_while_blank by done.
  induction x as [|c x IH].
  - change ("" +:+ ws2) with ws2.
    rewrite <- (app_empty ws2), drop_while_blank by done. done.
  - change (String c x +:+ ws2) with (String c (x +:+ ws2)). simpl.
    destruct (Chars.is_space c); [done|].
    change (String c (x +:+ ws2)) with (String c x +:+ ws2).
    by apply drop_end_blank.
Qed.

Lemma drop_end_app a b :
  drop_end Chars.is_space b = b -> b ≠ "" ->
  drop_end Chars.is_space (a +:+ b) = a +:+ b.
Proof.
  intros Hb Hne. induction a as [|c a IH]; [done|].
  change (String c a +:+ b) with (String c (a +:+ b)). simpl. rewrite IH.
  destruct (a +:+ b) eqn:E; [|done]. by destruct a.
Qed.

Lemma truthy_app a b : Str.truthy b = true -> Str.truthy (a +:+ b) = true.
Proof. intros H. by destruct a. Qed.

Lemma star_blank {A} sp x r c (k : string -> caps -> option A) v :
  blank sp = true -> Chars.is_space x = false ->
  k (String x r) c = Some v ->
  star Chars.is_space (sp +:+ String x r) c k = Some v.
Proof.
  intros Hs Hx Hk. apply star_through.
  - unfold blank in Hs. by apply negb_true_iff in Hs.
  - simpl. by rewrite Hx.
Qed.

Lemma space_not_paren c : Chars.is_space c = true -> Chars.chr ")" c = false.
Proof. destruct c as [[] [] [] [] [] [] [] []]; intros H; try discriminate H; reflexivity. Qed.

(** The letters of a word that reads utc or gmt in lower case. *)
Lemma lower_letter c l :
  In l ["u"; "t"; "c"; "g"; "m"]%char -> Chars.lower c = l ->
  Chars.chr_i l c = true ∧ Chars.is_space c = false ∧ Chars.chr "(" c = false
  ∧ (l ≠ "u"%char -> Chars.chr_i "u" c = false).
Proof.
  intros Hl Hc. simpl in Hl.
  destruct Hl as [<-|[<-|[<-|[<-|[<-|[]]]]]];
    destruct c as [[] [] [] [] [] [] [] []]; try discriminate Hc;
    repeat split; try reflexivity; intros; congruence.
Qed.

Lemma word_letters word :
  Str.toLowerCase word = "utc" ∨ Str.toLowerCase word = "gmt" ->
  ∃ a b c, word = String a (String b (String c ""))
    ∧ ((Chars.lower a = "u"%char ∧ Chars.lower b = "t"%char ∧ Chars.lower c = "c"%char)
       ∨ (Chars.lower a = "g"%char ∧ Chars.lower b = "m"%char ∧ Chars.lower c = "t"%char)).
Proof.
  destruct word as [|a [|b [|c [|d w]]]]; intros [H|H]; try discriminate H.
  - injection H as Ha Hb Hc. exists a, b, c. split; [done|]. by left.
  - injection H as Ha Hb Hc. exists a, b, c. split; [done|]. by right.
Qed.

(** The prefix pattern removes an optional parenthesis, the word, an
    optional closing parenthesis and the white space after it. *)
Lemma strip_utc_prefix lp word rp sp x r :
  lp = "" ∨ lp = "(" ->
  Str.toLowerCase word = "utc" ∨ Str.toLowerCase word = "gmt" ->
  rp = "" ∨ rp = ")" ->
  blank sp = true -> Chars.is_space x = false -> Chars.chr ")" x = false ->
  strip_prefix utc_prefix_re (lp +:+ word +:+ rp +:+ sp +:+ String x r)
  = String x r.
Proof.
  intros Hlp Hw Hrp Hsp Hx Hxp.
  apply word_letters in Hw as (a & b & c & -> & Hw).
  assert (Chars.chr "(" "(" = true) as Hpp by reflexivity.
  assert (Chars.chr ")" ")" = true) as Hqq by reflexivity.
  assert (∃ c0 tl, sp +:+ String x r = String c0 tl ∧ Chars.chr ")" c0 = false)
    as (c0 & tl & Etail & Hc0).
  { destruct sp as [|s1 sp']; [by exists x, r|].
    apply blank_cons in Hsp as [Hs1 _]. exists s1, (sp' +:+ String x r).
    split; [done|]. by apply space_not_paren. }
  assert (∀ cp, star Chars.is_space (sp +:+ String x r) cp
                  (fun s' c' => Some {| m_caps := c'; m_rest := s' |})
                = Some {| m_caps := cp; m_rest := String x r |}) as Hstar
    by (intros cp; by apply star_blank).
  unfold strip_prefix, exec_at, utc_prefix_re.
  destruct Hw as [(Ha & Hb & Hc) | (Ha & Hb & Hc)].
  - destruct (lower_letter a "u" ltac:(simpl; tauto) Ha) as (Ha1 & _ & Ha3 & _).
    destruct (lower_letter b "t" ltac:(simpl; tauto) Hb) as (Hb1 & _).
    destruct (lower_letter c "c" ltac:(simpl; tauto) Hc) as (Hc1 & _).
    destruct Hlp as [-> | ->]; destruct Hrp as [-> | ->];
      cbv [String.append]; fold String.append;
      cbn -[star Chars.chr Chars.chr_i Chars.is_space String.append];
      rewrite ?Hpp, ?Ha3, ?Ha1, ?Hb1, ?Hc1, ?Hqq;
      cbn -[star Chars.chr Chars.chr_i Chars.is_space String.append];
      rewrite ?Hstar; try reflexivity;
      rewrite Etail; cbv beta iota; rewrite Hc0; reflexivity.
  - destruct (lower_letter a "g" ltac:(simpl; tauto) Ha) as (Ha1 & _ & Ha3 & Ha4).
    specialize (Ha4 ltac:(discriminate)).
    destruct (lower_letter b "m" ltac:(simpl; tauto) Hb) as (Hb1 & _).
    destruct (lower_letter c "t" ltac:(simpl; tauto) Hc) as (Hc1 & _).
    destruct Hlp as [-> | ->]; destruct Hrp as [-> | ->];
      cbv [String.append]; fold String.append;
      cbn -[star Chars.chr Chars.chr_i Chars.is_space String.append];
      rewrite ?Hpp, ?Ha3, ?Ha4, ?Ha1, ?Hb1, ?Hc1, ?Hqq;
      cbn -[star Chars.chr Chars.chr_i Chars.is_space String.append];
      rewrite ?Ha1, ?Hb1, ?Hc1, ?Hqq;
      cbn -[star Chars.chr Chars.chr_i Chars.is_space String.append];
      rewrite ?Hstar; try reflexivity;
      rewrite Etail; cbv beta iota; rewrite Hc0; reflexivity.
Qed.

Ltac know_parens :=
  assert (Chars.chr ")" ")" = true) by reflexivity;
  assert (Chars.chr ")" ":" = false) by reflexivity;
  assert (Chars.chr ")" "+" = false) by reflexivity;
  assert (Chars.chr ")" "-" = false) by reflexivity;
  assert (Chars.chr "(" "+" = false) by reflexivity;
  assert (Chars.chr "(" "-" = false) by reflexivity;
  assert (Chars.is_space ":" = false) by reflexivity;
  assert (Chars.is_space "+" = false) by reflexivity;
  assert (Chars.is_space "-" = false) by reflexivity;
  assert (Chars.is_space ")" = false) by reflexivity;
  repeat match goal with
         | H : Chars.is_digit ?a = true |- _ =>
             lazymatch goal with
             | _ : Chars.chr ")" a = false |- _ => fail
             | _ => assert (Chars.chr ")" a = false)
                      by (by apply CharFacts.digit_not);
                    assert (Chars.is_space a = false)
                      by (by apply CharFacts.digit_not_space)
             end
         end.

(** A label of the offset shape is left alone by every stripping step but
    the removal of one closing parenthesis at its end. *)
Lemma shape_is_stripped t sg h m :
  OffsetShape t sg h m ->
  strip_prefix utc_prefix_re t = t
  ∧ strip_first close_paren_end_re t = t
  ∧ strip_first close_paren_end_re (t +:+ ")") = t
  ∧ Str.trim t = t
  ∧ drop_end Chars.is_space t = t
  ∧ drop_end Chars.is_space (t +:+ ")") = t +:+ ")"
  ∧ ∃ x r, t = String x r ∧ is_sign x = true ∧ Chars.is_space x = false
           ∧ Chars.chr ")" x = false.
Proof.
  intros Hs. rewrite trim_forward.
  destruct Hs as [sg hs Hsg Hh | sg hs colon ms Hsg Hh Hc Hm].
  - apply is_sign_cases in Hsg.
    destruct Hh as [Hh|Hh];
      [apply digits1_inv in Hh as (a & -> & Ha)
      |apply digits2_inv in Hh as (a & b & -> & Ha & Hb)];
      destruct Hsg as [-> | ->]; know_parens;
      unfold str1, str2; cbv [String.append];
      (split; [unfold strip_prefix, exec_at, utc_prefix_re; run_match; reflexivity|]);
      (split; [unfold strip_first, search, exec_at, close_paren_end_re;
               run_match; reflexivity|]);
      (split; [unfold strip_first, search, exec_at, close_paren_end_re;
               run_match; reflexivity|]);
      (split; [run_match; reflexivity|]);
      (split; [run_match; reflexivity|]);
      (split; [run_match; reflexivity|]); eauto 10.
  - apply is_sign_cases in Hsg.
    apply digits2_inv in Hm as (m1 & m2 & -> & Hm1 & Hm2).
    destruct Hh as [Hh|Hh];
      [apply digits1_inv in Hh as (a & -> & Ha)
      |apply digits2_inv in Hh as (a & b & -> & Ha & Hb)];
      destruct Hsg as [-> | ->]; destruct Hc as [-> | ->]; know_parens;
      unfold str1, str2; cbv [String.append];
      (split; [unfold strip_prefix, exec_at, utc_prefix_re; run_match; reflexivity|]);
      (split; [unfold strip_first, search, exec_at, close_paren_end_re;
               run_match; reflexivity|]);
      (split; [unfold strip_first, search, exec_at, close_paren_end_re;
               run_match; reflexivity|]);
      (split; [run_match; reflexivity|]);
      (split; [run_match; reflexivity|]);
      (split; [run_match; reflexivity|]); eauto 10.
Qed.

Lemma no_utc_prefix x r :
  is_sign x = true -> strip_prefix utc_prefix_re (String x r) = String x r.
Proof.
  intros H. apply is_sign_cases in H as [-> | ->]; reflexivity.
Qed.

End PrefixFacts.

Section OffsetWrapping.
Import Regex Shapes RegexFacts ShapeFacts TzUtils Pure Views OffsetFacts
  FormatFacts NormalFacts QuoteFacts PrefixFacts.

(** X24.  [offsetLabelToMinutes] reads an offset label the same whatever
    wraps it: white space around the text, a leading UTC or GMT in any
    letter case with an optional parenthesis before and after it and white
    space behind it, and one closing parenthesis at the end.  So
    ' (utc) +05:30) ' , 'GMT+05:30' and '+05:30' are the same offset. *)
Theorem offsetLabelToMinutes_ignores_wrapping
    (ws1 lp word rp sp t post ws2 : string) (sg h m : Z) :
  OffsetShape t sg h m ->
  blank ws1 = true -> blank sp = true -> blank ws2 = true ->
  lp = "" ∨ lp = "(" ->
  Str.toLowerCase word = "utc" ∨ Str.toLowerCase word = "gmt" ->
  rp = "" ∨ rp = ")" ->
  post = "" ∨ post = ")" ->
  offsetLabelToMinutes
    (ws1 +:+ lp +:+ word +:+ rp +:+ sp +:+ t +:+ post +:+ ws2)
  = offsetLabelToMinutes t
  ∧ offsetLabelToMinutes (ws1 +:+ t +:+ post +:+ ws2) = offsetLabelToMinutes t.
Proof.
  intros Hs H1 Hsp H2 Hlp Hw Hrp Hpost.
  destruct (shape_is_stripped t sg h m Hs)
    as (Hpre & Hcl0 & Hcl1 & Htrim & Hde0 & Hde1 & x & r & -> & Hsx & Hx & Hxp).
  set (t := String x r) in *.
  assert (strip_first close_paren_end_re (t +:+ post) = t) as Hcl.
  { destruct Hpost as [-> | ->]; [by rewrite app_empty | done]. }
  assert (drop_end Chars.is_space (t +:+ post) = t +:+ post) as Hde.
  { destruct Hpost as [-> | ->]; [by rewrite app_empty | done]. }
  assert (offset_trimmed t = t) as Ht.
  { unfold offset_trimmed. by rewrite Htrim, Hpre, Hcl0, Htrim. }
  split.
  - assert (ws1 +:+ lp +:+ word +:+ rp +:+ sp +:+ t +:+ post +:+ ws2
            = ws1 +:+ (lp +:+ word +:+ rp +:+ sp +:+ t +:+ post) +:+ ws2) as ->
      by (by rewrite !app_assoc').
    rewrite !offsetLabelToMinutes_unfold.
    rewrite truthy_app
      by (destruct (word_letters word Hw) as (a & b & c & -> & _);
          by destruct Hlp as [-> | ->]).
    change (Str.truthy t) with true. cbn [negb].
    rewrite Ht. unfold offset_trimmed. rewrite trim_blank by done.
    assert (Str.trim (lp +:+ word +:+ rp +:+ sp +:+ t +:+ post)
            = lp +:+ word +:+ rp +:+ sp +:+ t +:+ post) as ->.
    { rewrite trim_forward.
      assert (Str.drop_while Chars.is_space
                (lp +:+ word +:+ rp +:+ sp +:+ t +:+ post)
              = lp +:+ word +:+ rp +:+ sp +:+ t +:+ post) as ->.
      { destruct (word_letters word Hw) as (a & b & c & -> & Hl).
        assert (Chars.is_space a = false) as Ha.
        { destruct Hl as [(Ha & _) | (Ha & _)].
          - by destruct (lower_letter a "u" ltac:(simpl; tauto) Ha) as (_ & ? & _).
          - by destruct (lower_letter a "g" ltac:(simpl; tauto) Ha) as (_ & ? & _). }
        destruct Hlp as [-> | ->]; cbv [String.append]; fold String.append;
          simpl; by rewrite ?Ha. }
      replace (lp +:+ word +:+ rp +:+ sp +:+ t +:+ post)
        with ((lp +:+ word +:+ rp +:+ sp) +:+ (t +:+ post))
        by (by rewrite !app_assoc').
      apply drop_end_app; [done | by unfold t]. }
    change (t +:+ post) with (String x (r +:+ post)).
    rewrite strip_utc_prefix by done.
    change (String x (r +:+ post)) with (t +:+ post).
    by rewrite Hcl, Htrim.
  - assert (ws1 +:+ t +:+ post +:+ ws2 = ws1 +:+ (t +:+ post) +:+ ws2) as ->
      by (by rewrite !app_assoc').
    rewrite !offsetLabelToMinutes_unfold.
    rewrite truthy_app by reflexivity.
    change (Str.truthy t) with true. cbn [negb].
    rewrite Ht. unfold offset_trimmed. rewrite trim_blank by done.
    assert (Str.trim (t +:+ post) = t +:+ post) as ->.
    { rewrite trim_forward.
      change (t +:+ post) with (String x (r +:+ post)) at 1.
      cbn [Str.drop_while]. rewrite Hx. exact Hde. }
    change (t +:+ post) with (String x (r +:+ post)).
    rewrite no_utc_prefix by done.
    change (String x (r +:+ post)) with (t +:+ post).
    by rewrite Hcl, Htrim.
Qed.

Lemma offsetLabelToMinutes_ignores_wrapping_witness :
  offsetLabelToMinutes " (utc) +05:30) " = Some 330
  ∧ offsetLabelToMinutes "  +05:30" = Some 330.
Proof.
  assert (OffsetShape "+05:30" 1 5 30) as Hs.
  { apply (Shape_hours_minutes "+" "05" ":" "30");
      [reflexivity | right; by split | by right | by split]. }
  destruct (offsetLabelToMinutes_ignores_wrapping
              " " "(" "utc" ")" " " "+05:30" ")" " " 1 5 30 Hs
              eq_refl eq_refl eq_refl (or_intror eq_refl) (or_introl eq_refl)
              (or_intror eq_refl) (or_intror eq_refl)) as [H1 _].
  destruct (offsetLabelToMinutes_ignores_wrapping
              "  " "" "utc" "" "" "+05:30" "" "" 1 5 30 Hs
              eq_refl eq_refl eq_refl (or_introl eq_refl) (or_introl eq_refl)
              (or_introl eq_refl) (or_introl eq_refl)) as [_ H2].
  split; [exact H1 | exact H2].
Defined.

End OffsetWrapping.


(** ** Windows labels through the resolver *)

Section WindowsTzids.
Import Regex TzUtils TzUtilsMore DateUtils Pure Views StateFacts ParserFacts
  DisplayNameFacts.

(** X25.  A TZID that is a label of the Windows table resolves to the zone
    the table gives it.  For a text with a space or a comma that is neither
    quoted nor a custom-zone marker, mapped by [mapWindowsZone] to a name
    that is not itself an offset label or a parenthesised text and that the
    module takes as valid after alias resolution, the descriptor names that
    zone (after alias resolution), keeps the text as [original] and holds no
    offset. *)
Theorem resolveTZID_windows_label (h : host) (st : tzstate) (label z : string) :
  (String.eqb label "tzone://Microsoft/Custom"
   || Str.startsWith "Customized Time Zone" label
   || Str.startsWith "tzone://Microsoft/" label) = false ->
  Str.startsWith (String dquote "") label = false ->
  (Str.includes_char " " label || Str.includes_char "," label) = true ->
  mapWindowsZone h label = Some z ->
  Str.startsWith "(" z = false ->
  offsetLabelToMinutes z = None ->
  valid_zone h st (alias_of st z) = true ->
  fst (resolveTZID h (JString label) st)
  = Ret {| original := Some label; iana := Some (alias_of st z);
           offset := None; offsetMinutes := None; etc := None |}.
Proof.
  intros Hc Hq Hsp Hmap Hparen Hoff Hv.
  assert (Str.truthy label = true) as Ht.
  { destruct label; [|done]. discriminate Hsp. }
  assert (Str.truthy z = true) as Hz
    by (by eapply alias_of_truthy, valid_zone_truthy).
  destruct (resolveTZID_string h label st Ht) as (st' & -> & _).
  simpl fst. f_equal. unfold resolved.
  assert (cleaned h label = label) as Hcl.
  { unfold cleaned. rewrite Hc. by apply unquote_is_id. }
  assert (classify h label = (None, Some z)) as Hcls.
  { unfold classify. rewrite Hcl, Ht, Hsp, Hmap. cbn [andb truthy_opt].
    rewrite Hz, Hparen, andb_false_r. cbn [truthy_opt]. by rewrite Hz, Hoff. }
  rewrite Hcls, Hcl. cbn [fst snd minutesToOffset minutesToEtcZone].
  f_equal. unfold iana_of, exact_match. cbn [truthy_opt]. by rewrite Hz, Hv.
Qed.

Lemma resolveTZID_windows_label_witness :
  fst (resolveTZID
         {| windowsZones := [("W. Europe Standard Time", ["Europe/Berlin"])];
            intl_supports := fun z => String.eqb z "Europe/Berlin";
            tzdb := fun _ => None; hostZone := "Europe/Berlin";
            localTZA := fun _ => 0 |}
         (JString "W. Europe Standard Time") Scenario.fresh)
  = Ret {| original := Some "W. Europe Standard Time";
           iana := Some "Europe/Berlin"; offset := None;
           offsetMinutes := None; etc := None |}.
Proof.
  exact (resolveTZID_windows_label
           {| windowsZones := [("W. Europe Standard Time", ["Europe/Berlin"])];
              intl_supports := fun z => String.eqb z "Europe/Berlin";
              tzdb := fun _ => None; hostZone := "Europe/Berlin";
              localTZA := fun _ => 0 |}
           Scenario.fresh "W. Europe Standard Time" "Europe/Berlin"
           eq_refl eq_refl eq_refl ltac:(vm_compute; reflexivity) eq_refl
           eq_refl eq_refl).
Defined.

End WindowsTzids.

(** ** The two notations of a wall time *)

Section Notations.
Import Regex Shapes TzUtils TzUtilsMore Pure Views StateFacts ParserFacts
  WallStringFacts.

(** X26.  The two parsers read the compact and the extended notation alike,
    and a missing seconds group as 00: two wall-time strings with the same
    date, hour and minute digits and the same number of seconds give the
    same outcome and the same state, in [parseWithOffset] for every offset
    and in [parseDateTimeInZone] for every zone. *)
Theorem parsers_read_both_notations (h : host) (st : tzstate)
    (s1 s2 Y M D hh mi ss1 ss2 off zone : string) :
  wall_string s1 Y M D hh mi ss1 ->
  wall_string s2 Y M D hh mi ss2 ->
  Str.number ss1 = Str.number ss2 ->
  parseWithOffset s1 off st = parseWithOffset s2 off st
  ∧ parseDateTimeInZone h s1 zone st = parseDateTimeInZone h s2 zone st.
Proof.
  intros H1 H2 Hs.
  destruct (wall_string_fields _ _ _ _ _ _ _ H1) as (Hw1 & m1 & Hm1 & Hf1).
  destruct (wall_string_fields _ _ _ _ _ _ _ H2) as (Hw2 & m2 & Hm2 & Hf2).
  assert (fields_of Y M D hh mi ss1 = fields_of Y M D hh mi ss2) as Hf
    by (unfold fields_of; by rewrite Hs).
  split.
  - rewrite !parseWithOffset_unfold, Hm1, Hm2. cbv zeta.
    by rewrite Hf1, Hf2, Hf.
  - rewrite !parseDateTimeInZone_run, Hw1, Hw2. by rewrite Hf.
Qed.

Lemma parsers_read_both_notations_witness :
  parseWithOffset "20260226T0030" "+01:00" Scenario.fresh
  = parseWithOffset "2026-02-26 00:30:00" "+01:00" Scenario.fresh
  ∧ parseDateTimeInZone Scenario.utc_host "20260226T0030" "Etc/GMT"
      Scenario.fresh
    = parseDateTimeInZone Scenario.utc_host "2026-02-26 00:30:00" "Etc/GMT"
        Scenario.fresh.
Proof.
  assert (wall_string "20260226T0030" "2026" "02" "26" "00" "30" "") as H1.
  { repeat (split; [by repeat split|]). split; [by left|]. by left. }
  assert (wall_string "2026-02-26 00:30:00" "2026" "02" "26" "00" "30" "00")
    as H2.
  { repeat (split; [by repeat split|]). split; [right; by repeat split|].
    right. exists " ". split; [by right | reflexivity]. }
  exact (parsers_read_both_notations Scenario.utc_host Scenario.fresh
           _ _ _ _ _ _ _ _ _ "+01:00" "Etc/GMT" H1 H2 eq_refl).
Defined.

End Notations.

